(** * A blogging platform: controllers of the blog service and the comment widget

    Shallow embedding of
    - [controllers/likeController.js]      ([addLike], [removeLike]),
    - [controllers/commentsController.js]  ([getAllComments], [createComment],
                                            [editCommentById], [deleteCommentById]),
    - [controllers/postController.js]      ([createOrGetTags],
                                            [createOrGetCategories],
                                            [updatePost], [deletePost]),
    - [components/CommentSection/CommentSection.jsx]
                                           ([fetchComments], [renderComments]).

    An [async] handler is a computation in a state-and-exception monad over
    the document store and the response object [res].  Every awaited
    database call may reject: a fault plan carried by the world decides, call
    by call, whether the call throws.  The Mongoose models, the Express
    router and the middleware that fills [req.user] are outside these files;
    what the handlers use of them is modelled next to its first use. *)

From Stdlib Require Import String List ZArith Bool Arith Lia.
From Stdlib Require Import Permutation Sorted.
From Stdlib Require Import NArith Nnat Znat.
Import ListNotations.
Open Scope string_scope.

Set Implicit Arguments.

(** ** JSON values, as [res.json] sends them and [response.json()] reads them *)

#[local] Unset Elimination Schemes.
Inductive json : Type :=
| JNull
| JBool (b : bool)
| JNum (n : Z)
| JStr (s : string)
| JArr (items : list json)
| JObj (fields : list (string * json)).
#[local] Set Elimination Schemes.

(** Property order is kept; a key occurs once. *)
Fixpoint assoc (k : string) (fields : list (string * json)) : option json :=
  match fields with
  | [] => None
  | (k', v) :: rest => if k' =? k then Some v else assoc k rest
  end.

(** A field that is [undefined] is left out of the serialised object. *)
Definition opt_field (k : string) (v : option string) : list (string * json) :=
  match v with
  | Some s => [(k, JStr s)]
  | None => []
  end.

Definition ids_json (l : list string) : json := JArr (map JStr l).

(** ** Documents

    The Mongoose schemas are declared in [models/], the fields below are the
    ones the controllers read and write.  An ObjectId is its canonical
    hexadecimal string ([author.toString()], [req.user.id]); a query matches
    an id when the strings are equal. *)

Definition ObjectId := string.

Record User := mkUser
  { u_id : ObjectId; u_name : string; u_email : string }.

Record Post := mkPost
  { p_id : ObjectId;
    p_title : option string;
    p_content : option string;
    p_author : ObjectId;
    p_tags : list ObjectId;
    p_categories : list ObjectId;
    p_comments : list ObjectId;
    p_likes : list ObjectId }.

Record Comment := mkComment
  { c_id : ObjectId;
    c_content : option string;
    c_author : ObjectId;
    c_post : ObjectId }.

Record Like := mkLike
  { l_id : ObjectId; l_user : ObjectId; l_post : ObjectId }.

Record Tag := mkTag { t_id : ObjectId; t_name : string }.

Record Category := mkCategory { g_id : ObjectId; g_name : string }.

(** The collections, in natural (insertion) order. *)
Record Store := mkStore
  { Posts : list Post;
    Comments : list Comment;
    Likes : list Like;
    Tags : list Tag;
    Categories : list Category;
    Users : list User }.

Definition set_Posts (s : Store) (l : list Post) : Store :=
  mkStore l (Comments s) (Likes s) (Tags s) (Categories s) (Users s).
Definition set_Comments (s : Store) (l : list Comment) : Store :=
  mkStore (Posts s) l (Likes s) (Tags s) (Categories s) (Users s).
Definition set_Likes (s : Store) (l : list Like) : Store :=
  mkStore (Posts s) (Comments s) l (Tags s) (Categories s) (Users s).
Definition set_Tags (s : Store) (l : list Tag) : Store :=
  mkStore (Posts s) (Comments s) (Likes s) l (Categories s) (Users s).
Definition set_Categories (s : Store) (l : list Category) : Store :=
  mkStore (Posts s) (Comments s) (Likes s) (Tags s) l (Users s).

(** *** Serialisation of documents *)

Definition user_json (u : User) : json :=
  JObj [("_id", JStr (u_id u)); ("name", JStr (u_name u));
        ("email", JStr (u_email u))].

Definition post_json (p : Post) : json :=
  JObj ([("_id", JStr (p_id p))]
          ++ opt_field "title" (p_title p)
          ++ opt_field "content" (p_content p)
          ++ [("author", JStr (p_author p));
              ("tags", ids_json (p_tags p));
              ("categories", ids_json (p_categories p));
              ("comments", ids_json (p_comments p));
              ("likes", ids_json (p_likes p))]).

Definition comment_json (c : Comment) : json :=
  JObj ([("_id", JStr (c_id c))]
          ++ opt_field "content" (c_content c)
          ++ [("author", JStr (c_author c)); ("post", JStr (c_post c))]).

Definition opt_json {A : Type} (f : A -> json) (o : option A) : json :=
  match o with
  | Some a => f a
  | None => JNull
  end.

(** ** Generic operations on a collection, by [_id] *)

Section Collection.
Variable Doc : Type.
Variable key : Doc -> ObjectId.

Definition findById (i : ObjectId) (l : list Doc) : option Doc :=
  find (fun d => key d =? i) l.

(** [doc.save()] on a document that was read from the collection: the
    stored document with that [_id] is overwritten; [None] when there is
    none left. *)
Fixpoint replace_doc (d : Doc) (l : list Doc) : option (list Doc) :=
  match l with
  | [] => None
  | e :: rest =>
      if key e =? key d then Some (d :: rest)
      else option_map (cons e) (replace_doc d rest)
  end.

(** [deleteOne({ _id })]: at most one document goes. *)
Fixpoint delete_doc (i : ObjectId) (l : list Doc) : list Doc :=
  match l with
  | [] => []
  | e :: rest => if key e =? i then rest else e :: delete_doc i rest
  end.

(** An update of the first document with the given [_id]. *)
Fixpoint update_doc (i : ObjectId) (f : Doc -> Doc) (l : list Doc)
  : list Doc :=
  match l with
  | [] => []
  | e :: rest =>
      if key e =? i then f e :: rest else e :: update_doc i f rest
  end.
End Collection.

(** ** The world a handler runs in *)

Inductive Err : Type :=
| DbError                 (* an awaited database call rejected *)
| TypeError               (* a property read on null *)
| DocumentNotFoundError   (* save() of a document that is gone *)
| ERR_HTTP_HEADERS_SENT.  (* a second response on the same res *)

Definition err_message (e : Err) : string :=
  match e with
  | DbError => "database operation failed"
  | TypeError => "Cannot read properties of null"
  | DocumentNotFoundError => "No document found for query"
  | ERR_HTTP_HEADERS_SENT =>
      "Cannot set headers after they are sent to the client"
  end.

Record World := mkWorld
  { db : Store;
    plan : nat -> bool;       (* plan k = true: the k-th awaited call throws *)
    clock : nat;              (* awaited database calls so far *)
    oidgen : nat -> ObjectId; (* the driver's ObjectId generator *)
    fresh : nat }.            (* ObjectIds generated so far *)

Record Response := mkResponse { status : nat; body : json }.

(** State of one request: the world and what was sent on [res]. *)
Record St := mkSt { world : World; sent : option Response }.

Inductive Outcome (A : Type) : Type :=
| Ret (a : A)
| Throw (e : Err).
Arguments Ret {A} a.
Arguments Throw {A} e.

Definition M (A : Type) : Type := St -> Outcome A * St.

Definition ret {A : Type} (a : A) : M A := fun st => (Ret a, st).

Definition throw {A : Type} (e : Err) : M A := fun st => (Throw e, st).

Definition bind {A B : Type} (m : M A) (k : A -> M B) : M B :=
  fun st =>
    match m st with
    | (Ret a, st') => k a st'
    | (Throw e, st') => (Throw e, st')
    end.

(** [try { body } catch (err) { handler }] *)
Definition try_catch {A : Type} (body : M A) (handler : Err -> M A) : M A :=
  fun st =>
    match body st with
    | (Ret a, st') => (Ret a, st')
    | (Throw e, st') => handler e st'
    end.

Declare Scope handler_scope.
Delimit Scope handler_scope with handler.
Notation "x <- m ;; k" := (bind m (fun x => k))
  (at level 100, m at next level, right associativity) : handler_scope.
Notation "m ;; k" := (bind m (fun _ => k))
  (at level 100, right associativity) : handler_scope.
Open Scope handler_scope.

(** [await query]: the call counts on the clock; it throws when the plan says
    so and then leaves the store alone, otherwise the query runs. *)
Definition await {A : Type} (q : Store -> Outcome A * Store) : M A :=
  fun st =>
    let w := world st in
    if plan w (clock w)
    then (Throw DbError,
          mkSt (mkWorld (db w) (plan w) (S (clock w)) (oidgen w) (fresh w))
               (sent st))
    else
      let '(r, s') := q (db w) in
      (r, mkSt (mkWorld s' (plan w) (S (clock w)) (oidgen w) (fresh w))
               (sent st)).

(** A read-only query. *)
Definition reading {A : Type} (f : Store -> A) : Store -> Outcome A * Store :=
  fun s => (Ret (f s), s).

(** A write that cannot fail on its own. *)
Definition writing (f : Store -> Store) : Store -> Outcome unit * Store :=
  fun s => (Ret tt, f s).

(** [new Model(...)._id]: the driver generates the ObjectId on the client. *)
Definition new_oid : M ObjectId :=
  fun st =>
    let w := world st in
    (Ret (oidgen w (fresh w)),
     mkSt (mkWorld (db w) (plan w) (clock w) (oidgen w) (S (fresh w)))
          (sent st)).

(** [res.status(code).json(payload)]: the first call sends the response,
    a later one throws, the headers are gone. *)
Definition res_json (code : nat) (payload : json) : M unit :=
  fun st =>
    match sent st with
    | Some _ => (Throw ERR_HTTP_HEADERS_SENT, st)
    | None => (Ret tt, mkSt (world st) (Some (mkResponse code payload)))
    end.

Definition message (m : string) : json := JObj [("message", JStr m)].

Definition message_error (m : string) (e : Err) : json :=
  JObj [("message", JStr m); ("error", JStr (err_message e))].

(** What the server observes of one request: a fresh [res], the handler's
    promise settles (fulfilled, or rejected with an error nobody handles). *)
Record Request := mkRequest
  { params_id : string;                 (* req.params.id *)
    user_id : string;                   (* req.user.id *)
    body_title : option string;         (* req.body.title *)
    body_content : option string;       (* req.body.content *)
    body_tags : option (list string);   (* req.body.tags *)
    body_categories : option (list string) }.

Definition Handler : Type := Request -> M unit.

Definition serve (h : Handler) (req : Request) (w : World)
  : Outcome unit * St :=
  h req (mkSt w None).

Definition settled (r : Outcome unit * St) : Outcome unit := fst r.
Definition response (r : Outcome unit * St) : option Response := sent (snd r).
Definition store_after (r : Outcome unit * St) : Store := db (world (snd r)).

(** JavaScript truthiness of a string that may be [undefined]. *)
Definition truthy (v : option string) : bool :=
  match v with
  | Some s => negb (s =? "")
  | None => false
  end.

(** ** Queries of the models *)

(** [Post.findById(id)].  For a text that is no ObjectId Mongoose rejects the
    call with a CastError; the model has that rejection only among the
    failures of the fault plan, and gives [None] for every id that is not
    stored. *)
Definition Post_findById (i : ObjectId) : Store -> Outcome (option Post) * Store :=
  reading (fun s => findById p_id i (Posts s)).

Definition Comment_findById (i : ObjectId)
  : Store -> Outcome (option Comment) * Store :=
  reading (fun s => findById c_id i (Comments s)).

(** [Like.findOne({ user, post })] *)
Definition Like_findOne (user post : ObjectId)
  : Store -> Outcome (option Like) * Store :=
  reading (fun s =>
             find (fun l => (l_user l =? user) && (l_post l =? post))
                  (Likes s)).

Definition Tag_findOne (name : string) : Store -> Outcome (option Tag) * Store :=
  reading (fun s => find (fun t => t_name t =? name) (Tags s)).

Definition Category_findOne (name : string)
  : Store -> Outcome (option Category) * Store :=
  reading (fun s => find (fun g => g_name g =? name) (Categories s)).

(** [post.save()] of a post read with [findById]. *)
Definition Post_save (p : Post) : Store -> Outcome unit * Store :=
  fun s =>
    match replace_doc p_id p (Posts s) with
    | Some l => (Ret tt, set_Posts s l)
    | None => (Throw DocumentNotFoundError, s)
    end.

(** [comment.save()] of a comment read with [findById]. *)
Definition Comment_save (c : Comment) : Store -> Outcome unit * Store :=
  fun s =>
    match replace_doc c_id c (Comments s) with
    | Some l => (Ret tt, set_Comments s l)
    | None => (Throw DocumentNotFoundError, s)
    end.

(** [doc.save()] of a document made with [new]: an insert. *)
Definition Like_insert (l : Like) : Store -> Outcome unit * Store :=
  writing (fun s => set_Likes s (Likes s ++ [l])).

Definition Comment_insert (c : Comment) : Store -> Outcome unit * Store :=
  writing (fun s => set_Comments s (Comments s ++ [c])).

Definition Tag_insert (t : Tag) : Store -> Outcome unit * Store :=
  writing (fun s => set_Tags s (Tags s ++ [t])).

Definition Category_insert (g : Category) : Store -> Outcome unit * Store :=
  writing (fun s => set_Categories s (Categories s ++ [g])).

(** [like.deleteOne()], [comment.deleteOne()], [post.deleteOne()] *)
Definition Like_deleteOne (l : Like) : Store -> Outcome unit * Store :=
  writing (fun s => set_Likes s (delete_doc l_id (l_id l) (Likes s))).

Definition Comment_deleteOne (c : Comment) : Store -> Outcome unit * Store :=
  writing (fun s => set_Comments s (delete_doc c_id (c_id c) (Comments s))).

Definition Post_deleteOne (p : Post) : Store -> Outcome unit * Store :=
  writing (fun s => set_Posts s (delete_doc p_id (p_id p) (Posts s))).

(** [Like.deleteMany({ post })], [Comment.deleteMany({ post })] *)
Definition Like_deleteMany (post : ObjectId) : Store -> Outcome unit * Store :=
  writing (fun s =>
             set_Likes s (filter (fun l => negb (l_post l =? post)) (Likes s))).

Definition Comment_deleteMany (post : ObjectId)
  : Store -> Outcome unit * Store :=
  writing (fun s =>
             set_Comments s
               (filter (fun c => negb (c_post c =? post)) (Comments s))).

(** [Post.updateOne({ _id: post }, { $pull: { comments: comment } })] *)
Definition Post_pull_comment (post comment : ObjectId)
  : Store -> Outcome unit * Store :=
  writing (fun s =>
             set_Posts s
               (update_doc p_id post
                  (fun p =>
                     mkPost (p_id p) (p_title p) (p_content p) (p_author p)
                       (p_tags p) (p_categories p)
                       (filter (fun i => negb (i =? comment)) (p_comments p))
                       (p_likes p))
                  (Posts s))).

(** ** likeController.js *)

Definition push_like (p : Post) (like : ObjectId) : Post :=
  mkPost (p_id p) (p_title p) (p_content p) (p_author p) (p_tags p)
    (p_categories p) (p_comments p) (p_likes p ++ [like]).

Definition set_likes (p : Post) (l : list ObjectId) : Post :=
  mkPost (p_id p) (p_title p) (p_content p) (p_author p) (p_tags p)
    (p_categories p) (p_comments p) l.

Definition new_Like (user post : ObjectId) : M Like :=
  i <- new_oid ;; ret (mkLike i user post).

Definition addLike : Handler := fun req =>
  let postId := params_id req in
  let userId := user_id req in
  try_catch
    (post <- await (Post_findById postId) ;;
     match post with
     | None => res_json 404 (message "Post not found.")
     | Some post =>
         existingLike <- await (Like_findOne userId postId) ;;
         (* the branch sends 400 and falls through: it has no [return] *)
         match existingLike with
         | Some _ => res_json 400 (message "You have already liked this post.")
         | None => ret tt
         end ;;
         like <- new_Like userId postId ;;
         let post := push_like post (l_id like) in
         await (Post_save post) ;;
         await (Like_insert like) ;;
         res_json 201 (message "Post Liked Successfully")
     end)
    (fun err =>
       res_json 500 (message_error "Failed to add like to post." err)).

Definition removeLike : Handler := fun req =>
  let postId := params_id req in
  let userId := user_id req in
  try_catch
    (like <- await (Like_findOne userId postId) ;;
     match like with
     | None => res_json 404 (message "Like Not Found")
     | Some like =>
         if negb (l_user like =? userId)
         then res_json 403
                (message "You are not authorized to remove this like.")
         else
           await (Like_deleteOne like) ;;
           post <- await (Post_findById postId) ;;
           match post with
           | None => throw TypeError      (* post.likes of null *)
           | Some post =>
               let post :=
                 set_likes post
                   (filter (fun likeId => negb (likeId =? l_id like))
                           (p_likes post)) in
               await (Post_save post) ;;
               res_json 200 (message "Like removed successfully.")
           end
     end)
    (fun err =>
       res_json 500 (message_error "Failed to remove like from post" err)).

(** ** commentsController.js *)

(** [populate("content author post")]: the references [author] and [post] are
    replaced by the documents they name, [null] when there is none. *)
Definition populated_comment_json (s : Store) (c : Comment) : json :=
  JObj ([("_id", JStr (c_id c))]
          ++ opt_field "content" (c_content c)
          ++ [("author", opt_json user_json (findById u_id (c_author c) (Users s)));
              ("post", opt_json post_json (findById p_id (c_post c) (Posts s)))]).

(** [Comment.find({ post }).populate(...)], one awaited query. *)
Definition Comment_find_populated (post : ObjectId)
  : Store -> Outcome (list json) * Store :=
  reading (fun s =>
             map (populated_comment_json s)
                 (filter (fun c => c_post c =? post) (Comments s))).

Definition getAllComments : Handler := fun req =>
  let postId := params_id req in
  try_catch
    (allComments <- await (Comment_find_populated postId) ;;
     res_json 200 (JObj [("allComments", JArr allComments)]))
    (fun error =>
       res_json 500 (message_error "Failed to fetch comments" error)).

Definition push_comment (p : Post) (c : ObjectId) : Post :=
  mkPost (p_id p) (p_title p) (p_content p) (p_author p) (p_tags p)
    (p_categories p) (p_comments p ++ [c]) (p_likes p).

Definition new_Comment (content : option string) (author post : ObjectId)
  : M Comment :=
  i <- new_oid ;; ret (mkComment i content author post).

Definition createComment : Handler := fun req =>
  let content := body_content req in
  try_catch
    (chosenPost <- await (Post_findById (params_id req)) ;;
     match chosenPost with
     | None => res_json 404 (message "Post not found")
     | Some chosenPost =>
         comment <- new_Comment content (user_id req) (params_id req) ;;
         await (Comment_insert comment) ;;
         let chosenPost := push_comment chosenPost (c_id comment) in
         await (Post_save chosenPost) ;;
         res_json 201
           (JObj [("message", JStr "Comment created successfully");
                  ("comment", comment_json comment)])
     end)
    (fun error =>
       res_json 500 (message_error "Failed to fetch comment" error)).

Definition set_content (c : Comment) (v : option string) : Comment :=
  mkComment (c_id c) v (c_author c) (c_post c).

Definition editCommentById : Handler := fun req =>
  try_catch
    (comment <- await (Comment_findById (params_id req)) ;;
     match comment with
     | None => res_json 404 (message "Comment not found")
     | Some comment =>
         if negb (user_id req =? c_author comment)
         then res_json 403
                (message "You are not the Author. You may not edit this comment")
         else
           (* req.body.content || comment.content *)
           let comment :=
             set_content comment
               (if truthy (body_content req) then body_content req
                else c_content comment) in
           await (Comment_save comment) ;;
           res_json 200
             (JObj [("message", JStr "Comment updated successfully");
                    ("comment", comment_json comment)])
     end)
    (fun error =>
       res_json 500 (message_error "Failed to fetch comment" error)).

Definition deleteCommentById : Handler := fun req =>
  try_catch
    (comment <- await (Comment_findById (params_id req)) ;;
     match comment with
     | None => res_json 404 (message "Comment not found")
     | Some comment =>
         if negb (user_id req =? c_author comment)
         then res_json 403
                (message "You are not the Author. You may not edit this comment")
         else
           await (Post_pull_comment (c_post comment) (c_id comment)) ;;
           await (Comment_deleteOne comment) ;;
           res_json 200
             (JObj [("message", JStr "Comment deleted successfully");
                    ("comment", comment_json comment)])
     end)
    (fun error =>
       res_json 500 (message_error "Failed to fetch comment" error)).

(** ** postController.js

    The calls of [logger] write to the log only and are left out. *)

Definition new_Tag (name : string) : M Tag :=
  i <- new_oid ;; ret (mkTag i name).

Definition new_Category (name : string) : M Category :=
  i <- new_oid ;; ret (mkCategory i name).

(** Helper function to create or retrieve tags. *)
Fixpoint createOrGetTags (tags : list string) : M (list ObjectId) :=
  match tags with
  | [] => ret []
  | tagName :: rest =>
      found <- await (Tag_findOne tagName) ;;
      tag <- match found with
             | Some tag => ret tag
             | None =>
                 tag <- new_Tag tagName ;;
                 await (Tag_insert tag) ;;
                 ret tag
             end ;;
      tagIds <- createOrGetTags rest ;;
      ret (t_id tag :: tagIds)
  end.

(** Helper function to create or retrieve categories. *)
Fixpoint createOrGetCategories (categories : list string)
  : M (list ObjectId) :=
  match categories with
  | [] => ret []
  | categoryName :: rest =>
      found <- await (Category_findOne categoryName) ;;
      category <- match found with
                  | Some category => ret category
                  | None =>
                      category <- new_Category categoryName ;;
                      await (Category_insert category) ;;
                      ret category
                  end ;;
      categoryIds <- createOrGetCategories rest ;;
      ret (g_id category :: categoryIds)
  end.

(** The object [editedPost] of [updatePost]. *)
Record PostUpdate := mkPostUpdate
  { e_title : option string;
    e_content : option string;
    e_tags : list ObjectId;
    e_categories : list ObjectId }.

(** A key whose value is [undefined] is not written. *)
Definition or_stored (v stored : option string) : option string :=
  match v with
  | Some s => Some s
  | None => stored
  end.

Definition apply_update (e : PostUpdate) (p : Post) : Post :=
  mkPost (p_id p) (or_stored (e_title e) (p_title p))
    (or_stored (e_content e) (p_content p)) (p_author p)
    (e_tags e) (e_categories e) (p_comments p) (p_likes p).

(** [Post.findByIdAndUpdate(id, editedPost, { new: true })] *)
Definition Post_findByIdAndUpdate (i : ObjectId) (e : PostUpdate)
  : Store -> Outcome (option Post) * Store :=
  fun s =>
    let l := update_doc p_id i (apply_update e) (Posts s) in
    (Ret (findById p_id i l), set_Posts s l).

Definition updatePost : Handler := fun req =>
  let title := body_title req in
  let content := body_content req in
  let id := params_id req in
  (* the lookup and the two early answers come before the [try] *)
  chosenPost <- await (Post_findById id) ;;
  match chosenPost with
  | None => res_json 404 (message "Post not found")
  | Some chosenPost =>
      if negb (user_id req =? p_author chosenPost)
      then res_json 403 (message "You are not the author of this post.")
      else
        try_catch
          (let title' := if truthy title then title else p_title chosenPost in
           let content' :=
             if truthy content then content else p_content chosenPost in
           tags' <- match body_tags req with
                    | Some tags => createOrGetTags tags
                    | None => ret (p_tags chosenPost)
                    end ;;
           categories' <- match body_categories req with
                          | Some categories => createOrGetCategories categories
                          | None => ret (p_categories chosenPost)
                          end ;;
           let editedPost := mkPostUpdate title' content' tags' categories' in
           updatedPost <- await (Post_findByIdAndUpdate id editedPost) ;;
           match updatedPost with
           | None => throw TypeError      (* updatedPost._id of null *)
           | Some updatedPost =>
               res_json 200
                 (JObj [("message", JStr "Post updated successfully");
                        ("updatedPost", post_json updatedPost)])
           end)
          (fun error =>
             res_json 500 (message_error "Failed to create post" error))
  end.

Definition referenced (refs : Post -> list ObjectId) (i : ObjectId)
  (posts : list Post) : bool :=
  existsb (fun p => existsb (String.eqb i) (refs p)) posts.

(** Modelled from the spec: [cleanUpTags] of [utils/cleanup], which is not
    among the sources.  It prunes the tags that are no longer referenced by
    any post, in one awaited call. *)
Definition cleanUpTags : M unit :=
  await (writing (fun s =>
                    set_Tags s
                      (filter (fun t => referenced p_tags (t_id t) (Posts s))
                              (Tags s)))).

(** Modelled from the spec: [cleanUpCategories] of [utils/cleanup], which is
    not among the sources.  It prunes the categories that are no longer
    referenced by any post, in one awaited call. *)
Definition cleanUpCategories : M unit :=
  await (writing (fun s =>
                    set_Categories s
                      (filter
                         (fun g => referenced p_categories (g_id g) (Posts s))
                         (Categories s)))).

Definition deletePost : Handler := fun req =>
  let id := params_id req in
  (* the lookup and the two early answers come before the [try] *)
  post <- await (Post_findById id) ;;
  match post with
  | None => res_json 404 (message "Post not found")
  | Some post =>
      if negb (user_id req =? p_author post)
      then res_json 403 (message "You are not the author of this post.")
      else
        try_catch
          (await (Like_deleteMany (p_id post)) ;;
           await (Comment_deleteMany (p_id post)) ;;
           await (Post_deleteOne post) ;;
           cleanUpTags ;;
           cleanUpCategories ;;
           res_json 200
             (message ("Post with id:" ++ id ++ " deleted successfully")))
          (fun error =>
             res_json 500 (message_error "Failed to delete post" error))
  end.

(** ** A small blog to run the handlers on *)

Definition alice : ObjectId := "u-alice".
Definition bob : ObjectId := "u-bob".

Definition post1 : Post :=
  mkPost "p1" (Some "Hello") (Some "First post") alice ["t1"] ["g1"]
    ["c1"] ["k1"].

Definition post2 : Post :=
  mkPost "p2" (Some "Again") (Some "Second post") bob ["t2"] ["g1"] [] [].

Definition comment1 : Comment := mkComment "c1" (Some "Nice") bob "p1".

Definition like1 : Like := mkLike "k1" bob "p1".

Definition blog : Store :=
  mkStore [post1; post2]
    [comment1]
    [like1]
    [mkTag "t1" "rocq"; mkTag "t2" "js"]
    [mkCategory "g1" "news"]
    [mkUser alice "Alice" "alice@example.org";
     mkUser bob "Bob" "bob@example.org"].

Definition gen (n : nat) : ObjectId :=
  "oid" ++ String (Ascii.ascii_of_nat (48 + n)) "".

(** No database call fails. *)
Definition calm : nat -> bool := fun _ => false.

(** Only the [k]-th database call fails. *)
Definition failing_at (k : nat) : nat -> bool := fun n => Nat.eqb n k.

Definition world0 (p : nat -> bool) : World := mkWorld blog p 0 gen 0.

Definition request (id user : string) : Request :=
  mkRequest id user None None None None.


(** ** CommentSection.jsx

    On the browser side a thrown [Error] is its message. *)

Definition Js (A : Type) : Type := (string + A)%type.

Definition js_bind {A B : Type} (m : Js A) (k : A -> Js B) : Js B :=
  match m with
  | inl e => inl e
  | inr a => k a
  end.

Notation "x <~ m ;; k" := (js_bind m (fun x => k))
  (at level 100, m at next level, right associativity) : handler_scope.

Fixpoint js_map {A B : Type} (f : A -> Js B) (l : list A) : Js (list B) :=
  match l with
  | [] => inr []
  | a :: rest => b <~ f a ;; bs <~ js_map f rest ;; inr (b :: bs)
  end.

(** [v.k] for one of the keys read here ([comments], [createdAt], [_id],
    [content]): [undefined] on anything but an object that has the key, a
    TypeError on [null]. *)
Definition js_get (v : json) (k : string) : Js (option json) :=
  match v with
  | JNull => inl ("Cannot read properties of null (reading '" ++ k ++ "')")
  | JObj fields => inr (assoc k fields)
  | _ => inr None
  end.

(** [Array.isArray(v)], and the elements of [v] when it holds. *)
Definition isArray (v : option json) : bool :=
  match v with
  | Some (JArr _) => true
  | _ => false
  end.

Definition elements (v : option json) : list json :=
  match v with
  | Some (JArr items) => items
  | _ => []
  end.

(** *** Arrays are objects: the heap of the arrays the component holds *)

Definition Arrays : Type := list (list json).

Definition read (h : Arrays) (a : nat) : list json := nth a h [].

Fixpoint write (h : Arrays) (a : nat) (l : list json) : Arrays :=
  match h, a with
  | [], _ => []
  | _ :: rest, O => l :: rest
  | x :: rest, S a' => x :: write rest a' l
  end.

(** A new array; its address is the next free one. *)
Definition alloc (h : Arrays) (l : list json) : Arrays * nat :=
  ((h ++ [l])%list, length h).

(** *** State of the component *)

Record Widget := mkWidget
  { arrays : Arrays;
    comments : nat;               (* the array held by the [comments] state *)
    newComment : string;
    editComment : option json;
    hideComment : bool;
    sortOption : string;
    loading : bool;
    alerts : list string }.       (* what [alert] has shown, latest last *)

(** [useState([])], [useState("")], [useState(null)], [useState(false)],
    [useState("newest")], [useState(false)]. *)
Definition mounted : Widget :=
  mkWidget [[]] 0 "" None false "newest" false [].

Definition setLoading (b : bool) (wd : Widget) : Widget :=
  mkWidget (arrays wd) (comments wd) (newComment wd) (editComment wd)
    (hideComment wd) (sortOption wd) b (alerts wd).

Definition alert (m : string) (wd : Widget) : Widget :=
  mkWidget (arrays wd) (comments wd) (newComment wd) (editComment wd)
    (hideComment wd) (sortOption wd) (loading wd) (alerts wd ++ [m]).

(** [setComments(array)] with an array that was just made. *)
Definition setComments (l : list json) (wd : Widget) : Widget :=
  let '(h, a) := alloc (arrays wd) l in
  mkWidget h a (newComment wd) (editComment wd) (hideComment wd)
    (sortOption wd) (loading wd) (alerts wd).

Definition setSortOption (o : string) (wd : Widget) : Widget :=
  mkWidget (arrays wd) (comments wd) (newComment wd) (editComment wd)
    (hideComment wd) o (loading wd) (alerts wd).

Definition set_arrays (h : Arrays) (wd : Widget) : Widget :=
  mkWidget h (comments wd) (newComment wd) (editComment wd) (hideComment wd)
    (sortOption wd) (loading wd) (alerts wd).

(** The comments the component holds. *)
Definition held (wd : Widget) : list json := read (arrays wd) (comments wd).

(** *** fetchComments *)

(** [JSON.parse(localStorage.getItem("auth_user") || "{}")] *)
Record AuthUser := mkAuthUser
  { token : option string; auth_id : option string }.

(** [response.ok] *)
Definition ok (r : Response) : bool :=
  (200 <=? status r)%nat && (status r <=? 299)%nat.

(** [fetch(`${VITE_API_URL}/api/comments/${postId}`, { method: "GET", ... })].
    The router and the authentication middleware are not among the sources:
    the route is taken to lead to [getAllComments], with the logged-in user
    in [req.user].  [None]: nothing was answered. *)
Definition GET_comments (postId : string) (auth : AuthUser) (server : World)
  : option Response * World :=
  let user := match auth_id auth with Some i => i | None => "" end in
  let r := serve getAllComments (request postId user) server in
  (response r, world (snd r)).

(** The array picked out of the parsed answer. *)
Definition commentsArray (data : json) : Js (list json) :=
  if isArray (Some data) then inr (elements (Some data))
  else
    c <~ js_get data "comments" ;;
    if isArray c then inr (elements c) else inr [].

Definition fetchComments (postId : string) (auth : AuthUser)
  (server : World) (wd : Widget) : Widget * World :=
  let wd := setLoading true wd in
  if negb (truthy (token auth))
  then
    (setLoading false
       (alert "Authentication token not found. Please log in." wd),
     server)
  else
    let '(answer, server') := GET_comments postId auth server in
    let tried : Js (list json) :=
      match answer with
      | None => inl "Failed to fetch"
      | Some r =>
          if negb (ok r)
          then inl "Failed to get comments. Please try again."
          else commentsArray (body r)
      end in
    let wd := match tried with
              | inr l => setComments l wd
              | inl m => alert m wd         (* catch (error) *)
              end in
    (setLoading false wd, server').         (* finally *)

(** *** renderComments *)

(** One comment on the page.  [timestamp] is the value of [createdAt] that
    the row hands to [moment(...).format(...)], not the text in the span:
    [None] is [undefined], for which [moment] takes the time of rendering
    (see [moment] and [shown_time] below). *)
Record Shown := mkShown
  { key : option json; text : option json; timestamp : option json }.

Definition show (comment : json) : Js Shown :=
  k <~ js_get comment "_id" ;;
  c <~ js_get comment "content" ;;
  t <~ js_get comment "createdAt" ;;
  inr (mkShown k c t).

(** The element shown for a comment object. *)
Definition shown_of (c : json) : Shown :=
  match c with
  | JObj fields =>
      mkShown (assoc "_id" fields) (assoc "content" fields)
        (assoc "createdAt" fields)
  | _ => mkShown None None None
  end.

Section Render.
(** The time value of [new Date(v)], in milliseconds; [None] for an
    Invalid Date, whose time value is NaN.  [Date] belongs to the language,
    the development is parametric in it. *)
Variable Date_time : option json -> option Z.

(** [x - y] on two dates; NaN when one of them is invalid. *)
Definition minus (x y : option Z) : option Z :=
  match x, y with
  | Some a, Some b => Some (a - b)%Z
  | _, _ => None
  end.

(** The comparator given to [sort]. *)
Definition compareFn (order : string) (a b : json) : Js (option Z) :=
  if order =? "newest" then
    vb <~ js_get b "createdAt" ;;
    va <~ js_get a "createdAt" ;;
    inr (minus (Date_time vb) (Date_time va))
  else if order =? "oldest" then
    va <~ js_get a "createdAt" ;;
    vb <~ js_get b "createdAt" ;;
    inr (minus (Date_time va) (Date_time vb))
  else inr (Some 0%Z).

(** [Array.prototype.sort]: a comparator result that is NaN counts as 0,
    and the sort is stable.  Modelled as an insertion sort: it gives the one
    stable arrangement when the comparator is consistent; when it is not, the
    language leaves the arrangement to the engine, and the one here is that
    of an engine which finds every neighbour in order and moves nothing. *)
Definition after (v : option Z) : bool :=
  match v with
  | Some z => (0 <? z)%Z
  | None => false
  end.

Fixpoint insert (cmp : json -> json -> Js (option Z)) (x : json)
  (l : list json) : Js (list json) :=
  match l with
  | [] => inr [x]
  | y :: rest =>
      v <~ cmp x y ;;
      if after v
      then l' <~ insert cmp x rest ;; inr (y :: l')
      else inr (x :: y :: rest)
  end.

Fixpoint sorted_with (cmp : json -> json -> Js (option Z)) (l : list json)
  : Js (list json) :=
  match l with
  | [] => inr []
  | x :: rest => l' <~ sorted_with cmp rest ;; insert cmp x l'
  end.

(** [array.sort(cmp)] sorts the array in place. *)
Definition Array_sort (cmp : json -> json -> Js (option Z)) (a : nat)
  (h : Arrays) : Js Arrays :=
  l <~ sorted_with cmp (read h a) ;; inr (write h a l).

Definition renderComments (wd : Widget) : Js (Widget * list Shown) :=
  (* [...comments] *)
  let '(h, sortedComments) := alloc (arrays wd) (held wd) in
  h' <~ Array_sort (compareFn (sortOption wd)) sortedComments h ;;
  shown <~ js_map show (read h' sortedComments) ;;
  inr (set_arrays h' wd, shown).

(** What the page would show if [comments] itself were sorted. *)
Definition renderComments_in_place (wd : Widget)
  : Js (Widget * list Shown) :=
  h' <~ Array_sort (compareFn (sortOption wd)) (comments wd) (arrays wd) ;;
  shown <~ js_map show (read h' (comments wd)) ;;
  inr (set_arrays h' wd, shown).

(** The creation time of a comment, when it has one. *)
Definition created (c : json) : option Z :=
  match js_get c "createdAt" with
  | inr v => Date_time v
  | inl _ => None
  end.

(** A comment object whose [createdAt] is a valid date. *)
Definition dated (c : json) : Prop :=
  exists fields t,
    c = JObj fields /\ Date_time (assoc "createdAt" fields) = Some t.

Definition newest_first (a b : json) : Prop :=
  exists ta tb, created a = Some ta /\ created b = Some tb /\ (tb <= ta)%Z.

Definition oldest_first (a b : json) : Prop :=
  exists ta tb, created a = Some ta /\ created b = Some tb /\ (ta <= tb)%Z.

Definition time_of (c : json) : Z :=
  match created c with
  | Some t => t
  | None => 0%Z
  end.

(** The comparator is a difference of ranks on dated comments. *)
Definition rank (order : string) (c : json) : Z :=
  if order =? "newest" then (- time_of c)%Z
  else if order =? "oldest" then time_of c
  else 0%Z.

(** The weakest reading of "newest first" for what is on the page: no
    element with a valid date is shown above one with a later valid
    date. *)
Definition shows_newest_first (page : list Shown) : Prop :=
  forall i j e e' t t',
    i < j ->
    nth_error page i = Some e -> nth_error page j = Some e' ->
    Date_time (timestamp e) = Some t -> Date_time (timestamp e') = Some t' ->
    (t' <= t)%Z.
End Render.

Definition ranked (rank : json -> Z) (a b : json) : Prop :=
  (rank a <= rank b)%Z.

(** [new Date(v)] on a number of milliseconds within the range of dates;
    [new Date(undefined)] is invalid.  The examples use no other value. *)
Definition Date_of_millis (v : option json) : option Z :=
  match v with
  | Some (JNum n) =>
      if (Z.abs n <=? 8640000000000000)%Z then Some n else None
  | _ => None
  end.

Definition comment_at (i : string) (t : Z) : json :=
  JObj [("_id", JStr i); ("content", JStr "text"); ("createdAt", JNum t)].

Definition logged_in : AuthUser := mkAuthUser (Some "jwt") (Some alice).

(** Three dated comments, and a state in which the second has no
    [createdAt]. *)
Definition three_dated : Widget :=
  setComments [comment_at "a" 1; comment_at "c" 3; comment_at "b" 2] mounted.

Definition undated : json := JObj [("_id", JStr "x"); ("content", JStr "text")].

Definition one_undated : Widget :=
  setComments [comment_at "a" 1; undated; comment_at "b" 2] mounted.

(** ** Vocabulary of the properties *)

(** No database call of the run fails. *)
Definition calm_plan (w : World) : Prop := forall k, plan w k = false.

(** What the find-or-create helpers leave alone. *)
Definition same_but_names (st st' : St) : Prop :=
  plan (world st') = plan (world st)
  /\ sent st' = sent st
  /\ Posts (db (world st')) = Posts (db (world st))
  /\ Comments (db (world st')) = Comments (db (world st))
  /\ Likes (db (world st')) = Likes (db (world st)).

(** The answers. *)
Definition forbidden (m : string) : option Response :=
  Some (mkResponse 403 (message m)).

Definition failed (m : string) (e : Err) : option Response :=
  Some (mkResponse 500 (message_error m e)).

Definition updated_ok (p' : Post) : option Response :=
  Some (mkResponse 200
          (JObj [("message", JStr "Post updated successfully");
                 ("updatedPost", post_json p')])).

Definition comment_updated_ok (c : Comment) : option Response :=
  Some (mkResponse 200
          (JObj [("message", JStr "Comment updated successfully");
                 ("comment", comment_json c)])).

Definition deleted_ok (id : string) : option Response :=
  Some (mkResponse 200
          (message ("Post with id:" ++ id ++ " deleted successfully"))).

(** A field of [req.body] that is the empty string or is not there. *)
Definition empty_or_missing (v : option string) : Prop :=
  v = None \/ v = Some "".

(** The store [deletePost] leaves behind when nothing fails. *)
Definition without_post (id : ObjectId) (s : Store) : Store :=
  let posts := delete_doc p_id id (Posts s) in
  mkStore posts
    (filter (fun c => negb (c_post c =? id)) (Comments s))
    (filter (fun l => negb (l_post l =? id)) (Likes s))
    (filter (fun t => referenced p_tags (t_id t) posts) (Tags s))
    (filter (fun g => referenced p_categories (g_id g) posts) (Categories s))
    (Users s).

(** A handler that always answers and never lets an error out. *)
Definition always_answers (h : Handler) : Prop :=
  forall req w,
    settled (serve h req w) = Ret tt /\ response (serve h req w) <> None.

(** Requests of the examples. *)
Definition edit_with_empty_content : Request :=
  mkRequest "c1" bob None (Some "") None None.

Definition update_with_empty_title : Request :=
  mkRequest "p1" alice (Some "") None (Some ["rocq"; "proofs"]) None.


(** ** The other handlers of the controllers *)

Definition Post_insert (p : Post) : Store -> Outcome unit * Store :=
  writing (fun s => set_Posts s (Posts s ++ [p])).

(** [for (const name of names)]: a value that is not there cannot be
    iterated. *)
Definition iterating {A : Type} (names : option (list string))
  (f : list string -> M A) : M A :=
  match names with
  | Some l => f l
  | None => throw TypeError
  end.

(** [new Post({ title, content, tags, categories, author })]; the arrays
    [comments] and [likes] start empty. *)
Definition new_Post (title content : option string)
  (tags categories : list ObjectId) (author : ObjectId) : M Post :=
  i <- new_oid ;; ret (mkPost i title content author tags categories [] []).

Definition createPost : Handler := fun req =>
  let title := body_title req in
  let content := body_content req in
  try_catch
    (tagIds <- iterating (body_tags req) createOrGetTags ;;
     categoryIds <- iterating (body_categories req) createOrGetCategories ;;
     post <- new_Post title content tagIds categoryIds (user_id req) ;;
     await (Post_insert post) ;;
     res_json 201
       (JObj [("message", JStr "Post created successfully");
              ("post", post_json post)]))
    (fun error =>
       res_json 500 (message_error "Failed to create post" error)).

Definition tag_json (t : Tag) : json :=
  JObj [("_id", JStr (t_id t)); ("name", JStr (t_name t))].

Definition category_json (g : Category) : json :=
  JObj [("_id", JStr (g_id g)); ("name", JStr (g_name g))].

(** [populate] of an array of references: the documents that exist, in the
    order of the references. *)
Definition populate_many {A : Type} (key : A -> ObjectId) (to_json : A -> json)
  (ids : list ObjectId) (l : list A) : json :=
  JArr (flat_map (fun i => match findById key i l with
                           | Some d => [to_json d]
                           | None => []
                           end) ids).

(** A post after [populate("author tags categories comments")]. *)
Definition populated_post_fields (s : Store) (p : Post)
  : list (string * json) :=
  [("_id", JStr (p_id p))]
    ++ opt_field "title" (p_title p)
    ++ opt_field "content" (p_content p)
    ++ [("author", opt_json user_json (findById u_id (p_author p) (Users s)));
        ("tags", populate_many t_id tag_json (p_tags p) (Tags s));
        ("categories",
         populate_many g_id category_json (p_categories p) (Categories s));
        ("comments",
         populate_many c_id comment_json (p_comments p) (Comments s));
        ("likes", ids_json (p_likes p))].

(** The query string of [getPosts].  A value is the number its text
    denotes; texts that denote no natural number are not modelled. *)
Record Query := mkQuery
  { query_page : option N; query_results_per_page : option N }.

(** [limit(n)]: [limit(0)] sets no limit. *)
Definition limit {A : Type} (n : N) (l : list A) : list A :=
  if (n =? 0)%N then l else firstn (N.to_nat n) l.

(** [Post.find().skip(k).limit(n).populate(...)], one awaited query; the
    database refuses a negative [skip]. *)
Definition Post_find_page (k : Z) (n : N)
  : Store -> Outcome (list json) * Store :=
  fun s =>
    if (k <? 0)%Z then (Throw DbError, s)
    else
      (Ret (map (fun p => JObj (populated_post_fields s p))
              (limit n (skipn (Z.to_nat k) (Posts s)))),
       s).

Definition Post_countDocuments : Store -> Outcome N * Store :=
  reading (fun s => N.of_nat (length (Posts s))).

(** [Math.ceil(totalPosts / results_per_page)] as [res.json] writes it: a
    division by zero gives Infinity or NaN, which JSON has as [null]. *)
Definition totalPages (totalPosts results_per_page : N) : json :=
  if (results_per_page =? 0)%N then JNull
  else JNum (Z.of_N ((totalPosts + results_per_page - 1) / results_per_page)).

Definition getPosts (q : Query) : M unit :=
  let page := match query_page q with Some p => p | None => 1%N end in
  let results_per_page :=
    match query_results_per_page q with Some n => n | None => 5%N end in
  try_catch
    (posts <- await (Post_find_page
                       ((Z.of_N page - 1) * Z.of_N results_per_page)
                       results_per_page) ;;
     totalPosts <- await Post_countDocuments ;;
     res_json 200
       (JObj [("posts", JArr posts);
              ("totalPages", totalPages totalPosts results_per_page);
              ("currentPage", JNum (Z.of_N page))]))
    (fun error =>
       res_json 500 (message_error "Failed to fetch posts" error)).

(** [Like.countDocuments({ post })] *)
Definition Like_countDocuments (post : ObjectId) : Store -> Outcome N * Store :=
  reading (fun s =>
             N.of_nat (length (filter (fun l => l_post l =? post) (Likes s)))).

(** [Post.findById(id).populate(...)], one awaited query: the post and its
    populated fields. *)
Definition Post_findById_populated (i : ObjectId)
  : Store -> Outcome (option (Post * list (string * json))) * Store :=
  reading (fun s =>
             option_map (fun p => (p, populated_post_fields s p))
               (findById p_id i (Posts s))).

Definition getPostById : Handler := fun req =>
  try_catch
    (found <- await (Post_findById_populated (params_id req)) ;;
     match found with
     | None => res_json 404 (message "Post not found")
     | Some (post, fields) =>
         likeCount <- await (Like_countDocuments (p_id post)) ;;
         (* { ...post.toObject(), likeCount } *)
         res_json 200 (JObj (fields ++ [("likeCount", JNum (Z.of_N likeCount))]))
     end)
    (fun error =>
       res_json 500 (message_error "Failed to fetch post" error)).

(** [Comment.findById(id).populate("content author post")] *)
Definition Comment_findById_populated (i : ObjectId)
  : Store -> Outcome (option json) * Store :=
  reading (fun s =>
             option_map (populated_comment_json s)
               (findById c_id i (Comments s))).

Definition getCommentById : Handler := fun req =>
  let commentId := params_id req in
  try_catch
    (chosenComment <- await (Comment_findById_populated commentId) ;;
     match chosenComment with
     | None => res_json 404 (message "Comment not found")
     | Some chosenComment =>
         res_json 200 (JObj [("chosenComment", chosenComment)])
     end)
    (fun error =>
       res_json 500 (message_error "Failed to fetch comment" error)).

(** A like after [populate("user", "name email")]. *)
Definition populated_like_json (s : Store) (l : Like) : json :=
  JObj [("_id", JStr (l_id l));
        ("user", opt_json user_json (findById u_id (l_user l) (Users s)));
        ("post", JStr (l_post l))].

Definition Like_find_populated (post : ObjectId)
  : Store -> Outcome (list json) * Store :=
  reading (fun s =>
             map (populated_like_json s)
                 (filter (fun l => l_post l =? post) (Likes s))).

Definition getLikesByPost : Handler := fun req =>
  try_catch
    (likes <- await (Like_find_populated (params_id req)) ;;
     res_json 200 (JArr likes))
    (fun error => res_json 500 (message "Failed to fetch likes.")).

(** ** The form of the comment widget *)

(** The white space that [trim] removes, among the characters below 256. *)
Definition white_space (c : Ascii.ascii) : bool :=
  let n := Ascii.nat_of_ascii c in
  ((9 <=? n) && (n <=? 13))%nat || (n =? 32)%nat || (n =? 160)%nat.

(** [!s.trim()] *)
Fixpoint blank (s : string) : bool :=
  match s with
  | EmptyString => true
  | String c rest => white_space c && blank rest
  end.

Definition setNewComment (v : string) (wd : Widget) : Widget :=
  mkWidget (arrays wd) (comments wd) v (editComment wd) (hideComment wd)
    (sortOption wd) (loading wd) (alerts wd).

Definition setHideComment (b : bool) (wd : Widget) : Widget :=
  mkWidget (arrays wd) (comments wd) (newComment wd) (editComment wd) b
    (sortOption wd) (loading wd) (alerts wd).

Definition toggleShowComments (wd : Widget) : Widget :=
  setHideComment (negb (hideComment wd)) wd.

(** [fetch(`${VITE_API_URL}/api/comments/${postId}`, { method: "POST",
    body: JSON.stringify({ content }) })], taken to lead to [createComment]
    with the logged-in user in [req.user]. *)
Definition POST_comment (postId : string) (auth : AuthUser) (content : string)
  (server : World) : option Response * World :=
  let user := match auth_id auth with Some i => i | None => "" end in
  let r := serve createComment
             (mkRequest postId user None (Some content) None None) server in
  (response r, world (snd r)).

(** The steps of the handler itself; what the browser does with the
    submitted form is not part of it. *)
Definition handleAddComment (postId : string) (auth : AuthUser)
  (server : World) (wd : Widget) : Widget * World :=
  let wd := setLoading true wd in
  let finally (wd : Widget) := setLoading false (setNewComment "" wd) in
  if negb (truthy (token auth))
  then
    (finally (alert "Authentication token not found. Please log in." wd),
     server)
  else if blank (newComment wd)
  then (finally (alert "Comment cannot be empty." wd), server)
  else
    let '(answer, server') :=
      POST_comment postId auth (newComment wd) server in
    let tried : Js json :=
      match answer with
      | None => inl "Failed to fetch"
      | Some r =>
          if negb (ok r)
          then inl "Failed to add comment. Please try again."
          else inr (body r)
      end in
    let wd := match tried with
              | inr createdComment =>
                  (* setComments((prev) => [createdComment, ...prev]) *)
                  setComments (createdComment :: held wd) wd
              | inl m => alert m wd
              end in
    (finally wd, server').

(** ** Vocabulary of the further properties *)

(** The ids of the documents of a collection that name a parent. *)
Definition refs_of {A : Type} (key parent : A -> ObjectId) (i : ObjectId)
  (l : list A) : list ObjectId :=
  map key (filter (fun d => parent d =? i) l).

(** The arrays [likes] and [comments] of every post list the Like and
    Comment documents of the post, and [_id]s are unique. *)
Record consistent (s : Store) : Prop := mkConsistent
  { unique_posts : NoDup (map p_id (Posts s));
    unique_likes : NoDup (map l_id (Likes s));
    unique_comments : NoDup (map c_id (Comments s));
    likes_listed :
      forall p, In p (Posts s) ->
                p_likes p = refs_of l_id l_post (p_id p) (Likes s);
    comments_listed :
      forall p, In p (Posts s) ->
                p_comments p = refs_of c_id c_post (p_id p) (Comments s) }.

(** Every Like and every Comment document names a post that is stored. *)
Definition no_orphans (s : Store) : Prop :=
  (forall l, In l (Likes s) -> findById p_id (l_post l) (Posts s) <> None)
  /\ (forall c, In c (Comments s) ->
                findById p_id (c_post c) (Posts s) <> None).

(** The ObjectId the driver generates next is in use nowhere. *)
Definition next_oid_unused (w : World) : Prop :=
  let i := oidgen w (fresh w) in
  ~ In i (map l_id (Likes (db w)))
  /\ ~ In i (map c_id (Comments (db w)))
  /\ forall p, In p (Posts (db w)) ->
               ~ In i (p_likes p) /\ ~ In i (p_comments p).

(** The world a request leaves behind. *)
Definition world_after (r : Outcome unit * St) : World := world (snd r).

(** Running a handler that is not keyed by a [Request]. *)
Definition serving (m : M unit) (w : World) : Outcome unit * St :=
  m (mkSt w None).

Definition answered (code : nat) (r : Outcome unit * St) : Prop :=
  exists payload, response r = Some (mkResponse code payload).

(** The array under a key of an answer. *)
Definition array_under (k : string) (r : option Response) : list json :=
  match r with
  | Some (mkResponse _ (JObj fields)) => elements (assoc k fields)
  | _ => []
  end.

Definition under (k : string) (r : option Response) : option json :=
  match r with
  | Some (mkResponse _ (JObj fields)) => assoc k fields
  | _ => None
  end.

Definition names_of (tags : list Tag) : list string := map t_name tags.

(** Answers of the like handlers. *)
Definition liked : option Response :=
  Some (mkResponse 201 (message "Post Liked Successfully")).

Definition unliked : option Response :=
  Some (mkResponse 200 (message "Like removed successfully.")).

(** Answers of the comment handlers. *)
Definition comment_created (c : Comment) : option Response :=
  Some (mkResponse 201
          (JObj [("message", JStr "Comment created successfully");
                 ("comment", comment_json c)])).

Definition comment_deleted (c : Comment) : option Response :=
  Some (mkResponse 200
          (JObj [("message", JStr "Comment deleted successfully");
                 ("comment", comment_json c)])).

(** [$pull: { comments: id }] on a post. *)
Definition pull_comment (i : ObjectId) (p : Post) : Post :=
  mkPost (p_id p) (p_title p) (p_content p) (p_author p) (p_tags p)
    (p_categories p) (filter (fun j => negb (j =? i)) (p_comments p))
    (p_likes p).

(** The [_id] of a document in an answer. *)
Definition id_of (doc : json) : option json :=
  match doc with
  | JObj fields => assoc "_id" fields
  | _ => None
  end.

(** A name resolves to an id in a collection of tags or of categories: the
    lookup by name finds a document with that id. *)
Definition tag_resolves (tags : list Tag) (name : string) (i : ObjectId)
  : Prop :=
  exists t, find (fun t => t_name t =? name) tags = Some t /\ t_id t = i.

Definition category_resolves (categories : list Category) (name : string)
  (i : ObjectId) : Prop :=
  exists g, find (fun g => g_name g =? name) categories = Some g /\ g_id g = i.

(** What a find-or-create helper leaves alone, whatever fails. *)
Definition only_tags_grow (st st' : St) : Prop :=
  (exists created,
      Tags (db (world st')) = (Tags (db (world st)) ++ created)%list)
  /\ Posts (db (world st')) = Posts (db (world st))
  /\ Comments (db (world st')) = Comments (db (world st))
  /\ Likes (db (world st')) = Likes (db (world st))
  /\ Categories (db (world st')) = Categories (db (world st))
  /\ Users (db (world st')) = Users (db (world st))
  /\ plan (world st') = plan (world st)
  /\ oidgen (world st') = oidgen (world st)
  /\ sent st' = sent st.

Definition only_categories_grow (st st' : St) : Prop :=
  (exists created,
      Categories (db (world st'))
      = (Categories (db (world st)) ++ created)%list)
  /\ Posts (db (world st')) = Posts (db (world st))
  /\ Comments (db (world st')) = Comments (db (world st))
  /\ Likes (db (world st')) = Likes (db (world st))
  /\ Tags (db (world st')) = Tags (db (world st))
  /\ Users (db (world st')) = Users (db (world st))
  /\ plan (world st') = plan (world st)
  /\ oidgen (world st') = oidgen (world st)
  /\ sent st' = sent st.

(** A state of a request on the blog, for the examples. *)
Definition quiet : St := mkSt (world0 calm) None.

Definition category_names_of (categories : list Category) : list string :=
  map g_name categories.

(** Names for the examples: one stored, one new, the new one twice. *)
Definition some_names : list string := ["rocq"; "proofs"; "proofs"].

(** Answer of [createPost]. *)
Definition post_created (p : Post) : option Response :=
  Some (mkResponse 201
          (JObj [("message", JStr "Post created successfully");
                 ("post", post_json p)])).

(** A request to create a post with two tags and a category. *)
Definition new_post_request : Request :=
  mkRequest "" alice (Some "Title") (Some "Text") (Some ["rocq"; "proofs"])
    (Some ["news"]).

(** The query for page [k + 1] with [n] posts a page, and the posts of the
    answer. *)
Definition page_query (k n : nat) : Query :=
  mkQuery (Some (N.of_nat (S k))) (Some (N.of_nat n)).

Definition posts_of_page (w : World) (k n : nat) : list json :=
  array_under "posts" (response (serving (getPosts (page_query k n)) w)).

Definition populated_post (s : Store) (p : Post) : json :=
  JObj (populated_post_fields s p).

Definition edit_with_new_content : Request :=
  mkRequest "c1" bob None (Some "Better") None None.

(** A request of the author to retitle and retag post [p1]. *)
Definition retag_request : Request :=
  mkRequest "p1" alice (Some "Hello again") None (Some ["js"; "proofs"]) None.

(** A comment that is an object. *)
Definition is_object (c : json) : Prop := exists fields, c = JObj fields.

(** [moment(v)] of the library the widget formats dates with:
    [moment(undefined)] is the time at which the row is rendered, every other
    value is parsed (and gives an invalid moment when it is no date).  The
    parsing and [format] belong to the library and are not modelled. *)
Inductive Moment : Type :=
| Now
| Parsed (v : json).

Definition moment (v : option json) : Moment :=
  match v with
  | None => Now
  | Some v => Parsed v
  end.

(** The moment that the span of a row formats:
    [moment(comment.createdAt)]. *)
Definition shown_time (row : Shown) : Moment := moment (timestamp row).

(** The answer of [createComment] as the widget stores it. *)
Definition created_answer (c : Comment) : json :=
  JObj [("message", JStr "Comment created successfully");
        ("comment", comment_json c)].

(** A widget in which a comment was typed. *)
Definition typing (text : string) : Widget := setNewComment text mounted.

(** The state after two comments were added through the form. *)
Definition two_added : Widget :=
  setComments
    [created_answer (mkComment "c3" (Some "second") alice "p1");
     created_answer (mkComment "c2" (Some "first") alice "p1")]
    mounted.

Definition no_token : AuthUser := mkAuthUser None (Some alice).

(** * Properties of the controllers *)

(** ** Collections *)

Section CollectionFacts.
Variable Doc : Type.
Variable key : Doc -> ObjectId.

Lemma findById_key (i : ObjectId) (l : list Doc) (d : Doc) :
  findById key i l = Some d -> key d = i.
Proof.
  unfold findById. intro H. apply find_some in H.
  apply String.eqb_eq. exact (proj2 H).
Qed.

Lemma findById_In (i : ObjectId) (l : list Doc) (d : Doc) :
  findById key i l = Some d -> In d l.
Proof.
  unfold findById. intro H. apply find_some in H. exact (proj1 H).
Qed.

(** Saving a document as it was read changes nothing. *)
Lemma replace_doc_same (i : ObjectId) (l : list Doc) (d : Doc) :
  findById key i l = Some d -> replace_doc key d l = Some l.
Proof.
  intro H. pose proof (findById_key _ _ H) as Hk. revert H.
  unfold findById. induction l as [|e rest IH]; simpl.
  - discriminate.
  - rewrite Hk. destruct (key e =? i) eqn:E.
    + intro H. injection H as ->. reflexivity.
    + intro H. rewrite (IH H). reflexivity.
Qed.

(** Saving a changed document succeeds as long as its [_id] is stored. *)
Lemma replace_doc_found (i : ObjectId) (l : list Doc) (d d' : Doc) :
  findById key i l = Some d -> key d' = i ->
  exists l', replace_doc key d' l = Some l'
             /\ findById key i l' = Some d'
             /\ length l' = length l.
Proof.
  intros H Hk. revert H. unfold findById.
  induction l as [|e rest IH]; simpl.
  - discriminate.
  - rewrite Hk. destruct (key e =? i) eqn:E.
    + intros _. exists (d' :: rest). simpl.
      rewrite <- Hk at 1. rewrite String.eqb_refl. auto.
    + intro H. destruct (IH H) as (l' & -> & Hf & Hlen).
      exists (e :: l'). simpl. rewrite E, Hlen. auto.
Qed.

Lemma findById_update_doc (i : ObjectId) (f : Doc -> Doc) (l : list Doc)
  (d : Doc) :
  (forall e, key (f e) = key e) ->
  findById key i l = Some d ->
  findById key i (update_doc key i f l) = Some (f d).
Proof.
  intros Hf. unfold findById. induction l as [|e rest IH]; simpl.
  - discriminate.
  - destruct (key e =? i) eqn:E; simpl.
    + intro H. injection H as ->. rewrite Hf, E. reflexivity.
    + rewrite E. exact IH.
Qed.

(** [deleteOne] takes out the document [findById] returns, and no other. *)
Lemma delete_doc_found (i : ObjectId) (l : list Doc) (d : Doc) :
  findById key i l = Some d -> Permutation l (d :: delete_doc key i l).
Proof.
  unfold findById. induction l as [|e rest IH]; simpl.
  - discriminate.
  - destruct (key e =? i) eqn:E.
    + intro H. injection H as ->. apply Permutation_refl.
    + intro H. eapply perm_trans.
      * apply perm_skip, IH, H.
      * apply perm_swap.
Qed.

Lemma delete_doc_incl (i : ObjectId) (l : list Doc) (d : Doc) :
  In d (delete_doc key i l) -> In d l.
Proof.
  induction l as [|e rest IH]; simpl; auto.
  destruct (key e =? i); simpl; intuition.
Qed.

(** With unique [_id]s, only a document of that [_id] can go. *)
Lemma delete_doc_only (i : ObjectId) (l : list Doc) (d : Doc) :
  In d l -> ~ In d (delete_doc key i l) -> key d = i.
Proof.
  induction l as [|e rest IH]; simpl.
  - contradiction.
  - destruct (key e =? i) eqn:E; simpl.
    + intros [-> | Hin] Hout.
      * apply String.eqb_eq, E.
      * contradiction.
    + intros [-> | Hin] Hout.
      * exfalso. apply Hout. left. reflexivity.
      * apply IH; auto.
Qed.

Lemma NoDup_key_inj (l : list Doc) (a b : Doc) :
  NoDup (map key l) -> In a l -> In b l -> key a = key b -> a = b.
Proof.
  induction l as [|e rest IH]; simpl.
  - contradiction.
  - intros Hnd. inversion Hnd as [|k ks Hnotin Hrest]; subst.
    intros [-> | Ha] [-> | Hb] Hk; auto.
    + exfalso. apply Hnotin. rewrite Hk. apply in_map, Hb.
    + exfalso. apply Hnotin. rewrite <- Hk. apply in_map, Ha.
Qed.
End CollectionFacts.

(** ** Author-only edit and delete *)

Lemma not_author (user author : ObjectId) :
  user <> author -> negb (user =? author) = true.
Proof.
  intro H. apply negb_true_iff, String.eqb_neq. exact H.
Qed.

Lemma is_author (user author : ObjectId) :
  user = author -> negb (user =? author) = false.
Proof.
  intros ->. rewrite String.eqb_refl. reflexivity.
Qed.

(** C5.  A request to edit or to delete an existing comment that comes from
    a user who is not the comment's author is answered 403 Forbidden, and the
    store is left as it was: the comment and the [comments] array of its post
    with it. *)
Theorem comment_author_only (req : Request) (w : World) (c : Comment) :
  plan w (clock w) = false ->
  findById c_id (params_id req) (Comments (db w)) = Some c ->
  user_id req <> c_author c ->
  (response (serve editCommentById req w)
   = forbidden "You are not the Author. You may not edit this comment"
   /\ store_after (serve editCommentById req w) = db w)
  /\ (response (serve deleteCommentById req w)
      = forbidden "You are not the Author. You may not edit this comment"
      /\ store_after (serve deleteCommentById req w) = db w).
Proof.
  intros Hplan Hc Hu.
  unfold response, store_after, serve, editCommentById, deleteCommentById,
    try_catch, bind, await, Comment_findById, reading.
  simpl. rewrite Hplan, Hc, (not_author Hu). simpl. auto.
Qed.

Lemma comment_author_only_witness :
  plan (world0 calm) (clock (world0 calm)) = false
  /\ findById c_id "c1" (Comments blog) = Some comment1
  /\ alice <> bob
  /\ response (serve editCommentById (request "c1" alice) (world0 calm))
     = forbidden "You are not the Author. You may not edit this comment"
  /\ store_after (serve deleteCommentById (request "c1" alice) (world0 calm))
     = blog.
Proof.
  assert (Hne : alice <> bob) by (intro H; discriminate H).
  destruct (@comment_author_only (request "c1" alice) (world0 calm)
              comment1
              eq_refl eq_refl Hne) as [[He _] [_ Hd]].
  repeat split; assumption.
Defined.

(** C6.  A request to update or to delete an existing post that comes from a
    user who is not the post's author is answered 403 Forbidden, and no
    record of any collection is modified. *)
Theorem post_author_only (req : Request) (w : World) (p : Post) :
  plan w (clock w) = false ->
  findById p_id (params_id req) (Posts (db w)) = Some p ->
  user_id req <> p_author p ->
  (response (serve updatePost req w)
   = forbidden "You are not the author of this post."
   /\ store_after (serve updatePost req w) = db w)
  /\ (response (serve deletePost req w)
      = forbidden "You are not the author of this post."
      /\ store_after (serve deletePost req w) = db w).
Proof.
  intros Hplan Hp Hu.
  unfold response, store_after, serve, updatePost, deletePost,
    try_catch, bind, await, Post_findById, reading.
  simpl. rewrite Hplan, Hp, (not_author Hu). simpl. auto.
Qed.

Lemma post_author_only_witness :
  plan (world0 calm) (clock (world0 calm)) = false
  /\ findById p_id "p1" (Posts blog) = Some post1
  /\ bob <> alice
  /\ response (serve updatePost (request "p1" bob) (world0 calm))
     = forbidden "You are not the author of this post."
  /\ store_after (serve deletePost (request "p1" bob) (world0 calm)) = blog.
Proof.
  assert (Hne : bob <> alice) by (intro H; discriminate H).
  destruct (@post_author_only (request "p1" bob) (world0 calm) post1
              eq_refl eq_refl Hne) as [[Hu _] [_ Hd]].
  repeat split; assumption.
Defined.

(** ** Likes belong to their user *)

Lemma Like_findOne_sound (user post : ObjectId) (s : Store) (like : Like) :
  fst (Like_findOne user post s) = Ret (Some like) ->
  In like (Likes s) /\ l_user like = user /\ l_post like = post.
Proof.
  unfold Like_findOne, reading. simpl. intro H. injection H as H.
  apply find_some in H. destruct H as [Hin H].
  apply andb_true_iff in H. destruct H as [Hu Hp].
  apply String.eqb_eq in Hu, Hp. auto.
Qed.

Ltac split_run :=
  repeat (simpl;
          match goal with
          | |- context [if ?b then _ else _] => destruct b eqn:?
          | |- context [match ?x with Some _ => _ | None => _ end] =>
              destruct x eqn:?
          end).

Ltac guard_fired :=
  match goal with
  | F : find _ _ = Some ?k, G : negb (l_user ?k =? _) = true |- _ =>
      apply find_some in F; destruct F as [_ F];
      apply andb_true_iff in F; destruct F as [F _];
      rewrite F in G; discriminate G
  end.

(** C9.  In [removeLike] the 403 branch is dead code: a like returned by
    [Like.findOne({ user, post })] has the caller as its user, so the guard
    that follows never fires, whatever the store and whichever database calls
    fail; and, the [_id]s of the likes being unique, the only like that can
    leave the collection is one of the caller on that post. *)
Theorem removeLike_never_forbidden (req : Request) (w : World) :
  NoDup (map l_id (Likes (db w))) ->
  (forall like,
      fst (Like_findOne (user_id req) (params_id req) (db w))
      = Ret (Some like) ->
      negb (l_user like =? user_id req) = false)
  /\ (forall r, response (serve removeLike req w) = Some r -> status r <> 403)
  /\ (forall l,
         In l (Likes (db w)) ->
         ~ In l (Likes (store_after (serve removeLike req w))) ->
         l_user l = user_id req /\ l_post l = params_id req).
Proof.
  intro Hnd. split; [|split].
  - intros like H. apply Like_findOne_sound in H.
    destruct H as (_ & -> & _). rewrite String.eqb_refl. reflexivity.
  - unfold response, serve, removeLike, try_catch, bind, await, res_json,
      throw, Like_findOne, Like_deleteOne, Post_findById, Post_save,
      reading, writing.
    split_run; simpl; try guard_fired;
      intros r H; injection H as <-; simpl; discriminate.
  - intros l Hin. 
    unfold store_after, serve, removeLike, try_catch, bind, await, res_json,
      throw, Like_findOne, Like_deleteOne, Post_findById, Post_save,
      reading, writing.
    split_run; simpl; try guard_fired; intro Hout; try contradiction;
      match goal with
      | F : find _ _ = Some ?k |- _ =>
          pose proof (find_some _ _ F) as [Hk Hm];
          apply andb_true_iff in Hm; destruct Hm as [Hu Hp];
          apply String.eqb_eq in Hu, Hp;
          assert (l = k) as ->
            by (apply (NoDup_key_inj l_id (Likes (db w))); auto;
                eapply delete_doc_only; eauto);
          auto
      end.
Qed.

Lemma removeLike_never_forbidden_witness :
  NoDup (map l_id (Likes (db (world0 calm))))
  /\ (forall r,
         response (serve removeLike (request "p1" bob) (world0 calm)) = Some r ->
         status r <> 403).
Proof.
  assert (Hnd : NoDup (map l_id (Likes (db (world0 calm))))).
  { simpl. constructor; [intros [] | constructor]. }
  split; [exact Hnd|].
  exact (proj1 (proj2 (@removeLike_never_forbidden (request "p1" bob)
                         (world0 calm) Hnd))).
Defined.

(** ** Runs in which no database call fails *)

Lemma await_calm (A : Type) (q : Store -> Outcome A * Store) (st : St) :
  calm_plan (world st) ->
  await q st
  = (fst (q (db (world st))),
     mkSt (mkWorld (snd (q (db (world st)))) (plan (world st))
             (S (clock (world st))) (oidgen (world st)) (fresh (world st)))
       (sent st)).
Proof.
  intro H. unfold await. rewrite H. destruct (q (db (world st))). reflexivity.
Qed.

Lemma same_but_names_refl (st : St) : same_but_names st st.
Proof. repeat split. Qed.

Lemma same_but_names_trans (a b c : St) :
  same_but_names a b -> same_but_names b c -> same_but_names a c.
Proof.
  unfold same_but_names. intros (H1 & H2 & H3 & H4 & H5) (K1 & K2 & K3 & K4 & K5).
  repeat split; congruence.
Qed.

Lemma createOrGetTags_calm (tags : list string) :
  forall st, calm_plan (world st) ->
    exists ids st',
      createOrGetTags tags st = (Ret ids, st') /\ same_but_names st st'.
Proof.
  induction tags as [|tagName rest IH]; intros st Hcalm; simpl.
  - exists [], st. split; [reflexivity | apply same_but_names_refl].
  - unfold bind at 1. rewrite (@await_calm _ _ _ Hcalm). simpl.
    destruct (find (fun t => t_name t =? tagName) (Tags (db (world st))))
      as [tag|].
    + unfold bind, ret. simpl.
      match goal with
      | |- context [createOrGetTags rest ?s] =>
          destruct (IH s) as (ids & st' & E & Hs); [exact Hcalm|]; rewrite E
      end.
      exists (t_id tag :: ids), st'. split; [reflexivity|].
      eapply same_but_names_trans; [|exact Hs]. repeat split.
    + unfold bind, ret, new_Tag, new_oid, bind, ret. simpl.
      rewrite await_calm by exact Hcalm. simpl.
      match goal with
      | |- context [createOrGetTags rest ?s] =>
          destruct (IH s) as (ids & st' & E & Hs); [exact Hcalm|]; rewrite E
      end.
      eexists _, st'. split; [reflexivity|].
      eapply same_but_names_trans; [|exact Hs]. repeat split.
Qed.

Lemma createOrGetCategories_calm (categories : list string) :
  forall st, calm_plan (world st) ->
    exists ids st',
      createOrGetCategories categories st = (Ret ids, st')
      /\ same_but_names st st'.
Proof.
  induction categories as [|categoryName rest IH]; intros st Hcalm; simpl.
  - exists [], st. split; [reflexivity | apply same_but_names_refl].
  - unfold bind at 1. rewrite (@await_calm _ _ _ Hcalm). simpl.
    destruct (find (fun g => g_name g =? categoryName)
                (Categories (db (world st)))) as [category|].
    + unfold bind, ret. simpl.
      match goal with
      | |- context [createOrGetCategories rest ?s] =>
          destruct (IH s) as (ids & st' & E & Hs); [exact Hcalm|]; rewrite E
      end.
      exists (g_id category :: ids), st'. split; [reflexivity|].
      eapply same_but_names_trans; [|exact Hs]. repeat split.
    + unfold bind, ret, new_Category, new_oid, bind, ret. simpl.
      rewrite await_calm by exact Hcalm. simpl.
      match goal with
      | |- context [createOrGetCategories rest ?s] =>
          destruct (IH s) as (ids & st' & E & Hs); [exact Hcalm|]; rewrite E
      end.
      eexists _, st'. split; [reflexivity|].
      eapply same_but_names_trans; [|exact Hs]. repeat split.
Qed.

(** ** Falsy fields of an update *)

Lemma or_stored_default (v stored : option string) :
  truthy v = false ->
  or_stored (if truthy v then v else stored) stored = stored.
Proof.
  intros ->. destruct stored; reflexivity.
Qed.

Lemma calm_after (st st' : St) :
  same_but_names st st' -> calm_plan (world st) -> calm_plan (world st').
Proof.
  intros (Hplan & _) H k. rewrite Hplan. apply H.
Qed.

(** The last step of [updatePost]: the write and the answer. *)
Lemma updatePost_write (req : Request) (e : PostUpdate) (p : Post) (st : St) :
  calm_plan (world st) ->
  sent st = None ->
  findById p_id (params_id req) (Posts (db (world st))) = Some p ->
  exists st',
    try_catch
      (updatedPost <- await (Post_findByIdAndUpdate (params_id req) e) ;;
       match updatedPost with
       | None => throw TypeError
       | Some updatedPost =>
           res_json 200
             (JObj [("message", JStr "Post updated successfully");
                    ("updatedPost", post_json updatedPost)])
       end)
      (fun error => res_json 500 (message_error "Failed to create post" error))
      st
    = (Ret tt, st')
    /\ sent st' = updated_ok (apply_update e p)
    /\ findById p_id (params_id req) (Posts (db (world st')))
       = Some (apply_update e p).
Proof.
  intros Hcalm Hsent Hp.
  unfold try_catch, bind. rewrite await_calm by exact Hcalm.
  unfold Post_findByIdAndUpdate. simpl.
  erewrite findById_update_doc; [| reflexivity | exact Hp].
  unfold res_json. simpl. rewrite Hsent.
  eexists. split; [reflexivity|]. simpl. split; [reflexivity|].
  apply findById_update_doc; [reflexivity | exact Hp].
Qed.

Lemma updatePost_calm (req : Request) (w : World) (p : Post) :
  calm_plan w ->
  findById p_id (params_id req) (Posts (db w)) = Some p ->
  user_id req = p_author p ->
  exists p' st',
    serve updatePost req w = (Ret tt, st')
    /\ sent st' = updated_ok p'
    /\ findById p_id (params_id req) (Posts (db (world st'))) = Some p'
    /\ p_title p'
       = or_stored (if truthy (body_title req) then body_title req
                    else p_title p) (p_title p)
    /\ p_content p'
       = or_stored (if truthy (body_content req) then body_content req
                    else p_content p) (p_content p).
Proof.
  intros Hcalm Hp Hu.
  unfold serve, updatePost.
  unfold bind at 1. rewrite await_calm by exact Hcalm.
  unfold Post_findById, reading. simpl. rewrite Hp, (is_author Hu).
  set (st0 := mkSt (mkWorld (db w) (plan w) (S (clock w)) (oidgen w) (fresh w))
                None).
  assert (Hcalm0 : calm_plan (world st0)) by exact Hcalm.
  assert (exists tags' st1,
             match body_tags req with
             | Some tags => createOrGetTags tags
             | None => ret (p_tags p)
             end st0 = (Ret tags', st1) /\ same_but_names st0 st1)
    as (tags' & st1 & E1 & Same1).
  { destruct (body_tags req) as [tags|].
    - apply createOrGetTags_calm, Hcalm0.
    - exists (p_tags p), st0. split; [reflexivity | apply same_but_names_refl]. }
  assert (Hcalm1 : calm_plan (world st1)) by eauto using calm_after.
  assert (exists categories' st2,
             match body_categories req with
             | Some categories => createOrGetCategories categories
             | None => ret (p_categories p)
             end st1 = (Ret categories', st2) /\ same_but_names st1 st2)
    as (categories' & st2 & E2 & Same2).
  { destruct (body_categories req) as [categories|].
    - apply createOrGetCategories_calm, Hcalm1.
    - exists (p_categories p), st1.
      split; [reflexivity | apply same_but_names_refl]. }
  assert (Hcalm2 : calm_plan (world st2)) by eauto using calm_after.
  pose proof (same_but_names_trans Same1 Same2) as (_ & Hsent & Hposts & _).
  destruct (@updatePost_write req
              (mkPostUpdate
                 (if truthy (body_title req) then body_title req
                  else p_title p)
                 (if truthy (body_content req) then body_content req
                  else p_content p)
                 tags' categories') p st2 Hcalm2)
    as (st' & E & Hres & Hfind).
  { rewrite Hsent. reflexivity. }
  { rewrite Hposts. exact Hp. }
  exists (apply_update
            (mkPostUpdate
               (if truthy (body_title req) then body_title req
                else p_title p)
               (if truthy (body_content req) then body_content req
                else p_content p)
               tags' categories') p), st'.
  split; [|repeat split; assumption].
  rewrite <- E. unfold try_catch. unfold bind at 1. rewrite E1.
  unfold bind at 1. rewrite E2. reflexivity.
Qed.

Lemma empty_or_missing_falsy (v : option string) :
  empty_or_missing v -> truthy v = false.
Proof.
  intros [-> | ->]; reflexivity.
Qed.

Lemma editCommentById_falsy (req : Request) (w : World) (c : Comment) :
  calm_plan w ->
  findById c_id (params_id req) (Comments (db w)) = Some c ->
  user_id req = c_author c ->
  truthy (body_content req) = false ->
  response (serve editCommentById req w) = comment_updated_ok c
  /\ store_after (serve editCommentById req w) = db w.
Proof.
  intros Hcalm Hc Hu Hfalsy.
  unfold response, store_after, serve, editCommentById, try_catch.
  unfold bind at 1 3. rewrite await_calm by exact Hcalm.
  unfold Comment_findById, reading. simpl. rewrite Hc, (is_author Hu), Hfalsy.
  assert (Hsame : set_content c (c_content c) = c) by (destruct c; reflexivity).
  rewrite Hsame. unfold bind. rewrite await_calm by exact Hcalm.
  unfold Comment_save. simpl. rewrite (replace_doc_same c_id _ _ Hc). simpl.
  split; [reflexivity|]. destruct (db w); reflexivity.
Qed.

(** C10.  When no database call fails, an authorised [editCommentById] whose
    [req.body.content] is the empty string or missing answers 200 with the
    success message and leaves the comment (and the whole store) as it was;
    an authorised [updatePost] answers 200 with the success message and the
    updated post, in which the title is the stored one when [req.body.title]
    is empty or missing, and the content is the stored one when
    [req.body.content] is empty or missing. *)
Theorem falsy_fields_are_kept (req : Request) (w : World) :
  calm_plan w ->
  (forall c,
      findById c_id (params_id req) (Comments (db w)) = Some c ->
      user_id req = c_author c ->
      empty_or_missing (body_content req) ->
      response (serve editCommentById req w) = comment_updated_ok c
      /\ store_after (serve editCommentById req w) = db w)
  /\ (forall p,
         findById p_id (params_id req) (Posts (db w)) = Some p ->
         user_id req = p_author p ->
         exists p',
           response (serve updatePost req w) = updated_ok p'
           /\ findById p_id (params_id req)
                (Posts (store_after (serve updatePost req w))) = Some p'
           /\ (empty_or_missing (body_title req) -> p_title p' = p_title p)
           /\ (empty_or_missing (body_content req) ->
               p_content p' = p_content p)).
Proof.
  intro Hcalm. split.
  - intros c Hc Hu He.
    apply editCommentById_falsy; auto using empty_or_missing_falsy.
  - intros p Hp Hu.
    destruct (updatePost_calm req Hcalm Hp Hu)
      as (p' & st' & E & Hsent & Hfind & Ht & Hc).
    exists p'. unfold response, store_after. rewrite E. simpl.
    repeat split; auto.
    + intro He. rewrite Ht.
      apply or_stored_default, empty_or_missing_falsy, He.
    + intro He. rewrite Hc.
      apply or_stored_default, empty_or_missing_falsy, He.
Qed.

Lemma falsy_fields_are_kept_witness :
  calm_plan (world0 calm)
  /\ (response (serve editCommentById edit_with_empty_content (world0 calm))
      = comment_updated_ok comment1
      /\ store_after (serve editCommentById edit_with_empty_content (world0 calm))
         = blog)
  /\ (exists p',
         response (serve updatePost update_with_empty_title (world0 calm))
         = updated_ok p'
         /\ p_title p' = Some "Hello" /\ p_content p' = Some "First post").
Proof.
  assert (Hcalm : calm_plan (world0 calm)) by (intro k; reflexivity).
  split; [exact Hcalm|]. split.
  - apply (proj1 (@falsy_fields_are_kept edit_with_empty_content (world0 calm)
                    Hcalm)
             comment1).
    + reflexivity.
    + reflexivity.
    + right. reflexivity.
  - destruct (proj2 (@falsy_fields_are_kept update_with_empty_title
                       (world0 calm) Hcalm) post1 eq_refl eq_refl)
      as (p' & Hres & _ & Ht & Hc).
    exists p'. split; [exact Hres|]. split.
    + apply Ht. right. reflexivity.
    + apply Hc. left. reflexivity.
Defined.

(** ** Cascade delete *)

Lemma referenced_spec (refs : Post -> list ObjectId) (i : ObjectId)
  (posts : list Post) :
  referenced refs i posts = true
  <-> exists q, In q posts /\ In i (refs q).
Proof.
  unfold referenced. rewrite existsb_exists. split.
  - intros (q & Hq & H). apply existsb_exists in H.
    destruct H as (j & Hj & E). apply String.eqb_eq in E. subst j.
    exists q. auto.
  - intros (q & Hq & H). exists q. split; [exact Hq|].
    apply existsb_exists. exists i. split; [exact H|].
    apply String.eqb_refl.
Qed.

Lemma In_filter_other (A : Type) (key : A -> ObjectId) (i : ObjectId)
  (l : list A) (a : A) :
  In a (filter (fun x => negb (key x =? i)) l) <-> In a l /\ key a <> i.
Proof.
  rewrite filter_In, negb_true_iff, String.eqb_neq. reflexivity.
Qed.

Lemma deletePost_calm (req : Request) (w : World) (p : Post) :
  calm_plan w ->
  findById p_id (params_id req) (Posts (db w)) = Some p ->
  user_id req = p_author p ->
  response (serve deletePost req w) = deleted_ok (params_id req)
  /\ settled (serve deletePost req w) = Ret tt
  /\ store_after (serve deletePost req w) = without_post (params_id req) (db w).
Proof.
  intros Hcalm Hp Hu.
  unfold response, settled, store_after, serve, deletePost, try_catch,
    cleanUpTags, cleanUpCategories, bind.
  rewrite await_calm by exact Hcalm.
  unfold Post_findById, reading. simpl. rewrite Hp, (is_author Hu).
  repeat (rewrite await_calm by exact Hcalm; simpl).
  rewrite (findById_key _ _ _ Hp). repeat split.
Qed.

(** C4.  When no database call fails, a [deletePost] request by the author of
    an existing post is answered 200 and leaves a store in which the likes
    and the comments are those of the other posts, the posts are the old ones
    without the deleted post, and the tags and the categories are the old
    ones that a remaining post still references. *)
Theorem deletePost_cascades (req : Request) (w : World) (p : Post) :
  calm_plan w ->
  findById p_id (params_id req) (Posts (db w)) = Some p ->
  user_id req = p_author p ->
  let s := db w in
  let s' := store_after (serve deletePost req w) in
  response (serve deletePost req w) = deleted_ok (params_id req)
  /\ (forall l, In l (Likes s') <-> In l (Likes s) /\ l_post l <> p_id p)
  /\ (forall c, In c (Comments s') <-> In c (Comments s) /\ c_post c <> p_id p)
  /\ Permutation (Posts s) (p :: Posts s')
  /\ (forall t,
         In t (Tags s')
         <-> In t (Tags s) /\ exists q, In q (Posts s') /\ In (t_id t) (p_tags q))
  /\ (forall g,
         In g (Categories s')
         <-> In g (Categories s)
             /\ exists q, In q (Posts s') /\ In (g_id g) (p_categories q)).
Proof.
  intros Hcalm Hp Hu s s'.
  destruct (deletePost_calm req Hcalm Hp Hu) as (Hres & _ & Hstore).
  subst s s'. rewrite Hstore, (findById_key _ _ _ Hp). unfold without_post.
  simpl. split; [exact Hres|].
  split; [intro l; apply In_filter_other|].
  split; [intro c; apply In_filter_other|].
  split; [apply delete_doc_found, Hp|].
  split.
  - intro t. rewrite filter_In, referenced_spec. reflexivity.
  - intro g. rewrite filter_In, referenced_spec. reflexivity.
Qed.

Lemma deletePost_cascades_witness :
  calm_plan (world0 calm)
  /\ findById p_id "p1" (Posts blog) = Some post1
  /\ alice = p_author post1
  /\ response (serve deletePost (request "p1" alice) (world0 calm))
     = deleted_ok "p1"
  /\ Permutation (Posts blog)
       (post1
          :: Posts (store_after
                      (serve deletePost (request "p1" alice) (world0 calm)))).
Proof.
  assert (Hcalm : calm_plan (world0 calm)) by (intro k; reflexivity).
  destruct (@deletePost_cascades (request "p1" alice) (world0 calm) post1
              Hcalm eq_refl eq_refl) as (Hres & _ & _ & Hperm & _).
  repeat split; assumption.
Defined.

(** ** Two writes, no transaction *)

(** [addLike] when the post is saved and the like is not: the post keeps the
    new id, the collection of likes has no document for it. *)
Lemma addLike_torn (req : Request) (w : World) (p : Post) :
  plan w (clock w) = false ->
  plan w (S (clock w)) = false ->
  plan w (S (S (clock w))) = false ->
  plan w (S (S (S (clock w)))) = true ->
  findById p_id (params_id req) (Posts (db w)) = Some p ->
  fst (Like_findOne (user_id req) (params_id req) (db w)) = Ret None ->
  let r := serve addLike req w in
  response r = failed "Failed to add like to post." DbError
  /\ findById p_id (params_id req) (Posts (store_after r))
     = Some (push_like p (oidgen w (fresh w)))
  /\ Likes (store_after r) = Likes (db w).
Proof.
  intros H0 H1 H2 H3 Hp Hl r. subst r.
  unfold Like_findOne, reading in Hl. simpl in Hl. injection Hl as Hl.
  destruct (@replace_doc_found _ p_id (params_id req) (Posts (db w)) p
              (push_like p (oidgen w (fresh w))) Hp)
    as (posts' & Hsave & Hfind & _).
  { simpl. exact (findById_key _ _ _ Hp). }
  unfold response, store_after, serve, addLike, try_catch, bind, await,
    new_Like, new_oid, ret, res_json, Post_findById, Like_findOne, Post_save,
    Like_insert, reading, writing.
  simpl. rewrite H0, Hp. simpl. rewrite H1, Hl. simpl.
  rewrite H2, Hsave. simpl. rewrite H3. simpl. auto.
Qed.

(** [createComment] when the comment is saved and the post is not. *)
Lemma createComment_torn (req : Request) (w : World) (p : Post) :
  plan w (clock w) = false ->
  plan w (S (clock w)) = false ->
  plan w (S (S (clock w))) = true ->
  findById p_id (params_id req) (Posts (db w)) = Some p ->
  let r := serve createComment req w in
  response r = failed "Failed to fetch comment" DbError
  /\ Comments (store_after r)
     = (Comments (db w)
          ++ [mkComment (oidgen w (fresh w)) (body_content req) (user_id req)
                (params_id req)])%list
  /\ Posts (store_after r) = Posts (db w).
Proof.
  intros H0 H1 H2 Hp r. subst r.
  unfold response, store_after, serve, createComment, try_catch, bind, await,
    new_Comment, new_oid, ret, res_json, Post_findById, Post_save,
    Comment_insert, reading, writing.
  simpl. rewrite H0, Hp. simpl. rewrite H1. simpl. rewrite H2. simpl. auto.
Qed.

(** C7.  The paired writes are not atomic.  Take a post that exists and a
    first database call, the lookup of the post, that succeeds; [i] is the
    ObjectId generated for the new document, in use nowhere before the run.
    In every run of [addLike] by a user without a like on the post in which
    [Like.findOne] and [post.save()] succeed and [like.save()] fails, the
    request is answered 500, the stored post lists [i] as the last of its
    likes, where it did not before, and the Like documents are as they were:
    none has the id [i].  In every run of [createComment] in which
    [comment.save()] succeeds and [chosenPost.save()] fails, the request is
    answered 500, the new comment is stored, under the id [i] that no comment
    had, and the posts are as they were: the post of the comment does not
    list it.  In both the first write stays. *)
Theorem writes_are_not_atomic (req : Request) (w : World) (p : Post) :
  plan w (clock w) = false ->
  findById p_id (params_id req) (Posts (db w)) = Some p ->
  let i := oidgen w (fresh w) in
  (plan w (clock w + 1) = false ->
   plan w (clock w + 2) = false ->
   plan w (clock w + 3) = true ->
   fst (Like_findOne (user_id req) (params_id req) (db w)) = Ret None ->
   ~ In i (p_likes p) ->
   ~ In i (map l_id (Likes (db w))) ->
   let r := serve addLike req w in
   response r = failed "Failed to add like to post." DbError
   /\ option_map p_likes
        (findById p_id (params_id req) (Posts (store_after r)))
      = Some (p_likes p ++ [i])%list
   /\ Likes (store_after r) = Likes (db w)
   /\ findById l_id i (Likes (store_after r)) = None)
  /\ (plan w (clock w + 1) = false ->
      plan w (clock w + 2) = true ->
      ~ In i (p_comments p) ->
      ~ In i (map c_id (Comments (db w))) ->
      let c := mkComment i (body_content req) (user_id req) (params_id req) in
      let r := serve createComment req w in
      response r = failed "Failed to fetch comment" DbError
      /\ Comments (store_after r) = (Comments (db w) ++ [c])%list
      /\ findById c_id i (Comments (store_after r)) = Some c
      /\ Posts (store_after r) = Posts (db w)
      /\ findById p_id (c_post c) (Posts (store_after r)) = Some p
      /\ ~ In (c_id c) (p_comments p)).
Proof.
  intros H0 Hp i. replace (clock w + 1) with (S (clock w)) by lia.
  replace (clock w + 2) with (S (S (clock w))) by lia.
  replace (clock w + 3) with (S (S (S (clock w)))) by lia. split.
  - intros H1 H2 H3 Hnone Hpost Hlikes r.
    destruct (@addLike_torn req w p H0 H1 H2 H3 Hp Hnone) as (Hres & Hfind & Hsame).
    fold r in Hres, Hfind, Hsame. fold i in Hfind.
    split; [exact Hres|]. split; [rewrite Hfind; reflexivity|].
    split; [exact Hsame|]. rewrite Hsame.
    destruct (findById l_id i (Likes (db w))) as [k|] eqn:Hk; [|reflexivity].
    exfalso. apply Hlikes. rewrite <- (findById_key _ _ _ Hk).
    apply in_map, (findById_In _ _ _ Hk).
  - intros H1 H2 Hpost Hcomments c r.
    destruct (@createComment_torn req w p H0 H1 H2 Hp) as (Hres & Hadded & Hsame).
    fold i in Hadded. fold c in Hadded. fold r in Hres, Hadded, Hsame.
    split; [exact Hres|]. split; [exact Hadded|].
    split; [|split; [exact Hsame|split; [rewrite Hsame; exact Hp|exact Hpost]]].
    rewrite Hadded. clear - Hcomments. unfold findById.
    induction (Comments (db w)) as [|d rest IH]; simpl.
    + subst c. simpl. rewrite String.eqb_refl. reflexivity.
    + simpl in Hcomments. destruct (String.eqb_spec (c_id d) i) as [E|_].
      * exfalso. apply Hcomments. left. exact E.
      * apply IH. intro H. apply Hcomments. right. exact H.
Qed.

(** The two runs on the blog: the fourth call of [addLike] fails, and the
    third of [createComment]. *)
Lemma writes_are_not_atomic_witness :
  (let r := serve addLike (request "p1" alice) (world0 (failing_at 3)) in
   response r = failed "Failed to add like to post." DbError
   /\ option_map p_likes (findById p_id "p1" (Posts (store_after r)))
      = Some ["k1"; "oid0"]
   /\ Likes (store_after r) = [like1]
   /\ findById l_id "oid0" (Likes (store_after r)) = None)
  /\ (let c := mkComment "oid0" None alice "p1" in
      let r := serve createComment (request "p1" alice)
                 (world0 (failing_at 2)) in
      response r = failed "Failed to fetch comment" DbError
      /\ Comments (store_after r) = [comment1; c]
      /\ findById c_id "oid0" (Comments (store_after r)) = Some c
      /\ Posts (store_after r) = [post1; post2]
      /\ findById p_id "p1" (Posts (store_after r)) = Some post1
      /\ ~ In "oid0" (p_comments post1)).
Proof.
  split.
  - apply (proj1 (@writes_are_not_atomic (request "p1" alice)
                    (world0 (failing_at 3)) post1 eq_refl eq_refl));
      try reflexivity; simpl; intros [H | H]; try discriminate H; exact H.
  - apply (proj2 (@writes_are_not_atomic (request "p1" alice)
                    (world0 (failing_at 2)) post1 eq_refl eq_refl));
      try reflexivity; simpl; intros [H | H]; try discriminate H; exact H.
Defined.

(** ** A second like *)

(** [addLike] for a pair (user, post) that already has a like, when no
    database call fails: 400 is sent and the handler goes on, a second Like
    document is inserted and its id is pushed on the post. *)
Lemma addLike_duplicate (req : Request) (w : World) (p : Post) (k : Like) :
  calm_plan w ->
  findById p_id (params_id req) (Posts (db w)) = Some p ->
  fst (Like_findOne (user_id req) (params_id req) (db w)) = Ret (Some k) ->
  let r := serve addLike req w in
  response r
  = Some (mkResponse 400 (message "You have already liked this post."))
  /\ settled r = Throw ERR_HTTP_HEADERS_SENT
  /\ Likes (store_after r)
     = (Likes (db w)
          ++ [mkLike (oidgen w (fresh w)) (user_id req) (params_id req)])%list
  /\ findById p_id (params_id req) (Posts (store_after r))
     = Some (push_like p (oidgen w (fresh w))).
Proof.
  intros Hcalm Hp Hl r. subst r.
  unfold Like_findOne, reading in Hl. simpl in Hl. injection Hl as Hl.
  destruct (@replace_doc_found _ p_id (params_id req) (Posts (db w)) p
              (push_like p (oidgen w (fresh w))) Hp)
    as (posts' & Hsave & Hfind & _).
  { simpl. exact (findById_key _ _ _ Hp). }
  unfold response, settled, store_after, serve, addLike, try_catch, bind,
    await, new_Like, new_oid, ret, res_json, Post_findById, Like_findOne,
    Post_save, Like_insert, reading, writing.
  simpl.
  repeat (progress (rewrite ?Hcalm, ?Hp, ?Hl, ?Hsave; simpl)). auto.
Qed.

(** C1.  Bob has liked post [p1]; his second [addLike] is answered 400, and
    all the same a second Like document of (bob, p1) is stored, its id is
    appended to the [likes] of the post, and the handler ends with the error
    of a second answer on the same [res].  Were the insert of the second
    like refused by the database, the post would keep the appended id all the
    same. *)
Theorem addLike_again_adds :
  let r := serve addLike (request "p1" bob) (world0 calm) in
  let r' := serve addLike (request "p1" bob) (world0 (failing_at 3)) in
  fst (Like_findOne bob "p1" blog) = Ret (Some like1)
  /\ option_map p_likes (findById p_id "p1" (Posts blog)) = Some ["k1"]
  /\ Likes blog = [like1]
  /\ response r
     = Some (mkResponse 400 (message "You have already liked this post."))
  /\ Likes (store_after r) = [like1; mkLike "oid0" bob "p1"]
  /\ option_map p_likes (findById p_id "p1" (Posts (store_after r)))
     = Some ["k1"; "oid0"]
  /\ settled r = Throw ERR_HTTP_HEADERS_SENT
  /\ response r'
     = Some (mkResponse 400 (message "You have already liked this post."))
  /\ option_map p_likes (findById p_id "p1" (Posts (store_after r')))
     = Some ["k1"; "oid0"].
Proof.
  repeat split.
Qed.

(** ** Errors that the [try] does not cover *)

(** [updatePost] and [deletePost] look the post up before the [try]. *)
Lemma lookup_before_try (req : Request) (w : World) :
  plan w (clock w) = true ->
  (settled (serve updatePost req w) = Throw DbError
   /\ response (serve updatePost req w) = None)
  /\ (settled (serve deletePost req w) = Throw DbError
      /\ response (serve deletePost req w) = None).
Proof.
  intro H.
  unfold settled, response, serve, updatePost, deletePost, bind, await.
  simpl. rewrite H. simpl. auto.
Qed.

Ltac answers :=
  intros req w;
  unfold settled, response, serve, try_catch, bind, await, res_json, throw,
    ret, new_Comment, new_oid, Comment_find_populated, Comment_findById,
    Comment_insert, Comment_save, Comment_deleteOne, Post_findById, Post_save,
    Post_pull_comment, Like_findOne, Like_deleteOne, reading, writing;
  split_run; simpl; split; (reflexivity || discriminate).

(** The handlers whose whole body is inside the [try]. *)
Lemma comment_handlers_answer :
  always_answers getAllComments
  /\ always_answers createComment
  /\ always_answers editCommentById
  /\ always_answers deleteCommentById
  /\ always_answers removeLike.
Proof.
  split; [|split; [|split; [|split]]].
  - unfold getAllComments. answers.
  - unfold createComment. answers.
  - unfold editCommentById. answers.
  - unfold deleteCommentById. answers.
  - unfold removeLike. answers.
Qed.

(** C3.  The first database call of [updatePost] and of [deletePost],
    [Post.findById], is made before the [try]: when it throws, nothing
    catches the error and nothing is answered. *)
Theorem lookup_error_escapes :
  let w := world0 (failing_at 0) in
  let req := request "p1" alice in
  plan w (clock w) = true
  /\ settled (serve updatePost req w) = Throw DbError
  /\ response (serve updatePost req w) = None
  /\ settled (serve deletePost req w) = Throw DbError
  /\ response (serve deletePost req w) = None.
Proof.
  repeat split.
Qed.

(** * Properties of the comment widget *)

(** ** The heap of arrays *)

Lemma read_alloc_new (h : Arrays) (l : list json) :
  read (fst (alloc h l)) (snd (alloc h l)) = l.
Proof.
  unfold read, alloc. simpl. rewrite app_nth2 by lia.
  rewrite Nat.sub_diag. reflexivity.
Qed.

Lemma read_alloc_old (h : Arrays) (l : list json) (a : nat) :
  a < length h -> read (fst (alloc h l)) a = read h a.
Proof.
  intro H. unfold read, alloc. simpl. apply app_nth1, H.
Qed.

Lemma read_write_same (h : Arrays) (a : nat) (l : list json) :
  a < length h -> read (write h a l) a = l.
Proof.
  unfold read. revert a. induction h as [|x rest IH]; intros [|a] H; simpl in *;
    try lia; auto. apply IH. lia.
Qed.

Lemma read_write_other (h : Arrays) (a b : nat) (l : list json) :
  a <> b -> read (write h a l) b = read h b.
Proof.
  unfold read. revert a b.
  induction h as [|x rest IH]; intros [|a] [|b] H; simpl; auto; try lia.
Qed.

(** ** Sorting with a comparator that is a difference of ranks *)

Section Sorting.
Variable cmp : json -> json -> Js (option Z).
Variable rank : json -> Z.
Variable good : json -> Prop.
Hypothesis cmp_rank :
  forall a b, good a -> good b -> cmp a b = inr (Some (rank a - rank b)%Z).

Lemma insert_good (x : json) (l : list json) :
  good x -> Forall good l ->
  exists l',
    insert cmp x l = inr l'
    /\ Permutation (x :: l) l'
    /\ (StronglySorted (ranked rank) l -> StronglySorted (ranked rank) l').
Proof.
  intros Hx. induction l as [|y rest IH]; intro Hl; simpl.
  - exists [x]. repeat split; auto. intros _. repeat constructor.
  - inversion Hl as [|? ? Hy Hrest]; subst.
    rewrite (cmp_rank Hx Hy). simpl.
    destruct (0 <? rank x - rank y)%Z eqn:E.
    + apply Z.ltb_lt in E.
      destruct (IH Hrest) as (l' & -> & Hperm & Hsorted). simpl.
      exists (y :: l'). split; [reflexivity|]. split.
      * eapply perm_trans; [apply perm_swap | apply perm_skip, Hperm].
      * intro Hs. inversion Hs as [|? ? Hs' Hall]; subst.
        constructor; [apply Hsorted, Hs'|].
        eapply Permutation_Forall; [exact Hperm|].
        constructor; [unfold ranked; lia | exact Hall].
    + apply Z.ltb_ge in E.
      exists (x :: y :: rest). repeat split; auto.
      intro Hs. constructor; [exact Hs|].
      inversion Hs as [|? ? Hs' Hall]; subst.
      constructor; [unfold ranked; lia|].
      eapply Forall_impl; [|exact Hall].
      unfold ranked. intros z Hz. lia.
Qed.

Lemma sorted_with_good (l : list json) :
  Forall good l ->
  exists l',
    sorted_with cmp l = inr l'
    /\ Permutation l l'
    /\ StronglySorted (ranked rank) l'.
Proof.
  induction l as [|x rest IH]; intro Hl; simpl.
  - exists []. repeat split; auto. constructor.
  - inversion Hl as [|? ? Hx Hrest]; subst.
    destruct (IH Hrest) as (l1 & -> & Hperm & Hsorted). simpl.
    destruct (@insert_good x l1 Hx) as (l2 & E & Hperm2 & Hsorted2).
    { eapply Permutation_Forall; [exact Hperm | exact Hrest]. }
    exists l2. split; [exact E|]. split.
    + eapply perm_trans; [apply perm_skip, Hperm | exact Hperm2].
    + apply Hsorted2, Hsorted.
Qed.
End Sorting.

(** ** renderComments *)

Section Rendering.
Variable Date_time : option json -> option Z.



Lemma dated_created (c : json) :
  dated Date_time c -> created Date_time c = Some (time_of Date_time c).
Proof.
  intros (fields & t & -> & Ht). unfold time_of, created. simpl.
  rewrite Ht. reflexivity.
Qed.

Lemma compareFn_dated (order : string) (a b : json) :
  dated Date_time a -> dated Date_time b ->
  compareFn Date_time order a b
  = inr (Some (rank Date_time order a - rank Date_time order b)%Z).
Proof.
  intros Ha Hb.
  pose proof (dated_created Ha) as Ca. pose proof (dated_created Hb) as Cb.
  destruct Ha as (fa & ta & -> & Ha). destruct Hb as (fb & tb & -> & Hb).
  unfold created in Ca, Cb. simpl in Ca, Cb.
  unfold compareFn, rank.
  destruct (order =? "newest"); [|destruct (order =? "oldest")]; simpl.
  - rewrite Ca, Cb. simpl. do 2 f_equal. lia.
  - rewrite Ca, Cb. reflexivity.
  - reflexivity.
Qed.


Lemma show_dated (l : list json) :
  Forall (dated Date_time) l -> js_map show l = inr (map shown_of l).
Proof.
  induction l as [|c rest IH]; intro Hl; simpl.
  - reflexivity.
  - inversion Hl as [|? ? Hc Hrest]; subst.
    destruct Hc as (fields & t & -> & _). simpl.
    rewrite (IH Hrest). reflexivity.
Qed.

Lemma ranked_newest (l : list json) :
  Forall (dated Date_time) l ->
  StronglySorted (ranked (rank Date_time "newest")) l -> StronglySorted (newest_first Date_time) l.
Proof.
  induction l as [|c rest IH]; intros Hl Hs.
  - constructor.
  - inversion Hl as [|? ? Hc Hrest]; subst.
    inversion Hs as [|? ? Hs' Hall]; subst.
    constructor; [apply IH; assumption|].
    rewrite Forall_forall in *. intros d Hd.
    exists (time_of Date_time c), (time_of Date_time d).
    rewrite (dated_created Hc), (dated_created (Hrest d Hd)).
    repeat split. specialize (Hall d Hd).
    unfold ranked, rank in Hall. simpl in Hall. lia.
Qed.

Lemma ranked_oldest (l : list json) :
  Forall (dated Date_time) l ->
  StronglySorted (ranked (rank Date_time "oldest")) l -> StronglySorted (oldest_first Date_time) l.
Proof.
  induction l as [|c rest IH]; intros Hl Hs.
  - constructor.
  - inversion Hl as [|? ? Hc Hrest]; subst.
    inversion Hs as [|? ? Hs' Hall]; subst.
    constructor; [apply IH; assumption|].
    rewrite Forall_forall in *. intros d Hd.
    exists (time_of Date_time c), (time_of Date_time d).
    rewrite (dated_created Hc), (dated_created (Hrest d Hd)).
    repeat split. specialize (Hall d Hd).
    unfold ranked, rank in Hall. simpl in Hall. lia.
Qed.

(** Whatever the comments are, a render that completes leaves the array of
    the [comments] state as it was: the sort works on the copy. *)
Lemma renderComments_keeps_state (wd wd' : Widget) (shown : list Shown) :
  comments wd < length (arrays wd) ->
  renderComments Date_time wd = inr (wd', shown) ->
  held wd' = held wd /\ comments wd' = comments wd.
Proof.
  intros Hwf. unfold renderComments, Array_sort, alloc.
  destruct (sorted_with _ _) as [e|l]; simpl; [discriminate|].
  destruct (js_map show _) as [e|s]; simpl; [discriminate|].
  intro H. injection H as <- <-. unfold held. simpl. split; [|reflexivity].
  rewrite read_write_other by lia.
  apply (read_alloc_old (arrays wd) (read (arrays wd) (comments wd)) Hwf).
Qed.

(** C8, amended.  A render that completes leaves the array of the
    [comments] state as it was, whatever the comments are: the sort works on
    a copy.  When every comment of the state carries a valid [createdAt]
    date, the render completes and shows the comments of the state, each
    once, newest first under ["newest"] and oldest first under ["oldest"]. *)
Theorem renderComments_sorts_a_copy (wd : Widget) :
  comments wd < length (arrays wd) ->
  (forall wd' page,
      renderComments Date_time wd = inr (wd', page) ->
      held wd' = held wd /\ comments wd' = comments wd)
  /\ (Forall (dated Date_time) (held wd) ->
      exists wd' sortedComments,
        renderComments Date_time wd = inr (wd', map shown_of sortedComments)
        /\ Permutation (held wd) sortedComments
        /\ (sortOption wd = "newest" ->
            StronglySorted (newest_first Date_time) sortedComments)
        /\ (sortOption wd = "oldest" ->
            StronglySorted (oldest_first Date_time) sortedComments)).
Proof.
  intros Hwf. split.
  - intros wd' page. apply renderComments_keeps_state, Hwf.
  - intros Hdated.
    destruct (@sorted_with_good (compareFn Date_time (sortOption wd))
                (rank Date_time (sortOption wd)) (dated Date_time)
                (compareFn_dated (sortOption wd)) (held wd) Hdated)
      as (l & E & Hperm & Hsorted).
    assert (Hl : Forall (dated Date_time) l)
      by (eapply Permutation_Forall; [exact Hperm | exact Hdated]).
    exists (set_arrays (write (fst (alloc (arrays wd) (held wd)))
                          (length (arrays wd)) l) wd), l.
    split; [|split; [exact Hperm | split]].
    + unfold renderComments, Array_sort.
      pose proof (read_alloc_new (arrays wd) (held wd)) as Hnew.
      unfold alloc in *. simpl in *. rewrite Hnew, E. simpl.
      rewrite read_write_same by (rewrite length_app; simpl; lia).
      rewrite (show_dated Hl). reflexivity.
    + intro Ho. rewrite Ho in Hsorted. apply ranked_newest; assumption.
    + intro Ho. rewrite Ho in Hsorted. apply ranked_oldest; assumption.
Qed.
End Rendering.

Lemma renderComments_sorts_a_copy_witness :
  comments three_dated < length (arrays three_dated)
  /\ Forall (dated Date_of_millis) (held three_dated)
  /\ exists wd' sortedComments,
      renderComments Date_of_millis three_dated
      = inr (wd', map shown_of sortedComments)
      /\ StronglySorted (newest_first Date_of_millis) sortedComments
      /\ held wd' = held three_dated.
Proof.
  assert (Hwf : comments three_dated < length (arrays three_dated))
    by (simpl; lia).
  assert (Hdated : Forall (dated Date_of_millis) (held three_dated)).
  { repeat constructor; eexists _, _; split; reflexivity. }
  split; [exact Hwf|]. split; [exact Hdated|].
  destruct (@renderComments_sorts_a_copy Date_of_millis three_dated Hwf)
    as (Hkeep & Hsort).
  destruct (Hsort Hdated) as (wd' & l & E & _ & Hnewest & _).
  exists wd', l. split; [exact E|]. split; [exact (Hnewest eq_refl)|].
  exact (proj1 (Hkeep _ _ E)).
Defined.

(** C8, as stated, fails on a state in which a comment has no [createdAt]:
    its comparisons give NaN, it keeps its place, and the comment of time 1
    is shown above the comment of time 2 under ["newest"]. *)
Lemma undated_comment_is_not_sorted :
  sortOption one_undated = "newest"
  /\ exists wd' page,
      renderComments Date_of_millis one_undated = inr (wd', page)
      /\ page = map shown_of [comment_at "a" 1; undated; comment_at "b" 2]
      /\ ~ shows_newest_first Date_of_millis page.
Proof.
  split; [reflexivity|].
  eexists _, _. split; [reflexivity|]. split; [reflexivity|].
  intro H.
  specialize (H 0 2 (shown_of (comment_at "a" 1)) (shown_of (comment_at "b" 2))
                1%Z 2%Z).
  assert (2 <= 1)%Z by (apply H; (lia || reflexivity)).
  lia.
Qed.

(** Without the copy the state would change: the model tells the two
    apart. *)
Lemma sorting_in_place_would_mutate :
  exists wd' page,
    renderComments_in_place Date_of_millis three_dated = inr (wd', page)
    /\ held wd' <> held three_dated.
Proof.
  eexists _, _. split; [reflexivity|]. simpl. discriminate.
Qed.

(** ** fetchComments *)

(** A fetch that the service answers: whatever comments the answer carries
    under [allComments], the widget finds no array in it and sets its state
    to the empty array, without an alert. *)
Lemma fetchComments_drops (postId : string) (auth : AuthUser)
  (server : World) (wd : Widget) :
  truthy (token auth) = true ->
  plan server (clock server) = false ->
  exists found,
    fst (GET_comments postId auth server)
    = Some (mkResponse 200 (JObj [("allComments", JArr found)]))
    /\ found = map (populated_comment_json (db server))
                 (filter (fun c => c_post c =? postId) (Comments (db server)))
    /\ held (fst (fetchComments postId auth server wd)) = []
    /\ alerts (fst (fetchComments postId auth server wd)) = alerts wd.
Proof.
  intros Htoken Hplan. eexists. split; [|split; [reflexivity|]].
  - unfold GET_comments, response, serve, getAllComments, try_catch, bind,
      await, res_json, Comment_find_populated, reading.
    simpl. rewrite Hplan. reflexivity.
  - unfold fetchComments, GET_comments, response, serve, getAllComments,
      try_catch, bind, await, res_json, Comment_find_populated, reading.
    rewrite Htoken. simpl. rewrite Hplan. simpl.
    split; [|reflexivity].
    unfold held. simpl.
    apply (read_alloc_new (arrays wd) []).
Qed.

(** C2.  The service holds one comment on post [p1] and answers the widget's
    GET with it, status 200; the fetch succeeds, nothing is alerted, and the
    [comments] state of the widget is the empty array: the answer is the
    object [{ allComments }], the widget looks for an array or for the key
    [comments]. *)
Theorem fetched_comments_are_dropped :
  let answer := fst (GET_comments "p1" logged_in (world0 calm)) in
  let wd := fst (fetchComments "p1" logged_in (world0 calm) mounted) in
  answer
  = Some (mkResponse 200
            (JObj [("allComments", JArr [populated_comment_json blog comment1])]))
  /\ option_map ok answer = Some true
  /\ held wd = []
  /\ alerts wd = []
  /\ loading wd = false.
Proof.
  repeat split.
Qed.

(** * Further properties *)

(** ** Collections and the arrays that list them *)

Lemma NoDup_snoc (A : Type) (x : A) (l : list A) :
  NoDup l -> ~ In x l -> NoDup (l ++ [x]).
Proof.
  intros Hl Hx. apply Permutation_NoDup with (l := x :: l).
  - apply Permutation_cons_append.
  - constructor; assumption.
Qed.

Lemma find_after (A : Type) (f : A -> bool) (l l' : list A) :
  find f l = None -> find f (l ++ l') = find f l'.
Proof.
  induction l as [|x rest IH]; simpl; intro H.
  - reflexivity.
  - destruct (f x); [discriminate | apply IH, H].
Qed.

Lemma find_nowhere (A : Type) (f : A -> bool) (l : list A) :
  (forall d, In d l -> f d = false) -> find f l = None.
Proof.
  induction l as [|x rest IH]; simpl; intro H.
  - reflexivity.
  - rewrite (H x (or_introl eq_refl)). apply IH. intros d Hd. apply H.
    right. exact Hd.
Qed.

Section MoreCollectionFacts.
Variable Doc : Type.
Variable key : Doc -> ObjectId.

Lemma filter_notin (i : ObjectId) (l : list ObjectId) :
  ~ In i l -> filter (fun j => negb (j =? i)) l = l.
Proof.
  induction l as [|j rest IH]; simpl; intro H.
  - reflexivity.
  - destruct (j =? i) eqn:E.
    + apply String.eqb_eq in E. exfalso. apply H. left. exact E.
    + simpl. rewrite IH; [reflexivity|]. intro. apply H. right. assumption.
Qed.

Lemma filter_other_keys (i : ObjectId) (l : list Doc) :
  ~ In i (map key l) -> filter (fun d => negb (key d =? i)) l = l.
Proof.
  induction l as [|e rest IH]; simpl; intro H.
  - reflexivity.
  - destruct (key e =? i) eqn:E.
    + apply String.eqb_eq in E. exfalso. apply H. left. exact E.
    + simpl. rewrite IH; [reflexivity|]. intro. apply H. right. assumption.
Qed.

Lemma delete_doc_filter (i : ObjectId) (l : list Doc) :
  NoDup (map key l) ->
  delete_doc key i l = filter (fun d => negb (key d =? i)) l.
Proof.
  induction l as [|e rest IH]; simpl; intro Hnd.
  - reflexivity.
  - inversion Hnd as [|k ks Hnotin Hrest]; subst.
    destruct (key e =? i) eqn:E; simpl.
    + apply String.eqb_eq in E. subst i.
      symmetry. apply filter_other_keys, Hnotin.
    + rewrite IH by exact Hrest. reflexivity.
Qed.

Lemma delete_doc_NoDup (i : ObjectId) (l : list Doc) :
  NoDup (map key l) -> NoDup (map key (delete_doc key i l)).
Proof.
  induction l as [|e rest IH]; simpl; intro Hnd.
  - constructor.
  - inversion Hnd as [|k ks Hnotin Hrest]; subst.
    destruct (key e =? i); [exact Hrest|].
    simpl. constructor; [|apply IH, Hrest].
    intro Hin. apply Hnotin. apply in_map_iff in Hin.
    destruct Hin as (d & Hk & Hd). rewrite <- Hk.
    apply in_map. eapply delete_doc_incl. exact Hd.
Qed.

Lemma replace_doc_keys (d : Doc) (l l' : list Doc) :
  replace_doc key d l = Some l' -> map key l' = map key l.
Proof.
  revert l'. induction l as [|e rest IH]; simpl; intros l' H.
  - discriminate.
  - destruct (key e =? key d) eqn:E.
    + injection H as <-. simpl. apply String.eqb_eq in E. rewrite E.
      reflexivity.
    + destruct (replace_doc key d rest) as [r|]; [|discriminate].
      injection H as <-. simpl. rewrite (IH r eq_refl). reflexivity.
Qed.

(** After a save, the collection holds the saved document and the others. *)
Lemma replace_doc_In (d q : Doc) (l l' : list Doc) :
  NoDup (map key l) ->
  replace_doc key d l = Some l' ->
  In q l' -> q = d \/ (In q l /\ key q <> key d).
Proof.
  revert l'. induction l as [|e rest IH]; simpl; intros l' Hnd H Hq.
  - discriminate.
  - inversion Hnd as [|k ks Hnotin Hrest]; subst.
    destruct (key e =? key d) eqn:E.
    + injection H as <-. apply String.eqb_eq in E.
      destruct Hq as [<- | Hq]; [left; reflexivity|].
      right. split; [right; exact Hq|].
      intro Hk. apply Hnotin. rewrite E, <- Hk. apply in_map, Hq.
    + destruct (replace_doc key d rest) as [r|]; [|discriminate].
      injection H as <-. apply String.eqb_neq in E.
      destruct Hq as [<- | Hq]; [right; auto|].
      destruct (IH r Hrest eq_refl Hq) as [-> | [Hin Hk]]; auto.
Qed.

(** Saving the old document again undoes a save. *)
Lemma replace_doc_back (i : ObjectId) (d d' : Doc) (l l' : list Doc) :
  findById key i l = Some d -> key d' = i ->
  replace_doc key d' l = Some l' -> replace_doc key d l' = Some l.
Proof.
  intros Hf Hk. pose proof (findById_key _ _ _ Hf) as Hd.
  revert l' Hf. unfold findById.
  induction l as [|e rest IH]; simpl; intros l' Hf H.
  - discriminate.
  - rewrite Hk in H. destruct (key e =? i) eqn:E.
    + injection Hf as ->. injection H as <-. simpl.
      rewrite Hk, Hd, String.eqb_refl. reflexivity.
    + destruct (replace_doc key d' rest) as [r|] eqn:R; [|discriminate].
      injection H as <-. simpl. rewrite Hd, E.
      rewrite (IH r Hf eq_refl). reflexivity.
Qed.

Lemma update_doc_keys (i : ObjectId) (f : Doc -> Doc) (l : list Doc) :
  (forall e, key (f e) = key e) ->
  map key (update_doc key i f l) = map key l.
Proof.
  intro Hf. induction l as [|e rest IH]; simpl.
  - reflexivity.
  - destruct (key e =? i); simpl; [rewrite Hf | rewrite IH]; reflexivity.
Qed.

Lemma update_doc_In (i : ObjectId) (f : Doc -> Doc) (q : Doc) (l : list Doc) :
  NoDup (map key l) ->
  In q (update_doc key i f l) ->
  (exists e, In e l /\ key e = i /\ q = f e) \/ (In q l /\ key q <> i).
Proof.
  induction l as [|e rest IH]; simpl; intros Hnd Hq.
  - contradiction.
  - inversion Hnd as [|k ks Hnotin Hrest]; subst.
    destruct (key e =? i) eqn:E.
    + apply String.eqb_eq in E. destruct Hq as [<- | Hq].
      * left. exists e. auto.
      * right. split; [right; exact Hq|].
        intro Hk. apply Hnotin. rewrite E, <- Hk. apply in_map, Hq.
    + apply String.eqb_neq in E. destruct Hq as [<- | Hq]; [right; auto|].
      destruct (IH Hrest Hq) as [(x & Hx & Hkx & ->) | [Hin Hk]].
      * left. exists x. auto.
      * right. auto.
Qed.

(** An update of the saved document that gives the old one undoes the
    save. *)
Lemma update_doc_back (i : ObjectId) (f : Doc -> Doc) (d d' : Doc)
  (l l' : list Doc) :
  findById key i l = Some d -> key d' = i -> f d' = d ->
  replace_doc key d' l = Some l' -> update_doc key i f l' = l.
Proof.
  intros Hf Hk Hfd. revert l' Hf. unfold findById.
  induction l as [|e rest IH]; simpl; intros l' Hf H.
  - discriminate.
  - rewrite Hk in H. destruct (key e =? i) eqn:E.
    + injection Hf as ->. injection H as <-. simpl.
      rewrite Hk, String.eqb_refl, Hfd. reflexivity.
    + destruct (replace_doc key d' rest) as [r|] eqn:R; [|discriminate].
      injection H as <-. simpl. rewrite E, (IH r Hf eq_refl). reflexivity.
Qed.

Lemma delete_doc_last (d : Doc) (l : list Doc) :
  ~ In (key d) (map key l) -> delete_doc key (key d) (l ++ [d]) = l.
Proof.
  induction l as [|e rest IH]; simpl; intro H.
  - rewrite String.eqb_refl. reflexivity.
  - destruct (key e =? key d) eqn:E.
    + apply String.eqb_eq in E. exfalso. apply H. left. exact E.
    + rewrite IH; [reflexivity|]. intro. apply H. right. assumption.
Qed.

Lemma findById_last (d : Doc) (l : list Doc) :
  ~ In (key d) (map key l) -> findById key (key d) (l ++ [d]) = Some d.
Proof.
  unfold findById. induction l as [|e rest IH]; simpl; intro H.
  - rewrite String.eqb_refl. reflexivity.
  - destruct (key e =? key d) eqn:E.
    + apply String.eqb_eq in E. exfalso. apply H. left. exact E.
    + apply IH. intro. apply H. right. assumption.
Qed.

Variable parent : Doc -> ObjectId.

Lemma refs_of_app (i : ObjectId) (l : list Doc) (d : Doc) :
  refs_of key parent i (l ++ [d])
  = (refs_of key parent i l
       ++ (if parent d =? i then [key d] else []))%list.
Proof.
  unfold refs_of. rewrite filter_app, map_app. simpl.
  destruct (parent d =? i); reflexivity.
Qed.

Lemma refs_of_other (i : ObjectId) (l : list Doc) (d : Doc) :
  NoDup (map key l) -> In d l -> parent d <> i ->
  ~ In (key d) (refs_of key parent i l).
Proof.
  intros Hnd Hd Hp Hin. unfold refs_of in Hin. apply in_map_iff in Hin.
  destruct Hin as (e & Hk & He). apply filter_In in He.
  destruct He as [He Hpe]. apply String.eqb_eq in Hpe.
  assert (e = d) by (eapply NoDup_key_inj; eauto). subst e. contradiction.
Qed.

(** Deleting a document takes its id out of the list of its parent, and out
    of no other. *)
Lemma refs_of_delete (i j : ObjectId) (l : list Doc) :
  NoDup (map key l) ->
  refs_of key parent i (delete_doc key j l)
  = filter (fun k => negb (k =? j)) (refs_of key parent i l).
Proof.
  intro Hnd. rewrite delete_doc_filter by exact Hnd. unfold refs_of.
  clear Hnd. induction l as [|e rest IH]; simpl.
  - reflexivity.
  - destruct (key e =? j) eqn:E; destruct (parent e =? i) eqn:P; simpl;
      rewrite ?P, ?E; simpl; rewrite ?IH; reflexivity.
Qed.

(** Deleting all the documents of a parent leaves the lists of the others. *)
Lemma refs_of_deleteMany (i j : ObjectId) (l : list Doc) :
  i <> j ->
  refs_of key parent i (filter (fun d => negb (parent d =? j)) l)
  = refs_of key parent i l.
Proof.
  intro Hij. unfold refs_of. induction l as [|e rest IH]; simpl.
  - reflexivity.
  - destruct (parent e =? j) eqn:E; simpl.
    + apply String.eqb_eq in E.
      destruct (parent e =? i) eqn:P; [|exact IH].
      apply String.eqb_eq in P. congruence.
    + destruct (parent e =? i); simpl; rewrite IH; reflexivity.
Qed.

Lemma filter_NoDup_keys (f : Doc -> bool) (l : list Doc) :
  NoDup (map key l) -> NoDup (map key (filter f l)).
Proof.
  induction l as [|e rest IH]; simpl; intro Hnd.
  - constructor.
  - inversion Hnd as [|k ks Hnotin Hrest]; subst.
    destruct (f e); [|apply IH, Hrest].
    simpl. constructor; [|apply IH, Hrest].
    intro Hin. apply Hnotin. apply in_map_iff in Hin.
    destruct Hin as (d & Hk & Hd). rewrite <- Hk.
    apply in_map. apply filter_In in Hd. exact (proj1 Hd).
Qed.
End MoreCollectionFacts.

(** ** Likes *)

(** The run of [addLike] for a first like, when no database call fails. *)
Lemma addLike_first_run (req : Request) (w : World) (p : Post) :
  calm_plan w ->
  findById p_id (params_id req) (Posts (db w)) = Some p ->
  fst (Like_findOne (user_id req) (params_id req) (db w)) = Ret None ->
  exists posts',
    replace_doc p_id (push_like p (oidgen w (fresh w))) (Posts (db w))
    = Some posts'
    /\ serve addLike req w
       = (Ret tt,
          mkSt (mkWorld
                  (set_Likes (set_Posts (db w) posts')
                     (Likes (db w)
                        ++ [mkLike (oidgen w (fresh w)) (user_id req)
                              (params_id req)]))
                  (plan w) (4 + clock w) (oidgen w) (S (fresh w)))
            liked).
Proof.
  intros Hcalm Hp Hl.
  unfold Like_findOne, reading in Hl. simpl in Hl. injection Hl as Hl.
  destruct (@replace_doc_found _ p_id (params_id req) (Posts (db w)) p
              (push_like p (oidgen w (fresh w))) Hp)
    as (posts' & Hsave & _ & _).
  { simpl. exact (findById_key _ _ _ Hp). }
  exists posts'. split; [exact Hsave|].
  unfold serve, addLike, try_catch, bind, await, new_Like, new_oid, ret,
    res_json, Post_findById, Like_findOne, Post_save, Like_insert, reading,
    writing.
  simpl.
  repeat (progress (rewrite ?Hcalm, ?Hp, ?Hl, ?Hsave; simpl)). reflexivity.
Qed.

(** The run of [removeLike] when no database call fails. *)
Lemma removeLike_run (req : Request) (w : World) (p : Post) (k : Like) :
  calm_plan w ->
  fst (Like_findOne (user_id req) (params_id req) (db w)) = Ret (Some k) ->
  findById p_id (params_id req) (Posts (db w)) = Some p ->
  exists posts',
    replace_doc p_id
      (set_likes p (filter (fun i => negb (i =? l_id k)) (p_likes p)))
      (Posts (db w)) = Some posts'
    /\ serve removeLike req w
       = (Ret tt,
          mkSt (mkWorld
                  (set_Posts
                     (set_Likes (db w) (delete_doc l_id (l_id k) (Likes (db w))))
                     posts')
                  (plan w) (4 + clock w) (oidgen w) (fresh w))
            unliked).
Proof.
  intros Hcalm Hl Hp.
  destruct (Like_findOne_sound Hl) as (_ & Hu & _).
  unfold Like_findOne, reading in Hl. simpl in Hl. injection Hl as Hl.
  destruct (@replace_doc_found _ p_id (params_id req) (Posts (db w)) p
              (set_likes p (filter (fun i => negb (i =? l_id k)) (p_likes p)))
              Hp)
    as (posts' & Hsave & _ & _).
  { simpl. exact (findById_key _ _ _ Hp). }
  exists posts'. split; [exact Hsave|].
  unfold serve, removeLike, try_catch, bind, await, res_json, throw,
    Post_findById, Like_findOne, Like_deleteOne, Post_save, reading, writing.
  simpl.
  repeat (progress (rewrite ?Hcalm, ?Hp, ?Hl, ?Hu, ?String.eqb_refl, ?Hsave;
                    simpl)).
  reflexivity.
Qed.

Lemma blog_consistent : consistent blog.
Proof.
  constructor; simpl.
  - repeat constructor; simpl; intuition discriminate.
  - repeat constructor; simpl; intuition discriminate.
  - repeat constructor; simpl; intuition discriminate.
  - intros p [<- | [<- | []]]; reflexivity.
  - intros p [<- | [<- | []]]; reflexivity.
Qed.

Lemma calm_is_calm (s : Store) (c : nat) (g : nat -> ObjectId) (f : nat) :
  calm_plan (mkWorld s calm c g f).
Proof. intro k. reflexivity. Qed.

(** X1.  When no database call fails, a first like of a user on a post of a
    consistent store, with an ObjectId no like has, is answered 201; the
    store stays consistent, the like is found by user and post, and its id
    is the last of the [likes] of the post. *)
Theorem addLike_keeps_consistent (req : Request) (w : World) (p : Post) :
  calm_plan w ->
  consistent (db w) ->
  ~ In (oidgen w (fresh w)) (map l_id (Likes (db w))) ->
  findById p_id (params_id req) (Posts (db w)) = Some p ->
  fst (Like_findOne (user_id req) (params_id req) (db w)) = Ret None ->
  let r := serve addLike req w in
  response r = liked
  /\ settled r = Ret tt
  /\ consistent (store_after r)
  /\ fst (Like_findOne (user_id req) (params_id req) (store_after r))
     = Ret (Some (mkLike (oidgen w (fresh w)) (user_id req) (params_id req)))
  /\ option_map p_likes (findById p_id (params_id req) (Posts (store_after r)))
     = Some (p_likes p ++ [oidgen w (fresh w)])%list.
Proof.
  intros Hcalm Hcons Hnew Hp Hl r. subst r.
  destruct (addLike_first_run req Hcalm Hp Hl) as (posts' & Hsave & Hrun).
  pose proof (findById_key _ _ _ Hp) as Hid.
  pose proof (findById_In _ _ _ Hp) as Hin.
  destruct Hcons as [Hposts Hlikes Hcomments Hll Hcl].
  unfold response, settled, store_after. rewrite Hrun. simpl.
  split; [reflexivity|]. split; [reflexivity|]. split; [|split].
  - constructor; simpl.
    + rewrite (@replace_doc_keys _ _ _ _ _ Hsave). exact Hposts.
    + rewrite map_app. simpl. apply NoDup_snoc; assumption.
    + exact Hcomments.
    + intros q Hq. rewrite refs_of_app. simpl.
      destruct (@replace_doc_In _ p_id _ q _ _ Hposts Hsave Hq) as [-> | [Hq' Hk]].
      * simpl. rewrite Hid, String.eqb_refl, (Hll p Hin), Hid. reflexivity.
      * simpl in Hk. rewrite Hid in Hk.
        assert (E : (params_id req =? p_id q) = false)
          by (apply String.eqb_neq; congruence).
        rewrite E, app_nil_r. apply Hll, Hq'.
    + intros q Hq.
      destruct (@replace_doc_In _ p_id _ q _ _ Hposts Hsave Hq) as [-> | [Hq' Hk]].
      * simpl. apply (Hcl p Hin).
      * apply Hcl, Hq'.
  - unfold Like_findOne, reading in *. simpl in *. injection Hl as Hl.
    rewrite (@find_after _ _ _ _ Hl). simpl. rewrite !String.eqb_refl. reflexivity.
  - destruct (@replace_doc_found _ p_id (params_id req) (Posts (db w)) p
                (push_like p (oidgen w (fresh w))) Hp)
      as (l2 & Hsave2 & Hfind & _); [exact Hid|].
    rewrite Hsave in Hsave2. injection Hsave2 as <-. rewrite Hfind.
    reflexivity.
Qed.

Lemma addLike_keeps_consistent_witness :
  calm_plan (world0 calm)
  /\ consistent blog
  /\ response (serve addLike (request "p1" alice) (world0 calm)) = liked
  /\ consistent (store_after (serve addLike (request "p1" alice) (world0 calm))).
Proof.
  assert (Hcalm : calm_plan (world0 calm)) by apply calm_is_calm.
  assert (Hnew : ~ In (oidgen (world0 calm) (fresh (world0 calm)))
                   (map l_id (Likes (db (world0 calm)))))
    by (simpl; intuition discriminate).
  destruct (@addLike_keeps_consistent (request "p1" alice) (world0 calm) post1
              Hcalm blog_consistent Hnew eq_refl eq_refl)
    as (Hres & _ & Hcons & _).
  split; [exact Hcalm|]. split; [exact blog_consistent|]. split; assumption.
Defined.

(** X2.  When no database call fails, [removeLike] on a consistent store, for a
    like that exists on a post that exists, is answered 200; the store stays
    consistent, no like has the id of the removed one, and that id is gone
    from the [likes] of the post. *)
Theorem removeLike_keeps_consistent (req : Request) (w : World) (p : Post)
  (k : Like) :
  calm_plan w ->
  consistent (db w) ->
  fst (Like_findOne (user_id req) (params_id req) (db w)) = Ret (Some k) ->
  findById p_id (params_id req) (Posts (db w)) = Some p ->
  let r := serve removeLike req w in
  response r = unliked
  /\ settled r = Ret tt
  /\ consistent (store_after r)
  /\ ~ In (l_id k) (map l_id (Likes (store_after r)))
  /\ option_map p_likes (findById p_id (params_id req) (Posts (store_after r)))
     = Some (filter (fun i => negb (i =? l_id k)) (p_likes p)).
Proof.
  intros Hcalm Hcons Hl Hp r. subst r.
  destruct (removeLike_run req Hcalm Hl Hp) as (posts' & Hsave & Hrun).
  destruct (Like_findOne_sound Hl) as (Hk & _ & Hkp).
  pose proof (findById_key _ _ _ Hp) as Hid.
  pose proof (findById_In _ _ _ Hp) as Hin.
  destruct Hcons as [Hposts Hlikes Hcomments Hll Hcl].
  unfold response, settled, store_after. rewrite Hrun. simpl.
  split; [reflexivity|]. split; [reflexivity|]. split; [|split].
  - constructor; simpl.
    + rewrite (@replace_doc_keys _ _ _ _ _ Hsave). exact Hposts.
    + apply delete_doc_NoDup, Hlikes.
    + exact Hcomments.
    + intros q Hq. rewrite refs_of_delete by exact Hlikes.
      destruct (@replace_doc_In _ p_id _ q _ _ Hposts Hsave Hq)
        as [-> | [Hq' Hne]].
      * simpl. rewrite (Hll p Hin). reflexivity.
      * simpl in Hne. rewrite filter_notin; [apply Hll, Hq'|].
        apply refs_of_other; auto. congruence.
    + intros q Hq.
      destruct (@replace_doc_In _ p_id _ q _ _ Hposts Hsave Hq)
        as [-> | [Hq' Hne]].
      * simpl. apply (Hcl p Hin).
      * apply Hcl, Hq'.
  - rewrite delete_doc_filter by exact Hlikes. intro H.
    apply in_map_iff in H. destruct H as (l & Hlk & Hlin).
    apply filter_In in Hlin. destruct Hlin as [_ Hne].
    rewrite Hlk, String.eqb_refl in Hne. discriminate.
  - destruct (@replace_doc_found _ p_id (params_id req) (Posts (db w)) p
                (set_likes p (filter (fun i => negb (i =? l_id k)) (p_likes p)))
                Hp)
      as (l2 & Hsave2 & Hfind & _); [exact Hid|].
    rewrite Hsave in Hsave2. injection Hsave2 as <-. rewrite Hfind.
    reflexivity.
Qed.

Lemma removeLike_keeps_consistent_witness :
  calm_plan (world0 calm)
  /\ consistent blog
  /\ response (serve removeLike (request "p1" bob) (world0 calm)) = unliked
  /\ consistent (store_after (serve removeLike (request "p1" bob) (world0 calm))).
Proof.
  assert (Hcalm : calm_plan (world0 calm)) by apply calm_is_calm.
  destruct (@removeLike_keeps_consistent (request "p1" bob) (world0 calm) post1
              like1 Hcalm blog_consistent eq_refl eq_refl)
    as (Hres & _ & Hcons & _).
  split; [exact Hcalm|]. split; [exact blog_consistent|]. split; assumption.
Defined.

Lemma filter_last_out (i : ObjectId) (l : list ObjectId) :
  ~ In i l -> filter (fun j => negb (j =? i)) (l ++ [i]) = l.
Proof.
  intro H. rewrite filter_app, filter_notin by exact H. simpl.
  rewrite String.eqb_refl. simpl. apply app_nil_r.
Qed.

(** X3.  When no database call fails, [addLike] followed by [removeLike] of the
    same user on the same post gives the store back as it was, provided the
    user had no like there and the generated ObjectId was in use neither in
    the likes nor in the [likes] of the post. *)
Theorem addLike_removeLike (req : Request) (w : World) (p : Post) :
  calm_plan w ->
  findById p_id (params_id req) (Posts (db w)) = Some p ->
  fst (Like_findOne (user_id req) (params_id req) (db w)) = Ret None ->
  ~ In (oidgen w (fresh w)) (map l_id (Likes (db w))) ->
  ~ In (oidgen w (fresh w)) (p_likes p) ->
  let r1 := serve addLike req w in
  let r2 := serve removeLike req (world_after r1) in
  response r1 = liked /\ response r2 = unliked /\ store_after r2 = db w.
Proof.
  intros Hcalm Hp Hl Hnew Hnotin r1 r2. subst r1 r2.
  destruct (addLike_first_run req Hcalm Hp Hl) as (posts' & Hsave & Hrun).
  pose proof (findById_key _ _ _ Hp) as Hid.
  set (i := oidgen w (fresh w)) in *.
  set (k := mkLike i (user_id req) (params_id req)) in *.
  unfold world_after. rewrite Hrun. cbn [snd world].
  split; [reflexivity|].
  match goal with
  | |- context [serve removeLike req ?w1] => set (w1' := w1)
  end.
  assert (Hcalm1 : calm_plan w1') by exact Hcalm.
  assert (Hl1 : fst (Like_findOne (user_id req) (params_id req) (db w1'))
                = Ret (Some k)).
  { unfold Like_findOne, reading in *. simpl in *. injection Hl as Hl.
    rewrite (@find_after _ _ _ _ Hl). simpl. rewrite !String.eqb_refl.
    reflexivity. }
  assert (Hp1 : findById p_id (params_id req) (Posts (db w1'))
                = Some (push_like p i)).
  { destruct (@replace_doc_found _ p_id (params_id req) (Posts (db w)) p
                (push_like p i) Hp) as (l2 & Hsave2 & Hfind & _);
      [exact Hid|].
    rewrite Hsave in Hsave2. injection Hsave2 as <-. exact Hfind. }
  destruct (removeLike_run req Hcalm1 Hl1 Hp1) as (posts2 & Hsave2 & Hrun2).
  unfold response, store_after. rewrite Hrun2. simpl.
  split; [reflexivity|].
  assert (Hback : set_likes (push_like p i)
                    (filter (fun j => negb (j =? i)) (p_likes p ++ [i])) = p).
  { rewrite filter_last_out by exact Hnotin. destruct p; reflexivity. }
  simpl in Hsave2. rewrite Hback in Hsave2.
  rewrite (@replace_doc_back _ p_id (params_id req) p (push_like p i)
             (Posts (db w)) posts' Hp Hid Hsave) in Hsave2.
  injection Hsave2 as <-.
  change i with (l_id k) at 1.
  rewrite (@delete_doc_last _ l_id k (Likes (db w)) Hnew).
  destruct (db w); reflexivity.
Qed.

Lemma addLike_removeLike_witness :
  calm_plan (world0 calm)
  /\ store_after
       (serve removeLike (request "p1" alice)
          (world_after (serve addLike (request "p1" alice) (world0 calm))))
     = blog.
Proof.
  assert (Hcalm : calm_plan (world0 calm)) by apply calm_is_calm.
  split; [exact Hcalm|].
  refine (proj2 (proj2 (@addLike_removeLike (request "p1" alice) (world0 calm)
                          post1 Hcalm eq_refl eq_refl _ _)));
    simpl; intuition discriminate.
Defined.

(** ** Comments *)

(** The run of [createComment] when no database call fails. *)
Lemma createComment_run (req : Request) (w : World) (p : Post) :
  calm_plan w ->
  findById p_id (params_id req) (Posts (db w)) = Some p ->
  let c := mkComment (oidgen w (fresh w)) (body_content req) (user_id req)
             (params_id req) in
  exists posts',
    replace_doc p_id (push_comment p (c_id c)) (Posts (db w)) = Some posts'
    /\ serve createComment req w
       = (Ret tt,
          mkSt (mkWorld
                  (set_Posts (set_Comments (db w) (Comments (db w) ++ [c]))
                     posts')
                  (plan w) (3 + clock w) (oidgen w) (S (fresh w)))
            (comment_created c)).
Proof.
  intros Hcalm Hp c.
  destruct (@replace_doc_found _ p_id (params_id req) (Posts (db w)) p
              (push_comment p (c_id c)) Hp)
    as (posts' & Hsave & _ & _).
  { simpl. exact (findById_key _ _ _ Hp). }
  exists posts'. split; [exact Hsave|]. subst c. simpl in Hsave.
  unfold serve, createComment, try_catch, bind, await, new_Comment, new_oid,
    ret, res_json, Post_findById, Post_save, Comment_insert, reading, writing.
  simpl.
  repeat (progress (rewrite ?Hcalm, ?Hp, ?Hsave; simpl)). reflexivity.
Qed.

(** The run of [deleteCommentById] by the author, when no database call
    fails. *)
Lemma deleteCommentById_run (req : Request) (w : World) (c : Comment) :
  calm_plan w ->
  findById c_id (params_id req) (Comments (db w)) = Some c ->
  user_id req = c_author c ->
  serve deleteCommentById req w
  = (Ret tt,
     mkSt (mkWorld
             (set_Comments
                (set_Posts (db w)
                   (update_doc p_id (c_post c) (pull_comment (c_id c))
                      (Posts (db w))))
                (delete_doc c_id (c_id c) (Comments (db w))))
             (plan w) (3 + clock w) (oidgen w) (fresh w))
       (comment_deleted c)).
Proof.
  intros Hcalm Hc Hu.
  unfold serve, deleteCommentById, try_catch, bind, await, res_json,
    Comment_findById, Post_pull_comment, Comment_deleteOne, reading, writing.
  simpl.
  repeat (progress (rewrite ?Hcalm, ?Hc, ?(is_author Hu); simpl)).
  reflexivity.
Qed.

(** X4.  When no database call fails, [createComment] on a post of a consistent
    store, with an ObjectId no comment has, is answered 201 with the comment;
    the store stays consistent, the comment is found by its id, and its id is
    the last of the [comments] of the post. *)
Theorem createComment_keeps_consistent (req : Request) (w : World) (p : Post) :
  calm_plan w ->
  consistent (db w) ->
  ~ In (oidgen w (fresh w)) (map c_id (Comments (db w))) ->
  findById p_id (params_id req) (Posts (db w)) = Some p ->
  let c := mkComment (oidgen w (fresh w)) (body_content req) (user_id req)
             (params_id req) in
  let r := serve createComment req w in
  response r = comment_created c
  /\ consistent (store_after r)
  /\ findById c_id (c_id c) (Comments (store_after r)) = Some c
  /\ option_map p_comments
       (findById p_id (params_id req) (Posts (store_after r)))
     = Some (p_comments p ++ [c_id c])%list.
Proof.
  intros Hcalm Hcons Hnew Hp c r. subst r.
  destruct (createComment_run req Hcalm Hp) as (posts' & Hsave & Hrun).
  fold c in Hsave, Hrun.
  pose proof (findById_key _ _ _ Hp) as Hid.
  pose proof (findById_In _ _ _ Hp) as Hin.
  destruct Hcons as [Hposts Hlikes Hcomments Hll Hcl].
  unfold response, store_after. rewrite Hrun. simpl.
  split; [reflexivity|]. split; [|split].
  - constructor; simpl.
    + rewrite (@replace_doc_keys _ _ _ _ _ Hsave). exact Hposts.
    + exact Hlikes.
    + rewrite map_app. simpl. apply NoDup_snoc; assumption.
    + intros q Hq.
      destruct (@replace_doc_In _ p_id _ q _ _ Hposts Hsave Hq)
        as [-> | [Hq' Hk]].
      * simpl. apply (Hll p Hin).
      * apply Hll, Hq'.
    + intros q Hq. rewrite refs_of_app. simpl.
      destruct (@replace_doc_In _ p_id _ q _ _ Hposts Hsave Hq)
        as [-> | [Hq' Hk]].
      * simpl. rewrite Hid, String.eqb_refl, (Hcl p Hin), Hid. reflexivity.
      * simpl in Hk. rewrite Hid in Hk.
        assert (E : (params_id req =? p_id q) = false)
          by (apply String.eqb_neq; congruence).
        rewrite E, app_nil_r. apply Hcl, Hq'.
  - apply (@findById_last _ c_id c (Comments (db w)) Hnew).
  - destruct (@replace_doc_found _ p_id (params_id req) (Posts (db w)) p
                (push_comment p (c_id c)) Hp)
      as (l2 & Hsave2 & Hfind & _); [exact Hid|].
    rewrite Hsave in Hsave2. injection Hsave2 as <-. rewrite Hfind.
    reflexivity.
Qed.

Lemma createComment_keeps_consistent_witness :
  calm_plan (world0 calm)
  /\ consistent blog
  /\ consistent
       (store_after (serve createComment (request "p1" alice) (world0 calm))).
Proof.
  assert (Hcalm : calm_plan (world0 calm)) by apply calm_is_calm.
  assert (Hnew : ~ In (oidgen (world0 calm) (fresh (world0 calm)))
                   (map c_id (Comments (db (world0 calm)))))
    by (simpl; intuition discriminate).
  destruct (@createComment_keeps_consistent (request "p1" alice) (world0 calm)
              post1 Hcalm blog_consistent Hnew eq_refl)
    as (_ & Hcons & _).
  split; [exact Hcalm|]. split; [exact blog_consistent | exact Hcons].
Defined.

(** X5.  When no database call fails, [deleteCommentById] by the author on a
    consistent store is answered 200 with the comment; the store stays
    consistent, the comment and nothing else has left the collection, and no
    post lists its id. *)
Theorem deleteCommentById_keeps_consistent (req : Request) (w : World)
  (c : Comment) :
  calm_plan w ->
  consistent (db w) ->
  findById c_id (params_id req) (Comments (db w)) = Some c ->
  user_id req = c_author c ->
  let r := serve deleteCommentById req w in
  response r = comment_deleted c
  /\ consistent (store_after r)
  /\ findById c_id (params_id req) (Comments (store_after r)) = None
  /\ Permutation (Comments (db w)) (c :: Comments (store_after r))
  /\ forall p, In p (Posts (store_after r)) -> ~ In (c_id c) (p_comments p).
Proof.
  intros Hcalm Hcons Hc Hu r. subst r.
  rewrite (deleteCommentById_run req Hcalm Hc Hu).
  pose proof (findById_key _ _ _ Hc) as Hid.
  pose proof (findById_In _ _ _ Hc) as Hin.
  destruct Hcons as [Hposts Hlikes Hcomments Hll Hcl].
  unfold response, store_after. simpl.
  assert (Hlisted :
            forall q, In q (update_doc p_id (c_post c) (pull_comment (c_id c))
                              (Posts (db w))) ->
                      p_comments q
                      = refs_of c_id c_post (p_id q)
                          (delete_doc c_id (c_id c) (Comments (db w)))).
  { intros q Hq. rewrite refs_of_delete by exact Hcomments.
    destruct (@update_doc_In _ p_id _ _ q _ Hposts Hq)
      as [(e & He & Hke & ->) | [Hq' Hne]].
    - simpl. rewrite (Hcl e He). reflexivity.
    - rewrite filter_notin; [apply Hcl, Hq'|].
      apply refs_of_other; auto. }
  split; [reflexivity|]. split; [|split; [|split]].
  - constructor; simpl.
    + rewrite update_doc_keys by reflexivity. exact Hposts.
    + exact Hlikes.
    + apply delete_doc_NoDup, Hcomments.
    + intros q Hq.
      destruct (@update_doc_In _ p_id _ _ q _ Hposts Hq)
        as [(e & He & Hke & ->) | [Hq' Hne]].
      * simpl. apply (Hll e He).
      * apply Hll, Hq'.
    + exact Hlisted.
  - rewrite Hid, delete_doc_filter by exact Hcomments.
    unfold findById. apply find_nowhere. intros d Hd.
    apply filter_In in Hd. destruct Hd as [_ Hd].
    apply negb_true_iff in Hd. exact Hd.
  - rewrite Hid. apply delete_doc_found, Hc.
  - intros q Hq Hcq. rewrite (Hlisted q Hq) in Hcq.
    rewrite refs_of_delete in Hcq by exact Hcomments.
    apply filter_In in Hcq. destruct Hcq as [_ Hcq].
    rewrite String.eqb_refl in Hcq. discriminate.
Qed.

Lemma deleteCommentById_keeps_consistent_witness :
  calm_plan (world0 calm)
  /\ consistent blog
  /\ response (serve deleteCommentById (request "c1" bob) (world0 calm))
     = comment_deleted comment1
  /\ consistent
       (store_after (serve deleteCommentById (request "c1" bob) (world0 calm))).
Proof.
  assert (Hcalm : calm_plan (world0 calm)) by apply calm_is_calm.
  destruct (@deleteCommentById_keeps_consistent (request "c1" bob)
              (world0 calm) comment1 Hcalm blog_consistent eq_refl eq_refl)
    as (Hres & Hcons & _).
  split; [exact Hcalm|]. split; [exact blog_consistent|]. split; assumption.
Defined.

(** X6.  When no database call fails, [createComment] followed by
    [deleteCommentById] of the new comment by the same user gives the store
    back as it was, provided the generated ObjectId was in use neither in the
    comments nor in the [comments] of the post. *)
Theorem createComment_deleteCommentById (req : Request) (w : World) (p : Post) :
  calm_plan w ->
  findById p_id (params_id req) (Posts (db w)) = Some p ->
  ~ In (oidgen w (fresh w)) (map c_id (Comments (db w))) ->
  ~ In (oidgen w (fresh w)) (p_comments p) ->
  let c := mkComment (oidgen w (fresh w)) (body_content req) (user_id req)
             (params_id req) in
  let r1 := serve createComment req w in
  let r2 := serve deleteCommentById (request (c_id c) (user_id req))
              (world_after r1) in
  response r1 = comment_created c
  /\ response r2 = comment_deleted c
  /\ store_after r2 = db w.
Proof.
  intros Hcalm Hp Hnew Hnotin c r1 r2. subst r1 r2.
  destruct (createComment_run req Hcalm Hp) as (posts' & Hsave & Hrun).
  fold c in Hsave, Hrun.
  pose proof (findById_key _ _ _ Hp) as Hid.
  unfold world_after. rewrite Hrun. cbn [snd world].
  split; [reflexivity|].
  match goal with
  | |- context [serve deleteCommentById _ ?w1] => set (w1' := w1)
  end.
  assert (Hcalm1 : calm_plan w1') by exact Hcalm.
  assert (Hc1 : findById c_id (params_id (request (c_id c) (user_id req)))
                  (Comments (db w1')) = Some c)
    by apply (@findById_last _ c_id c (Comments (db w)) Hnew).
  rewrite (deleteCommentById_run (request (c_id c) (user_id req)) Hcalm1 Hc1
             eq_refl).
  unfold response, store_after. simpl.
  split; [reflexivity|].
  change (oidgen w (fresh w)) with (c_id c).
  rewrite (@update_doc_back _ p_id (params_id req) (pull_comment (c_id c)) p
             (push_comment p (c_id c)) (Posts (db w)) posts' Hp Hid).
  - rewrite (@delete_doc_last _ c_id c (Comments (db w)) Hnew).
    destruct (db w); reflexivity.
  - unfold pull_comment. simpl. rewrite filter_last_out by exact Hnotin.
    destruct p; reflexivity.
  - exact Hsave.
Qed.

Lemma createComment_deleteCommentById_witness :
  calm_plan (world0 calm)
  /\ store_after
       (serve deleteCommentById (request "oid0" alice)
          (world_after (serve createComment (request "p1" alice) (world0 calm))))
     = blog.
Proof.
  assert (Hcalm : calm_plan (world0 calm)) by apply calm_is_calm.
  split; [exact Hcalm|].
  refine (proj2 (proj2 (@createComment_deleteCommentById (request "p1" alice)
                          (world0 calm) post1 Hcalm eq_refl _ _)));
    simpl; intuition discriminate.
Defined.

(** X7.  When no database call fails, [getAllComments] after a [createComment]
    on the post is answered 200 and lists the comments the post had, in
    their order, and then the new one. *)
Theorem created_comment_is_listed (req : Request) (w : World) (p : Post)
  (reader : string) :
  calm_plan w ->
  findById p_id (params_id req) (Posts (db w)) = Some p ->
  let r1 := serve createComment req w in
  let r2 := serve getAllComments (request (params_id req) reader)
              (world_after r1) in
  answered 200 r2
  /\ map id_of (array_under "allComments" (response r2))
     = map (fun i => Some (JStr i))
         (refs_of c_id c_post (params_id req) (Comments (db w))
            ++ [oidgen w (fresh w)]).
Proof.
  intros Hcalm Hp r1 r2. subst r1 r2.
  destruct (createComment_run req Hcalm Hp) as (posts' & Hsave & Hrun).
  unfold world_after. rewrite Hrun. cbn [snd world].
  unfold answered, response, serve, getAllComments, try_catch, bind, await,
    res_json, Comment_find_populated, reading.
  simpl. rewrite !Hcalm. simpl. split; [eexists; reflexivity|].
  rewrite filter_app, !map_app. simpl. rewrite String.eqb_refl. simpl.
  unfold refs_of. rewrite !map_map. reflexivity.
Qed.

Lemma created_comment_is_listed_witness :
  calm_plan (world0 calm)
  /\ map id_of
       (array_under "allComments"
          (response
             (serve getAllComments (request "p1" bob)
                (world_after
                   (serve createComment (request "p1" alice) (world0 calm))))))
     = [Some (JStr "c1"); Some (JStr "oid0")].
Proof.
  assert (Hcalm : calm_plan (world0 calm)) by apply calm_is_calm.
  split; [exact Hcalm|].
  exact (proj2 (@created_comment_is_listed (request "p1" alice) (world0 calm)
                  post1 bob Hcalm eq_refl)).
Defined.

(** ** Find or create *)

Lemma find_before (A : Type) (f : A -> bool) (l l' : list A) (x : A) :
  find f l = Some x -> find f (l ++ l') = Some x.
Proof.
  induction l as [|y rest IH]; simpl; intro H.
  - discriminate.
  - destruct (f y); [exact H | apply IH, H].
Qed.

Lemma find_by_name_none (A : Type) (name_of : A -> string) (name : string)
  (l : list A) :
  find (fun d => name_of d =? name) l = None -> ~ In name (map name_of l).
Proof.
  intros H Hin. apply in_map_iff in Hin. destruct Hin as (d & Hd & Hl).
  pose proof (find_none _ _ H d Hl) as E. simpl in E.
  rewrite Hd, String.eqb_refl in E. discriminate.
Qed.

Lemma tag_resolves_more (tags more : list Tag) (name : string) (i : ObjectId) :
  tag_resolves tags name i -> tag_resolves (tags ++ more) name i.
Proof.
  intros (t & Hf & Hi). exists t. split; [apply (@find_before _ _ _ _ _ Hf) | exact Hi].
Qed.

Lemma only_tags_grow_refl (st : St) : only_tags_grow st st.
Proof.
  split; [exists []; symmetry; apply app_nil_r | repeat split].
Qed.

Lemma only_tags_grow_trans (a b c : St) :
  only_tags_grow a b -> only_tags_grow b c -> only_tags_grow a c.
Proof.
  intros ((l1 & H1) & A2 & A3 & A4 & A5 & A6 & A7 & A8 & A9)
         ((l2 & K1) & B2 & B3 & B4 & B5 & B6 & B7 & B8 & B9).
  split.
  - exists (l1 ++ l2)%list. rewrite K1, H1, app_assoc. reflexivity.
  - repeat split; congruence.
Qed.

Ltac grow_nothing :=
  split; [exists []; symmetry; apply app_nil_r | repeat split].

Ltac grows_here := split; [grow_nothing | auto].

(** Whatever fails, the helper only appends tags, and it appends no name
    that is stored. *)
Lemma createOrGetTags_grows (tags : list string) :
  forall st o st',
    createOrGetTags tags st = (o, st') ->
    only_tags_grow st st'
    /\ (NoDup (names_of (Tags (db (world st)))) ->
        NoDup (names_of (Tags (db (world st'))))).
Proof.
  induction tags as [|tagName rest IH]; intros st o st'; simpl.
  - unfold ret. intro H. injection H as <- <-. grows_here.
  - unfold bind at 1. unfold await at 1.
    destruct (plan (world st) (clock (world st))); simpl.
    { intro H. injection H as <- <-. grows_here. }
    unfold Tag_findOne, reading. simpl.
    destruct (find (fun t => t_name t =? tagName) (Tags (db (world st))))
      as [tag|] eqn:F.
    + unfold bind at 1. unfold ret at 1. simpl. unfold bind at 1.
      match goal with
      | |- context [createOrGetTags rest ?s] =>
          destruct (createOrGetTags rest s) as [[ids|e] st1] eqn:E;
          destruct (IH _ _ _ E) as [Hgrow Hnd]
      end; unfold ret; simpl in *; intro H; injection H as <- <-.
      * split; [|exact Hnd].
        eapply only_tags_grow_trans; [|exact Hgrow]. grow_nothing.
      * split; [|exact Hnd].
        eapply only_tags_grow_trans; [|exact Hgrow]. grow_nothing.
    + unfold bind at 1. unfold new_Tag, new_oid. unfold bind at 1 2 3.
      unfold ret at 1. simpl. unfold await at 1. simpl.
      destruct (plan (world st) (S (clock (world st)))); simpl.
      { intro H. injection H as <- <-. grows_here. }
      unfold bind at 1.
      match goal with
      | |- context [createOrGetTags rest ?s] =>
          destruct (createOrGetTags rest s) as [[ids|e] st1] eqn:E;
          destruct (IH _ _ _ E) as [Hgrow Hnd]
      end; unfold ret; simpl in *; intro H; injection H as <- <-.
      * split.
        -- eapply only_tags_grow_trans; [|exact Hgrow].
           split; [eexists; reflexivity | repeat split].
        -- intro H. apply Hnd. unfold names_of. rewrite map_app. simpl.
           apply NoDup_snoc; [exact H|].
           apply (@find_by_name_none _ t_name _ _ F).
      * split.
        -- eapply only_tags_grow_trans; [|exact Hgrow].
           split; [eexists; reflexivity | repeat split].
        -- intro H. apply Hnd. unfold names_of. rewrite map_app. simpl.
           apply NoDup_snoc; [exact H|].
           apply (@find_by_name_none _ t_name _ _ F).
Qed.

(** When nothing fails, every name is given the id of the tag that the
    lookup by name finds afterwards. *)
Lemma createOrGetTags_resolves (tags : list string) :
  forall st,
    calm_plan (world st) ->
    exists ids st',
      createOrGetTags tags st = (Ret ids, st')
      /\ Forall2 (tag_resolves (Tags (db (world st')))) tags ids.
Proof.
  induction tags as [|tagName rest IH]; intros st Hcalm; simpl.
  - exists [], st. split; [reflexivity | constructor].
  - unfold bind at 1. rewrite (@await_calm _ _ _ Hcalm). simpl.
    destruct (find (fun t => t_name t =? tagName) (Tags (db (world st))))
      as [tag|] eqn:F.
    + unfold bind, ret. simpl.
      match goal with
      | |- context [createOrGetTags rest ?s] =>
          destruct (IH s) as (ids & st' & E & Hall); [exact Hcalm|];
          destruct (createOrGetTags_grows _ _ E) as [((more & Hmore) & _) _];
          rewrite E
      end.
      exists (t_id tag :: ids), st'. split; [reflexivity|].
      constructor; [|exact Hall].
      simpl in Hmore. rewrite Hmore. apply tag_resolves_more. exists tag. auto.
    + unfold bind, ret, new_Tag, new_oid, bind, ret. simpl.
      rewrite await_calm by exact Hcalm. simpl.
      match goal with
      | |- context [createOrGetTags rest ?s] =>
          destruct (IH s) as (ids & st' & E & Hall); [exact Hcalm|];
          destruct (createOrGetTags_grows _ _ E) as [((more & Hmore) & _) _];
          rewrite E
      end.
      exists (oidgen (world st) (fresh (world st)) :: ids), st'.
      split; [reflexivity|].
      constructor; [|exact Hall].
      simpl in Hmore. rewrite Hmore. apply tag_resolves_more.
      exists (mkTag (oidgen (world st) (fresh (world st))) tagName).
      split; [|reflexivity].
      rewrite (@find_after _ _ _ _ F). simpl. rewrite String.eqb_refl.
      reflexivity.
Qed.

(** When nothing fails and every name is stored, the helper only reads. *)
Lemma createOrGetTags_present (tags : list string) (ids : list ObjectId) :
  forall st,
    calm_plan (world st) ->
    Forall2 (tag_resolves (Tags (db (world st)))) tags ids ->
    exists st',
      createOrGetTags tags st = (Ret ids, st')
      /\ db (world st') = db (world st)
      /\ fresh (world st') = fresh (world st)
      /\ plan (world st') = plan (world st)
      /\ sent st' = sent st.
Proof.
  intros st Hcalm Hall. revert st Hcalm Hall.
  revert ids. induction tags as [|tagName rest IH]; intros ids st Hcalm Hall;
    inversion Hall as [|? i ? ids' Hhead Htail]; subst; simpl.
  - exists st. repeat split.
  - destruct Hhead as (t & Hf & <-).
    unfold bind at 1. rewrite (@await_calm _ _ _ Hcalm). simpl. rewrite Hf.
    unfold bind, ret. simpl.
    match goal with
    | |- context [createOrGetTags rest ?s] =>
        destruct (IH ids' s) as (st' & E & Hdb & Hfresh & Hplan & Hsent);
        [exact Hcalm | exact Htail | rewrite E]
    end.
    exists st'. repeat split; assumption.
Qed.

(** The same for categories. *)

Lemma category_resolves_more (categories more : list Category) (name : string) (i : ObjectId) :
  category_resolves categories name i ->
  category_resolves (categories ++ more) name i.
Proof.
  intros (g & Hf & Hi). exists g. split; [apply (@find_before _ _ _ _ _ Hf) | exact Hi].
Qed.

Lemma only_categories_grow_refl (st : St) : only_categories_grow st st.
Proof.
  split; [exists []; symmetry; apply app_nil_r | repeat split].
Qed.

Lemma only_categories_grow_trans (a b c : St) :
  only_categories_grow a b -> only_categories_grow b c -> only_categories_grow a c.
Proof.
  intros ((l1 & H1) & A2 & A3 & A4 & A5 & A6 & A7 & A8 & A9)
         ((l2 & K1) & B2 & B3 & B4 & B5 & B6 & B7 & B8 & B9).
  split.
  - exists (l1 ++ l2)%list. rewrite K1, H1, app_assoc. reflexivity.
  - repeat split; congruence.
Qed.

(** Whatever fails, the helper only appends categories, and it appends no name
    that is stored. *)
Lemma createOrGetCategories_grows (categories : list string) :
  forall st o st',
    createOrGetCategories categories st = (o, st') ->
    only_categories_grow st st'
    /\ (NoDup (category_names_of (Categories (db (world st)))) ->
        NoDup (category_names_of (Categories (db (world st'))))).
Proof.
  induction categories as [|categoryName rest IH]; intros st o st'; simpl.
  - unfold ret. intro H. injection H as <- <-. grows_here.
  - unfold bind at 1. unfold await at 1.
    destruct (plan (world st) (clock (world st))); simpl.
    { intro H. injection H as <- <-. grows_here. }
    unfold Category_findOne, reading. simpl.
    destruct (find (fun g => g_name g =? categoryName)
                (Categories (db (world st))))
      as [category|] eqn:F.
    + unfold bind at 1. unfold ret at 1. simpl. unfold bind at 1.
      match goal with
      | |- context [createOrGetCategories rest ?s] =>
          destruct (createOrGetCategories rest s) as [[ids|e] st1] eqn:E;
          destruct (IH _ _ _ E) as [Hgrow Hnd]
      end; unfold ret; simpl in *; intro H; injection H as <- <-.
      * split; [|exact Hnd].
        eapply only_categories_grow_trans; [|exact Hgrow]. grow_nothing.
      * split; [|exact Hnd].
        eapply only_categories_grow_trans; [|exact Hgrow]. grow_nothing.
    + unfold bind at 1. unfold new_Category, new_oid. unfold bind at 1 2 3.
      unfold ret at 1. simpl. unfold await at 1. simpl.
      destruct (plan (world st) (S (clock (world st)))); simpl.
      { intro H. injection H as <- <-. grows_here. }
      unfold bind at 1.
      match goal with
      | |- context [createOrGetCategories rest ?s] =>
          destruct (createOrGetCategories rest s) as [[ids|e] st1] eqn:E;
          destruct (IH _ _ _ E) as [Hgrow Hnd]
      end; unfold ret; simpl in *; intro H; injection H as <- <-.
      * split.
        -- eapply only_categories_grow_trans; [|exact Hgrow].
           split; [eexists; reflexivity | repeat split].
        -- intro H. apply Hnd. unfold category_names_of. rewrite map_app. simpl.
           apply NoDup_snoc; [exact H|].
           apply (@find_by_name_none _ g_name _ _ F).
      * split.
        -- eapply only_categories_grow_trans; [|exact Hgrow].
           split; [eexists; reflexivity | repeat split].
        -- intro H. apply Hnd. unfold category_names_of. rewrite map_app. simpl.
           apply NoDup_snoc; [exact H|].
           apply (@find_by_name_none _ g_name _ _ F).
Qed.

(** When nothing fails, every name is given the id of the category that the
    lookup by name finds afterwards. *)
Lemma createOrGetCategories_resolves (categories : list string) :
  forall st,
    calm_plan (world st) ->
    exists ids st',
      createOrGetCategories categories st = (Ret ids, st')
      /\ Forall2 (category_resolves (Categories (db (world st')))) categories ids.
Proof.
  induction categories as [|categoryName rest IH]; intros st Hcalm; simpl.
  - exists [], st. split; [reflexivity | constructor].
  - unfold bind at 1. rewrite (@await_calm _ _ _ Hcalm). simpl.
    destruct (find (fun g => g_name g =? categoryName)
                (Categories (db (world st))))
      as [category|] eqn:F.
    + unfold bind, ret. simpl.
      match goal with
      | |- context [createOrGetCategories rest ?s] =>
          destruct (IH s) as (ids & st' & E & Hall); [exact Hcalm|];
          destruct (createOrGetCategories_grows _ _ E) as [((more & Hmore) & _) _];
          rewrite E
      end.
      exists (g_id category :: ids), st'. split; [reflexivity|].
      constructor; [|exact Hall].
      simpl in Hmore. rewrite Hmore. apply category_resolves_more. exists category. auto.
    + unfold bind, ret, new_Category, new_oid, bind, ret. simpl.
      rewrite await_calm by exact Hcalm. simpl.
      match goal with
      | |- context [createOrGetCategories rest ?s] =>
          destruct (IH s) as (ids & st' & E & Hall); [exact Hcalm|];
          destruct (createOrGetCategories_grows _ _ E) as [((more & Hmore) & _) _];
          rewrite E
      end.
      exists (oidgen (world st) (fresh (world st)) :: ids), st'.
      split; [reflexivity|].
      constructor; [|exact Hall].
      simpl in Hmore. rewrite Hmore. apply category_resolves_more.
      exists (mkCategory (oidgen (world st) (fresh (world st))) categoryName).
      split; [|reflexivity].
      rewrite (@find_after _ _ _ _ F). simpl. rewrite String.eqb_refl.
      reflexivity.
Qed.

(** When nothing fails and every name is stored, the helper only reads. *)
Lemma createOrGetCategories_present (categories : list string) (ids : list ObjectId) :
  forall st,
    calm_plan (world st) ->
    Forall2 (category_resolves (Categories (db (world st)))) categories ids ->
    exists st',
      createOrGetCategories categories st = (Ret ids, st')
      /\ db (world st') = db (world st)
      /\ fresh (world st') = fresh (world st)
      /\ plan (world st') = plan (world st)
      /\ sent st' = sent st.
Proof.
  intros st Hcalm Hall. revert st Hcalm Hall.
  revert ids. induction categories as [|categoryName rest IH]; intros ids st Hcalm Hall;
    inversion Hall as [|? i ? ids' Hhead Htail]; subst; simpl.
  - exists st. repeat split.
  - destruct Hhead as (t & Hf & <-).
    unfold bind at 1. rewrite (@await_calm _ _ _ Hcalm). simpl. rewrite Hf.
    unfold bind, ret. simpl.
    match goal with
    | |- context [createOrGetCategories rest ?s] =>
        destruct (IH ids' s) as (st' & E & Hdb & Hfresh & Hplan & Hsent);
        [exact Hcalm | exact Htail | rewrite E]
    end.
    exists st'. repeat split; assumption.
Qed.



(** X9.  When no database call fails, the find-or-create helpers return one id
    for each name, in order, and afterwards the lookup by that name finds a
    document with that id. *)
Theorem find_or_create_resolves (names : list string) (st : St) :
  calm_plan (world st) ->
  (exists ids st',
      createOrGetTags names st = (Ret ids, st')
      /\ Forall2 (tag_resolves (Tags (db (world st')))) names ids)
  /\ (exists ids st',
         createOrGetCategories names st = (Ret ids, st')
         /\ Forall2 (category_resolves (Categories (db (world st'))))
              names ids).
Proof.
  intro Hcalm. split.
  - apply createOrGetTags_resolves, Hcalm.
  - apply createOrGetCategories_resolves, Hcalm.
Qed.

Lemma find_or_create_resolves_witness :
  calm_plan (world quiet)
  /\ exists ids st',
      createOrGetTags some_names quiet = (Ret ids, st')
      /\ Forall2 (tag_resolves (Tags (db (world st')))) some_names ids.
Proof.
  assert (Hcalm : calm_plan (world quiet)) by apply calm_is_calm.
  split; [exact Hcalm|].
  exact (proj1 (@find_or_create_resolves some_names quiet Hcalm)).
Defined.

(** X10.  When no database call fails, a second call of a find-or-create helper
    with the same names returns the same ids, leaves the store as the first
    call left it and generates no ObjectId. *)
Theorem find_or_create_twice (names : list string) (st : St) :
  calm_plan (world st) ->
  (exists ids st1 st2,
      createOrGetTags names st = (Ret ids, st1)
      /\ createOrGetTags names st1 = (Ret ids, st2)
      /\ db (world st2) = db (world st1)
      /\ fresh (world st2) = fresh (world st1))
  /\ (exists ids st1 st2,
         createOrGetCategories names st = (Ret ids, st1)
         /\ createOrGetCategories names st1 = (Ret ids, st2)
         /\ db (world st2) = db (world st1)
         /\ fresh (world st2) = fresh (world st1)).
Proof.
  intro Hcalm. split.
  - destruct (@createOrGetTags_resolves names st Hcalm) as (ids & st1 & E & Hall).
    assert (Hcalm1 : calm_plan (world st1)).
    { destruct (createOrGetTags_grows _ _ E)
        as [(_ & _ & _ & _ & _ & _ & Hp & _) _].
      intro k. rewrite Hp. apply Hcalm. }
    destruct (@createOrGetTags_present names ids st1 Hcalm1 Hall)
      as (st2 & E2 & Hdb & Hfresh & _).
    exists ids, st1, st2. auto.
  - destruct (@createOrGetCategories_resolves names st Hcalm)
      as (ids & st1 & E & Hall).
    assert (Hcalm1 : calm_plan (world st1)).
    { destruct (createOrGetCategories_grows _ _ E)
        as [(_ & _ & _ & _ & _ & _ & Hp & _) _].
      intro k. rewrite Hp. apply Hcalm. }
    destruct (@createOrGetCategories_present names ids st1 Hcalm1 Hall)
      as (st2 & E2 & Hdb & Hfresh & _).
    exists ids, st1, st2. auto.
Qed.

Lemma find_or_create_twice_witness :
  calm_plan (world quiet)
  /\ exists ids st1 st2,
      createOrGetTags some_names quiet = (Ret ids, st1)
      /\ createOrGetTags some_names st1 = (Ret ids, st2)
      /\ db (world st2) = db (world st1)
      /\ fresh (world st2) = fresh (world st1).
Proof.
  assert (Hcalm : calm_plan (world quiet)) by apply calm_is_calm.
  split; [exact Hcalm|].
  exact (proj1 (@find_or_create_twice some_names quiet Hcalm)).
Defined.

(** ** createPost *)

Lemma answer_500 (m : string) (e : Err) (st : St) :
  sent st = None ->
  res_json 500 (message_error m e) st
  = (Ret tt, mkSt (world st) (Some (mkResponse 500 (message_error m e)))).
Proof.
  intro H. unfold res_json. rewrite H. reflexivity.
Qed.

Ltac refused :=
  eexists; split; [reflexivity|]; simpl; repeat split;
  try congruence; try discriminate;
  try (intros; eexists; reflexivity);
  try (right; split; [eexists; reflexivity | congruence]).

(** The run of [createPost], whatever fails. *)
Lemma createPost_run (req : Request) (w : World) :
  exists st',
    serve createPost req w = (Ret tt, st')
    /\ Comments (db (world st')) = Comments (db w)
    /\ Likes (db (world st')) = Likes (db w)
    /\ ((exists post,
            sent st' = post_created post
            /\ Posts (db (world st')) = (Posts (db w) ++ [post])%list
            /\ p_author post = user_id req
            /\ p_title post = body_title req
            /\ p_content post = body_content req
            /\ p_comments post = [] /\ p_likes post = [])
        \/ ((exists payload, sent st' = Some (mkResponse 500 payload))
            /\ Posts (db (world st')) = Posts (db w)))
    /\ (body_tags req = None ->
        (exists payload, sent st' = Some (mkResponse 500 payload))
        /\ db (world st') = db w)
    /\ (body_categories req = None ->
        exists payload, sent st' = Some (mkResponse 500 payload)).
Proof.
  unfold serve, createPost, try_catch.
  unfold bind at 1.
  destruct (body_tags req) as [tags|]; simpl.
  2:{ refused. }
  destruct (createOrGetTags tags (mkSt w None)) as [[tagIds|e] st1] eqn:E1;
    destruct (createOrGetTags_grows _ _ E1)
      as [(_ & Hp1 & Hc1 & Hl1 & _ & _ & Hplan1 & Hgen1 & Hs1) _];
    simpl in Hp1, Hc1, Hl1, Hs1.
  2:{ rewrite answer_500 by exact Hs1. refused. }
  unfold bind at 1.
  destruct (body_categories req) as [categories|]; simpl.
  2:{ rewrite answer_500 by exact Hs1. refused. }
  destruct (createOrGetCategories categories st1)
    as [[categoryIds|e] st2] eqn:E2;
    destruct (createOrGetCategories_grows _ _ E2)
      as [(_ & Hp2 & Hc2 & Hl2 & _ & _ & Hplan2 & Hgen2 & Hs2) _].
  2:{ rewrite answer_500 by (rewrite Hs2; exact Hs1). refused. }
  unfold new_Post, new_oid, bind, ret, await, Post_insert, writing, res_json.
  simpl. destruct (plan (world st2) (clock (world st2))); simpl;
    rewrite Hs2, Hs1; simpl.
  - refused.
  - eexists. split; [reflexivity|]. simpl.
    repeat split; try congruence; try discriminate. left.
    eexists. split; [reflexivity|]. simpl. rewrite Hp2, Hp1.
    repeat split.
Qed.

(** X11.  Whatever database call fails, [createPost] lets no error out and
    leaves comments and likes alone; either it answers 201 and has appended
    one post, of the requesting user, with the title and content of the body
    and no comment and no like, or it answers 500 and the posts are as they
    were.  Without [tags] in the body it answers 500 and the whole store is
    as it was; without [categories] it answers 500. *)
Theorem createPost_outcomes (req : Request) (w : World) :
  let r := serve createPost req w in
  settled r = Ret tt
  /\ Comments (store_after r) = Comments (db w)
  /\ Likes (store_after r) = Likes (db w)
  /\ ((exists post,
          response r = post_created post
          /\ Posts (store_after r) = (Posts (db w) ++ [post])%list
          /\ p_author post = user_id req
          /\ p_title post = body_title req
          /\ p_content post = body_content req
          /\ p_comments post = [] /\ p_likes post = [])
      \/ (answered 500 r /\ Posts (store_after r) = Posts (db w)))
  /\ (body_tags req = None -> answered 500 r /\ store_after r = db w)
  /\ (body_categories req = None -> answered 500 r).
Proof.
  intro r. subst r.
  destruct (createPost_run req w) as (st' & E & H).
  unfold answered, settled, response, store_after. rewrite E. simpl.
  split; [reflexivity | exact H].
Qed.

(** X12.  When no database call fails and the body carries [tags] and
    [categories], [createPost] answers 201 with the post it has appended, and
    the [tags] and [categories] of that post are, name by name, the ids of
    the documents that the lookups by name find. *)
Theorem createPost_names (req : Request) (w : World)
  (tags categories : list string) :
  calm_plan w ->
  body_tags req = Some tags ->
  body_categories req = Some categories ->
  let r := serve createPost req w in
  exists post,
    response r = post_created post
    /\ Posts (store_after r) = (Posts (db w) ++ [post])%list
    /\ p_author post = user_id req
    /\ Forall2 (tag_resolves (Tags (store_after r))) tags (p_tags post)
    /\ Forall2 (category_resolves (Categories (store_after r))) categories
         (p_categories post).
Proof.
  intros Hcalm Ht Hc r. subst r.
  destruct (@createOrGetTags_resolves tags (mkSt w None) Hcalm)
    as (tagIds & st1 & E1 & Hall1).
  destruct (createOrGetTags_grows _ _ E1)
    as [(_ & Hp1 & _ & _ & _ & _ & Hplan1 & _ & Hs1) _].
  assert (Hcalm1 : calm_plan (world st1))
    by (intro k; rewrite Hplan1; apply Hcalm).
  destruct (@createOrGetCategories_resolves categories st1 Hcalm1)
    as (categoryIds & st2 & E2 & Hall2).
  destruct (createOrGetCategories_grows _ _ E2)
    as [(_ & Hp2 & _ & _ & Htags2 & _ & Hplan2 & _ & Hs2) _].
  assert (Hcalm2 : calm_plan (world st2))
    by (intro k; rewrite Hplan2; apply Hcalm1).
  simpl in Hp1, Hs1.
  set (post := mkPost (oidgen (world st2) (fresh (world st2)))
                 (body_title req) (body_content req) (user_id req) tagIds
                 categoryIds [] []).
  assert (Hrun : serve createPost req w
                 = (Ret tt,
                    mkSt (mkWorld
                            (set_Posts (db (world st2))
                               (Posts (db (world st2)) ++ [post]))
                            (plan (world st2)) (S (clock (world st2)))
                            (oidgen (world st2)) (S (fresh (world st2))))
                      (post_created post))).
  { unfold serve, createPost, try_catch.
    unfold bind at 1. rewrite Ht. simpl. rewrite E1.
    unfold bind at 1. rewrite Hc. simpl. rewrite E2.
    unfold new_Post, new_oid, bind, ret, await, Post_insert, writing,
      res_json.
    simpl. rewrite !Hcalm2. simpl. rewrite Hs2, Hs1. reflexivity. }
  exists post. unfold response, store_after. rewrite Hrun. simpl.
  rewrite Hp2, Hp1. repeat split; try assumption.
  rewrite <- Htags2 in Hall1. exact Hall1.
Qed.

Lemma createPost_names_witness :
  calm_plan (world0 calm)
  /\ exists post,
      response (serve createPost new_post_request (world0 calm))
      = post_created post
      /\ Forall2
           (tag_resolves
              (Tags (store_after
                       (serve createPost new_post_request (world0 calm)))))
           ["rocq"; "proofs"] (p_tags post).
Proof.
  assert (Hcalm : calm_plan (world0 calm)) by apply calm_is_calm.
  split; [exact Hcalm|].
  destruct (@createPost_names new_post_request (world0 calm)
              ["rocq"; "proofs"] ["news"] Hcalm eq_refl eq_refl)
    as (post & Hres & _ & _ & Htags & _).
  exists post. split; assumption.
Defined.

(** ** The handlers that read *)

Ltac reads :=
  intros;
  unfold serving, settled, response, store_after, serve, try_catch, bind,
    await, res_json, Comment_find_populated, Comment_findById_populated,
    Like_find_populated, Post_findById_populated, Like_countDocuments,
    Post_find_page, Post_countDocuments, reading;
  repeat (first [ progress split_run
                | match goal with p : (_ * _)%type |- _ => destruct p end ]);
  simpl; repeat split; (reflexivity || discriminate).

(** X13.  Whatever database call fails, [getAllComments], [getCommentById],
    [getLikesByPost], [getPostById] and [getPosts] answer, let no error out
    and leave the store as it was. *)
Theorem readers_only_read (req : Request) (q : Query) (w : World) :
  (settled (serve getAllComments req w) = Ret tt
   /\ response (serve getAllComments req w) <> None
   /\ store_after (serve getAllComments req w) = db w)
  /\ (settled (serve getCommentById req w) = Ret tt
      /\ response (serve getCommentById req w) <> None
      /\ store_after (serve getCommentById req w) = db w)
  /\ (settled (serve getLikesByPost req w) = Ret tt
      /\ response (serve getLikesByPost req w) <> None
      /\ store_after (serve getLikesByPost req w) = db w)
  /\ (settled (serve getPostById req w) = Ret tt
      /\ response (serve getPostById req w) <> None
      /\ store_after (serve getPostById req w) = db w)
  /\ (settled (serving (getPosts q) w) = Ret tt
      /\ response (serving (getPosts q) w) <> None
      /\ store_after (serving (getPosts q) w) = db w).
Proof.
  split; [|split; [|split; [|split]]].
  - unfold getAllComments. reads.
  - unfold getCommentById. reads.
  - unfold getLikesByPost. reads.
  - unfold getPostById. reads.
  - unfold getPosts. reads.
Qed.

Lemma likeCount_last (fields : list (string * json)) (s : Store) (p : Post)
  (v : json) :
  fields = populated_post_fields s p ->
  assoc "likeCount" (fields ++ [("likeCount", v)]) = Some v
  /\ assoc "likes" (fields ++ [("likeCount", v)]) = Some (ids_json (p_likes p)).
Proof.
  intros ->. unfold populated_post_fields.
  destruct (p_title p), (p_content p); simpl; split; reflexivity.
Qed.

(** X14.  When no database call fails, [getPostById] of a post that exists
    answers 200 with a [likeCount] that is the number of Like documents of
    the post, next to the [likes] array of the post; on a consistent store
    the two agree. *)
Theorem getPostById_counts_likes (req : Request) (w : World) (p : Post) :
  calm_plan w ->
  findById p_id (params_id req) (Posts (db w)) = Some p ->
  let r := serve getPostById req w in
  answered 200 r
  /\ under "likeCount" (response r)
     = Some (JNum (Z.of_nat
                     (length (filter (fun l => l_post l =? p_id p)
                                (Likes (db w))))))
  /\ under "likes" (response r) = Some (ids_json (p_likes p))
  /\ (consistent (db w) ->
      under "likeCount" (response r)
      = Some (JNum (Z.of_nat (length (p_likes p))))).
Proof.
  intros Hcalm Hp r.
  assert (Hrun :
            response r
            = Some (mkResponse 200
                      (JObj (populated_post_fields (db w) p
                               ++ [("likeCount",
                                    JNum (Z.of_nat
                                            (length
                                               (filter
                                                  (fun l => l_post l =? p_id p)
                                                  (Likes (db w))))))])))).
  { subst r.
    unfold response, serve, getPostById, try_catch, bind, await, res_json,
      Post_findById_populated, Like_countDocuments, reading.
    simpl. rewrite !Hcalm. simpl. rewrite Hp. simpl. rewrite !Hcalm. simpl.
    rewrite nat_N_Z. reflexivity. }
  destruct (@likeCount_last _ (db w) p
              (JNum (Z.of_nat
                       (length (filter (fun l => l_post l =? p_id p)
                                  (Likes (db w))))))
              eq_refl) as [Hcount Hlikes].
  unfold answered, under. rewrite Hrun.
  split; [eexists; reflexivity|]. split; [exact Hcount|].
  split; [exact Hlikes|].
  intro Hcons. rewrite Hcount.
  rewrite (likes_listed Hcons p (findById_In _ _ _ Hp)).
  unfold refs_of. rewrite length_map. reflexivity.
Qed.

Lemma getPostById_counts_likes_witness :
  calm_plan (world0 calm)
  /\ under "likeCount" (response (serve getPostById (request "p1" bob)
                                     (world0 calm)))
     = Some (JNum 1).
Proof.
  assert (Hcalm : calm_plan (world0 calm)) by apply calm_is_calm.
  split; [exact Hcalm|].
  exact (proj1 (proj2 (@getPostById_counts_likes (request "p1" bob)
                         (world0 calm) post1 Hcalm eq_refl))).
Defined.

(** ** Pages *)

Lemma chunks_cover (A : Type) (n : nat) :
  forall (m : nat) (l : list A),
    length l <= m * n ->
    concat (map (fun k => firstn n (skipn (k * n) l)) (seq 0 m)) = l.
Proof.
  induction m as [|m IH]; intros l Hlen.
  - simpl in *. destruct l; [reflexivity | simpl in Hlen; lia].
  - transitivity (firstn n l ++ skipn n l)%list; [|apply firstn_skipn].
    change (seq 0 (S m)) with (0 :: seq 1 m). simpl map. simpl concat.
    f_equal. rewrite <- seq_shift, map_map.
    etransitivity; [|apply (IH (skipn n l))].
    + f_equal. apply map_ext. intro k. rewrite skipn_skipn.
      f_equal. f_equal. lia.
    + rewrite length_skipn. simpl in Hlen. lia.
Qed.

Lemma pages_enough (len n : nat) :
  0 < n -> len <= (len + n - 1) / n * n.
Proof.
  intro Hn.
  pose proof (Nat.div_mod_eq (len + n - 1) n) as E.
  pose proof (Nat.mod_upper_bound (len + n - 1) n) as B.
  nia.
Qed.

(** The answer of [getPosts] to a page, when no database call fails. *)
Lemma getPosts_page (w : World) (k n : nat) :
  calm_plan w -> 0 < n ->
  response (serving (getPosts (page_query k n)) w)
  = Some (mkResponse 200
            (JObj [("posts",
                    JArr (map (populated_post (db w))
                            (firstn n (skipn (k * n) (Posts (db w))))));
                   ("totalPages",
                    JNum (Z.of_nat ((length (Posts (db w)) + n - 1) / n)));
                   ("currentPage", JNum (Z.of_nat (S k)))])).
Proof.
  intros Hcalm Hn.
  unfold response, serving, getPosts, page_query, try_catch, bind, await,
    res_json, Post_find_page, Post_countDocuments, reading, totalPages, limit.
  cbn [query_page query_results_per_page world sent plan clock db].
  rewrite !Hcalm.
  assert (Hskip : ((Z.of_N (N.of_nat (S k)) - 1) * Z.of_N (N.of_nat n))%Z
                  = Z.of_nat (k * n)) by (rewrite !nat_N_Z; nia).
  rewrite Hskip.
  assert (Hpos : (Z.of_nat (k * n) <? 0)%Z = false)
    by (apply Z.ltb_ge; lia).
  rewrite Hpos, Nat2Z.id.
  assert (Hlim : (N.of_nat n =? 0)%N = false) by (apply N.eqb_neq; lia).
  rewrite Hlim, Nat2N.id. cbn [fst snd world sent plan clock db].
  rewrite !Hcalm. cbn [fst snd world sent plan clock db].
  unfold populated_post.
  assert (Htotal : Z.of_N ((N.of_nat (length (Posts (db w))) + N.of_nat n - 1)
                             / N.of_nat n)
                   = Z.of_nat ((length (Posts (db w)) + n - 1) / n)).
  { rewrite <- nat_N_Z. f_equal. rewrite Nat2N.inj_div. f_equal. lia. }
  rewrite Htotal, nat_N_Z. reflexivity.
Qed.

(** X15.  When no database call fails, for a page size of at least one, every
    page of [getPosts] reports as [totalPages] the number of posts divided
    by the page size, rounded up; the pages 1 to [totalPages], one after the
    other, are the posts, populated, each once and in order; no page is longer than the page size and the pages after the last
    are empty. *)
Theorem getPosts_pages (w : World) (n : nat) :
  calm_plan w ->
  0 < n ->
  let total := (length (Posts (db w)) + n - 1) / n in
  (forall k,
      under "totalPages" (response (serving (getPosts (page_query k n)) w))
      = Some (JNum (Z.of_nat total)))
  /\ concat (map (fun k => posts_of_page w k n) (seq 0 total))
     = map (populated_post (db w)) (Posts (db w))
  /\ (forall k, length (posts_of_page w k n) <= n)
  /\ (forall k, total <= k -> posts_of_page w k n = []).
Proof.
  intros Hcalm Hn total.
  assert (Hpage : forall k,
             posts_of_page w k n
             = map (populated_post (db w))
                 (firstn n (skipn (k * n) (Posts (db w))))).
  { intro k. unfold posts_of_page. rewrite (getPosts_page k Hcalm Hn).
    reflexivity. }
  split; [|split; [|split]].
  - intro k. rewrite (getPosts_page k Hcalm Hn). reflexivity.
  - rewrite (map_ext _ _ Hpage).
    rewrite <- (map_map (fun k => firstn n (skipn (k * n) (Posts (db w))))
                  (map (populated_post (db w)))).
    rewrite <- concat_map. f_equal.
    apply chunks_cover, pages_enough, Hn.
  - intro k. rewrite Hpage, length_map. apply firstn_le_length.
  - intros k Hk. rewrite Hpage.
    rewrite skipn_all2; [rewrite firstn_nil; reflexivity|].
    pose proof (pages_enough (length (Posts (db w))) Hn). fold total in H.
    nia.
Qed.

Lemma getPosts_pages_witness :
  calm_plan (world0 calm)
  /\ 0 < 1
  /\ concat (map (fun k => posts_of_page (world0 calm) k 1) (seq 0 2))
     = map (populated_post blog) [post1; post2].
Proof.
  assert (Hcalm : calm_plan (world0 calm)) by apply calm_is_calm.
  assert (Hn : 0 < 1) by lia.
  split; [exact Hcalm|]. split; [exact Hn|].
  exact (proj1 (proj2 (@getPosts_pages (world0 calm) 1 Hcalm Hn))).
Defined.

(** ** More on the handlers that write *)

(** X16.  Whatever database call fails, [addLike] answers; it ends normally
    or with the error of a second send, [ERR_HTTP_HEADERS_SENT], and it ends
    with that error exactly when the answer it gave was the 400 of a repeated
    like. *)
Theorem addLike_rejects_when_repeated (req : Request) (w : World) :
  let r := serve addLike req w in
  response r <> None
  /\ (settled r = Ret tt \/ settled r = Throw ERR_HTTP_HEADERS_SENT)
  /\ (settled r = Throw ERR_HTTP_HEADERS_SENT <-> answered 400 r).
Proof.
  intro r. subst r.
  unfold answered, settled, response, serve, addLike, try_catch, bind, await,
    new_Like, new_oid, ret, res_json, Post_findById, Like_findOne, Post_save,
    Like_insert, reading, writing.
  split_run; simpl;
    (split; [discriminate|]);
    (split; [auto|]);
    (split; [intro H; try discriminate H; eexists; reflexivity
            | intros (payload & H); try discriminate H; reflexivity]).
Qed.

(** X17.  When the lookup does not fail, whatever fails later, [deletePost] by
    the author of a post that exists lets no error out and answers 200 or
    500; the post is removed only after its likes and its comments: either
    the posts are as they were, or the post is gone and so are all the likes
    and all the comments of the post.  After a 200 the store is the one
    without the post.  (The clean-up of tags and categories, which is not
    among the sources, is the one modelled from the spec.) *)
Theorem deletePost_in_order (req : Request) (w : World) (p : Post) :
  plan w (clock w) = false ->
  findById p_id (params_id req) (Posts (db w)) = Some p ->
  user_id req = p_author p ->
  let r := serve deletePost req w in
  settled r = Ret tt
  /\ (answered 200 r \/ answered 500 r)
  /\ (answered 200 r -> store_after r = without_post (params_id req) (db w))
  /\ (Posts (store_after r) = Posts (db w)
      \/ (Posts (store_after r) = delete_doc p_id (p_id p) (Posts (db w))
          /\ Likes (store_after r)
             = filter (fun l => negb (l_post l =? p_id p)) (Likes (db w))
          /\ Comments (store_after r)
             = filter (fun c => negb (c_post c =? p_id p)) (Comments (db w)))).
Proof.
  intros Hplan Hp Hu r. subst r.
  pose proof (findById_key _ _ _ Hp) as Hid.
  unfold answered, settled, response, store_after, serve, deletePost,
    try_catch, cleanUpTags, cleanUpCategories, bind, await, res_json,
    Post_findById, Like_deleteMany, Comment_deleteMany, Post_deleteOne,
    reading, writing.
  simpl. rewrite Hplan, Hp. simpl. rewrite (is_author Hu).
  split_run; simpl;
    (split; [reflexivity|]);
    (split; [first [left; eexists; reflexivity | right; eexists; reflexivity]|]);
    (split;
     [ intros (payload & H); try discriminate H;
       unfold without_post; rewrite Hid; reflexivity
     | first [left; reflexivity | right; repeat split; reflexivity] ]).
Qed.

Lemma deletePost_in_order_witness :
  plan (world0 (failing_at 2)) (clock (world0 (failing_at 2))) = false
  /\ findById p_id "p1" (Posts blog) = Some post1
  /\ alice = p_author post1
  /\ settled (serve deletePost (request "p1" alice) (world0 (failing_at 2)))
     = Ret tt
  /\ (answered 200 (serve deletePost (request "p1" alice)
                      (world0 (failing_at 2)))
      \/ answered 500 (serve deletePost (request "p1" alice)
                         (world0 (failing_at 2)))).
Proof.
  destruct (@deletePost_in_order (request "p1" alice) (world0 (failing_at 2))
              post1 eq_refl eq_refl eq_refl) as (Hsettled & Hanswer & _).
  repeat split; assumption.
Defined.

Lemma findById_replace_other (A : Type) (key : A -> ObjectId) (d : A)
  (j : ObjectId) (l l' : list A) :
  replace_doc key d l = Some l' -> j <> key d ->
  findById key j l' = findById key j l.
Proof.
  unfold findById. revert l'.
  induction l as [|e rest IH]; simpl; intros l' H Hj.
  - discriminate.
  - destruct (key e =? key d) eqn:E.
    + injection H as <-. simpl. apply String.eqb_eq in E.
      assert (Ed : (key d =? j) = false) by (apply String.eqb_neq; congruence).
      assert (Ee : (key e =? j) = false) by (apply String.eqb_neq; congruence).
      rewrite Ed, Ee. reflexivity.
    + destruct (replace_doc key d rest) as [r|]; [|discriminate].
      injection H as <-. simpl. destruct (key e =? j); [reflexivity|].
      apply IH; [reflexivity | exact Hj].
Qed.

(** X18.  When no database call fails, [editCommentById] by the author with a
    content that is not empty is answered 200 with the edited comment;
    afterwards the comment has the new content, every other comment is as it
    was and in its place, and posts and likes are untouched. *)
Theorem editCommentById_updates (req : Request) (w : World) (c : Comment)
  (content : string) :
  calm_plan w ->
  findById c_id (params_id req) (Comments (db w)) = Some c ->
  user_id req = c_author c ->
  body_content req = Some content ->
  content <> "" ->
  let r := serve editCommentById req w in
  let c' := set_content c (Some content) in
  response r = comment_updated_ok c'
  /\ findById c_id (params_id req) (Comments (store_after r)) = Some c'
  /\ (forall j, j <> params_id req ->
                findById c_id j (Comments (store_after r))
                = findById c_id j (Comments (db w)))
  /\ map c_id (Comments (store_after r)) = map c_id (Comments (db w))
  /\ Posts (store_after r) = Posts (db w)
  /\ Likes (store_after r) = Likes (db w).
Proof.
  intros Hcalm Hc Hu Hbody Hne r c'. subst r.
  pose proof (findById_key _ _ _ Hc) as Hid.
  destruct (@replace_doc_found _ c_id (params_id req) (Comments (db w)) c c'
              Hc Hid) as (l' & Hsave & Hfind & _).
  assert (Htruthy : truthy (body_content req) = true).
  { rewrite Hbody. simpl. apply negb_true_iff, String.eqb_neq, Hne. }
  assert (Hrun : serve editCommentById req w
                 = (Ret tt,
                    mkSt (mkWorld (set_Comments (db w) l') (plan w)
                            (2 + clock w) (oidgen w) (fresh w))
                      (comment_updated_ok c'))).
  { unfold serve, editCommentById, try_catch, bind, await, res_json,
      Comment_findById, Comment_save, reading.
    simpl.
    repeat (progress (rewrite ?Hcalm, ?Hc, ?(is_author Hu), ?Htruthy, ?Hbody;
                      simpl)).
    fold c'. rewrite Hsave. reflexivity. }
  unfold response, store_after. rewrite Hrun. simpl.
  split; [reflexivity|]. split; [exact Hfind|].
  split; [|split; [|split; reflexivity]].
  - intros j Hj. apply (@findById_replace_other _ c_id c' j _ _ Hsave).
    simpl. congruence.
  - apply (@replace_doc_keys _ _ _ _ _ Hsave).
Qed.

Lemma editCommentById_updates_witness :
  calm_plan (world0 calm)
  /\ findById c_id "c1"
       (Comments (store_after
                    (serve editCommentById edit_with_new_content
                       (world0 calm))))
     = Some (set_content comment1 (Some "Better")).
Proof.
  assert (Hcalm : calm_plan (world0 calm)) by apply calm_is_calm.
  assert (Hne : "Better" <> "") by discriminate.
  split; [exact Hcalm|].
  exact (proj1 (proj2 (@editCommentById_updates edit_with_new_content
                         (world0 calm) comment1 "Better" Hcalm eq_refl
                         eq_refl eq_refl Hne))).
Defined.

Lemma findById_update_other (A : Type) (key : A -> ObjectId) (f : A -> A)
  (i j : ObjectId) (l : list A) :
  (forall e, key (f e) = key e) -> j <> i ->
  findById key j (update_doc key i f l) = findById key j l.
Proof.
  intros Hf Hj. unfold findById. induction l as [|e rest IH]; simpl.
  - reflexivity.
  - destruct (key e =? i) eqn:E; simpl.
    + apply String.eqb_eq in E. rewrite Hf.
      assert (Ee : (key e =? j) = false) by (apply String.eqb_neq; congruence).
      rewrite Ee. reflexivity.
    + destruct (key e =? j); [reflexivity | exact IH].
Qed.

(** X19.  When no database call fails, [updatePost] by the author is answered
    200 with the updated post, which is then the stored one: its id, author,
    comments and likes are kept, a title that is not empty is taken, given
    tags and categories are replaced by the ids that their names resolve to
    and are kept when none are given; the other posts, the comments and the
    likes are as they were. *)
Theorem updatePost_changes (req : Request) (w : World) (p : Post) :
  calm_plan w ->
  findById p_id (params_id req) (Posts (db w)) = Some p ->
  user_id req = p_author p ->
  let r := serve updatePost req w in
  exists p',
    response r = updated_ok p'
    /\ findById p_id (params_id req) (Posts (store_after r)) = Some p'
    /\ (forall j, j <> params_id req ->
                  findById p_id j (Posts (store_after r))
                  = findById p_id j (Posts (db w)))
    /\ (p_id p' = p_id p /\ p_author p' = p_author p
        /\ p_comments p' = p_comments p /\ p_likes p' = p_likes p)
    /\ (forall title, body_title req = Some title -> title <> "" ->
                      p_title p' = Some title)
    /\ (forall tags, body_tags req = Some tags ->
                     Forall2 (tag_resolves (Tags (store_after r))) tags
                       (p_tags p'))
    /\ (body_tags req = None -> p_tags p' = p_tags p)
    /\ (forall categories,
           body_categories req = Some categories ->
           Forall2 (category_resolves (Categories (store_after r)))
             categories (p_categories p'))
    /\ (body_categories req = None -> p_categories p' = p_categories p)
    /\ Comments (store_after r) = Comments (db w)
    /\ Likes (store_after r) = Likes (db w).
Proof.
  intros Hcalm Hp Hu r. subst r.
  set (st0 := mkSt (mkWorld (db w) (plan w) (S (clock w)) (oidgen w) (fresh w))
                None).
  assert (Hcalm0 : calm_plan (world st0)) by exact Hcalm.
  assert (exists tags' st1,
             match body_tags req with
             | Some tags => createOrGetTags tags
             | None => ret (p_tags p)
             end st0 = (Ret tags', st1)
             /\ only_tags_grow st0 st1
             /\ (forall tags, body_tags req = Some tags ->
                              Forall2 (tag_resolves (Tags (db (world st1))))
                                tags tags')
             /\ (body_tags req = None -> tags' = p_tags p))
    as (tags' & st1 & E1 & G1 & R1 & N1).
  { destruct (body_tags req) as [tags|].
    - destruct (@createOrGetTags_resolves tags st0 Hcalm0)
        as (ids & st1 & E & Hall).
      exists ids, st1. split; [exact E|].
      split; [exact (proj1 (createOrGetTags_grows _ _ E))|].
      split; [|discriminate]. intros t Ht. injection Ht as <-. exact Hall.
    - exists (p_tags p), st0. split; [reflexivity|].
      split; [apply only_tags_grow_refl|]. split; [discriminate | auto]. }
  destruct G1 as (_ & Hp1 & Hc1 & Hl1 & _ & _ & Hplan1 & _ & Hs1).
  assert (Hcalm1 : calm_plan (world st1))
    by (intro k; rewrite Hplan1; apply Hcalm0).
  assert (exists categories' st2,
             match body_categories req with
             | Some categories => createOrGetCategories categories
             | None => ret (p_categories p)
             end st1 = (Ret categories', st2)
             /\ only_categories_grow st1 st2
             /\ (forall categories,
                    body_categories req = Some categories ->
                    Forall2 (category_resolves (Categories (db (world st2))))
                      categories categories')
             /\ (body_categories req = None -> categories' = p_categories p))
    as (categories' & st2 & E2 & G2 & R2 & N2).
  { destruct (body_categories req) as [categories|].
    - destruct (@createOrGetCategories_resolves categories st1 Hcalm1)
        as (ids & st2 & E & Hall).
      exists ids, st2. split; [exact E|].
      split; [exact (proj1 (createOrGetCategories_grows _ _ E))|].
      split; [|discriminate]. intros t Ht. injection Ht as <-. exact Hall.
    - exists (p_categories p), st1. split; [reflexivity|].
      split; [apply only_categories_grow_refl|].
      split; [discriminate | auto]. }
  destruct G2 as (_ & Hp2 & Hc2 & Hl2 & Htags2 & _ & Hplan2 & _ & Hs2).
  assert (Hcalm2 : calm_plan (world st2))
    by (intro k; rewrite Hplan2; apply Hcalm1).
  simpl in Hp1, Hc1, Hl1, Hs1.
  set (e := mkPostUpdate
              (if truthy (body_title req) then body_title req
               else p_title p)
              (if truthy (body_content req) then body_content req
               else p_content p)
              tags' categories').
  assert (Hp2' : findById p_id (params_id req) (Posts (db (world st2)))
                 = Some p) by (rewrite Hp2, Hp1; exact Hp).
  assert (Hrun : serve updatePost req w
                 = (Ret tt,
                    mkSt (mkWorld
                            (set_Posts (db (world st2))
                               (update_doc p_id (params_id req)
                                  (apply_update e) (Posts (db (world st2)))))
                            (plan (world st2)) (S (clock (world st2)))
                            (oidgen (world st2)) (fresh (world st2)))
                      (updated_ok (apply_update e p)))).
  { unfold serve, updatePost.
    unfold bind at 1. rewrite await_calm by exact Hcalm.
    unfold Post_findById, reading. simpl. rewrite Hp, (is_author Hu).
    fold st0. unfold try_catch. unfold bind at 1. rewrite E1.
    unfold bind at 1. rewrite E2. fold e.
    unfold bind. rewrite await_calm by exact Hcalm2.
    unfold Post_findByIdAndUpdate. simpl.
    erewrite findById_update_doc; [| reflexivity | exact Hp2'].
    unfold res_json. simpl. rewrite Hs2, Hs1. reflexivity. }
  exists (apply_update e p).
  unfold response, store_after. rewrite Hrun. simpl.
  split; [reflexivity|].
  split; [apply findById_update_doc; [reflexivity | exact Hp2']|].
  split.
  { intros j Hj. rewrite findById_update_other by (auto; reflexivity).
    rewrite Hp2, Hp1. reflexivity. }
  split; [repeat split|].
  split.
  { intros title Ht Hne. subst e. simpl. rewrite Ht. simpl.
    assert (E : (title =? "") = false) by (apply String.eqb_neq, Hne).
    rewrite E. reflexivity. }
  split; [intros tags Ht; rewrite Htags2; apply (R1 tags Ht)|].
  split; [exact N1|].
  split; [exact R2|].
  split; [exact N2|].
  split; congruence.
Qed.

Lemma updatePost_changes_witness :
  calm_plan (world0 calm)
  /\ exists p',
      response (serve updatePost retag_request (world0 calm)) = updated_ok p'
      /\ p_title p' = Some "Hello again"
      /\ p_likes p' = p_likes post1
      /\ Forall2
           (tag_resolves
              (Tags (store_after (serve updatePost retag_request
                                    (world0 calm)))))
           ["js"; "proofs"] (p_tags p').
Proof.
  assert (Hcalm : calm_plan (world0 calm)) by apply calm_is_calm.
  split; [exact Hcalm|].
  destruct (@updatePost_changes retag_request (world0 calm) post1 Hcalm
              eq_refl eq_refl)
    as (p' & Hres & _ & _ & (_ & _ & _ & Hlikes) & Htitle & Htags & _).
  exists p'. split; [exact Hres|]. split.
  - apply Htitle; [reflexivity | discriminate].
  - split; [exact Hlikes | apply Htags; reflexivity].
Defined.

Lemma delete_doc_other (A : Type) (key : A -> ObjectId) (i : ObjectId)
  (q : A) (l : list A) :
  NoDup (map key l) -> In q (delete_doc key i l) -> In q l /\ key q <> i.
Proof.
  intros Hnd Hq. rewrite delete_doc_filter in Hq by exact Hnd.
  apply filter_In in Hq. destruct Hq as [Hin Hne].
  split; [exact Hin|]. apply String.eqb_neq, negb_true_iff, Hne.
Qed.

Lemma findById_delete_other (A : Type) (key : A -> ObjectId)
  (i j : ObjectId) (l : list A) :
  j <> i -> findById key j (delete_doc key i l) = findById key j l.
Proof.
  intro Hne. unfold findById. induction l as [|d rest IH]; simpl.
  - reflexivity.
  - destruct (String.eqb_spec (key d) i) as [E|E]; simpl.
    + destruct (String.eqb_spec (key d) j) as [E'|_]; [congruence|reflexivity].
    + rewrite IH. reflexivity.
Qed.

Lemma blog_no_orphans : no_orphans blog.
Proof.
  split; simpl; intros d [H | []]; subst d; discriminate.
Qed.

(** X20.  When no database call fails, [deletePost] by the author on a
    consistent store is answered 200 and the store stays consistent; the post
    is no longer found, the posts left are the other posts, and no like and
    no comment of the deleted post is left.  If every like and every comment
    named a stored post before, so it is after: the delete leaves no orphan.
    (The clean-up of tags and categories, which is not among the sources, is
    the one modelled from the spec.) *)
Theorem deletePost_keeps_consistent (req : Request) (w : World) (p : Post) :
  calm_plan w ->
  consistent (db w) ->
  findById p_id (params_id req) (Posts (db w)) = Some p ->
  user_id req = p_author p ->
  let r := serve deletePost req w in
  response r = deleted_ok (params_id req)
  /\ consistent (store_after r)
  /\ findById p_id (params_id req) (Posts (store_after r)) = None
  /\ (forall q, In q (Posts (store_after r))
                <-> In q (Posts (db w)) /\ p_id q <> params_id req)
  /\ (forall l, In l (Likes (store_after r))
                <-> In l (Likes (db w)) /\ l_post l <> params_id req)
  /\ (forall c, In c (Comments (store_after r))
                <-> In c (Comments (db w)) /\ c_post c <> params_id req)
  /\ (no_orphans (db w) -> no_orphans (store_after r)).
Proof.
  intros Hcalm Hcons Hp Hu r. subst r.
  destruct (deletePost_calm req Hcalm Hp Hu) as (Hres & _ & Hstore).
  destruct Hcons as [Hposts Hlikes Hcomments Hll Hcl].
  assert (Hother : forall (A : Type) (parent : A -> ObjectId) (d : A)
                     (l : list A),
             In d (filter (fun x => negb (parent x =? params_id req)) l)
             <-> In d l /\ parent d <> params_id req).
  { intros A parent d l. rewrite filter_In, negb_true_iff, String.eqb_neq.
    reflexivity. }
  rewrite Hstore. split; [exact Hres|]. unfold without_post. split.
  { constructor; simpl.
    + apply delete_doc_NoDup, Hposts.
    + apply filter_NoDup_keys, Hlikes.
    + apply filter_NoDup_keys, Hcomments.
    + intros q Hq. destruct (@delete_doc_other _ p_id _ q _ Hposts Hq) as [Hin Hne].
      rewrite refs_of_deleteMany by exact Hne. apply Hll, Hin.
    + intros q Hq. destruct (@delete_doc_other _ p_id _ q _ Hposts Hq) as [Hin Hne].
      rewrite refs_of_deleteMany by exact Hne. apply Hcl, Hin. }
  simpl. split.
  { rewrite delete_doc_filter by exact Hposts.
    unfold findById. apply find_nowhere. intros d Hd.
    apply filter_In in Hd. destruct Hd as [_ Hd].
    apply negb_true_iff in Hd. exact Hd. }
  split.
  { intro q. rewrite delete_doc_filter by exact Hposts. apply Hother. }
  split; [intro l; apply Hother|]. split; [intro c; apply Hother|].
  intros [Hl Hc]. split; simpl.
  - intros l Hin. apply Hother in Hin. destruct Hin as [Hin Hne].
    rewrite findById_delete_other by exact Hne. apply Hl, Hin.
  - intros c Hin. apply Hother in Hin. destruct Hin as [Hin Hne].
    rewrite findById_delete_other by exact Hne. apply Hc, Hin.
Qed.

Lemma deletePost_keeps_consistent_witness :
  calm_plan (world0 calm)
  /\ consistent blog
  /\ no_orphans blog
  /\ (let s' := store_after (serve deletePost (request "p1" alice)
                               (world0 calm)) in
      consistent s' /\ no_orphans s'
      /\ findById p_id "p1" (Posts s') = None
      /\ ~ In like1 (Likes s') /\ ~ In comment1 (Comments s')).
Proof.
  assert (Hcalm : calm_plan (world0 calm)) by apply calm_is_calm.
  destruct (@deletePost_keeps_consistent (request "p1" alice) (world0 calm)
              post1 Hcalm blog_consistent eq_refl eq_refl)
    as (_ & Hcons & Hgone & _ & Hlikes & Hcomments & Horphans).
  split; [exact Hcalm|]. split; [exact blog_consistent|].
  split; [exact blog_no_orphans|]. split; [exact Hcons|].
  split; [exact (Horphans blog_no_orphans)|]. split; [exact Hgone|]. split.
  - intro H. apply Hlikes in H. destruct H as [_ H]. apply H. reflexivity.
  - intro H. apply Hcomments in H. destruct H as [_ H]. apply H. reflexivity.
Defined.

(** ** More on the widget *)

Section MoreRendering.
Variable Date_time : option json -> option Z.

Lemma sorted_with_ties (cmp : json -> json -> Js (option Z)) (l : list json) :
  (forall x y, In x l -> In y l -> exists v, cmp x y = inr v /\ after v = false) ->
  sorted_with cmp l = inr l.
Proof.
  induction l as [|x rest IH]; intro H; simpl.
  - reflexivity.
  - rewrite IH by (intros a b Ha Hb; apply H; right; assumption). simpl.
    destruct rest as [|y rest']; simpl.
    + reflexivity.
    + destruct (H x y (or_introl eq_refl) (or_intror (or_introl eq_refl)))
        as (v & Hc & Ha).
      rewrite Hc. simpl. rewrite Ha. reflexivity.
Qed.

Lemma show_objects (l : list json) :
  Forall is_object l -> js_map show l = inr (map shown_of l).
Proof.
  induction l as [|c rest IH]; intro Hl; simpl.
  - reflexivity.
  - inversion Hl as [|? ? (fields & ->) Hrest]; subst. simpl.
    rewrite (IH Hrest). reflexivity.
Qed.

Lemma compareFn_tie (order : string) (a b : json) :
  is_object a -> is_object b ->
  (order <> "newest" /\ order <> "oldest")
  \/ (created Date_time a = None /\ created Date_time b = None) ->
  exists v, compareFn Date_time order a b = inr v /\ after v = false.
Proof.
  intros (fa & ->) (fb & ->) H. unfold compareFn, created in *. simpl in *.
  destruct H as [[Hn Ho] | [Ha Hb]].
  - apply String.eqb_neq in Hn, Ho. rewrite Hn, Ho.
    exists (Some 0%Z). split; reflexivity.
  - rewrite Ha, Hb.
    destruct (order =? "newest"); [|destruct (order =? "oldest")];
      eexists; split; reflexivity.
Qed.

(** X21.  When the comments of the state are objects and either none has a
    valid [createdAt] or the sort option is neither ["newest"] nor
    ["oldest"], [renderComments] shows them in the order of the state and
    leaves the state as it was. *)
Theorem renderComments_keeps_order (wd : Widget) :
  comments wd < length (arrays wd) ->
  Forall is_object (held wd) ->
  (sortOption wd <> "newest" /\ sortOption wd <> "oldest")
  \/ Forall (fun c => created Date_time c = None) (held wd) ->
  exists wd',
    renderComments Date_time wd = inr (wd', map shown_of (held wd))
    /\ held wd' = held wd.
Proof.
  intros Hwf Hobj Hties.
  assert (E : sorted_with (compareFn Date_time (sortOption wd)) (held wd)
              = inr (held wd)).
  { apply sorted_with_ties. intros x y Hx Hy.
    rewrite Forall_forall in Hobj.
    apply compareFn_tie; auto.
    destruct Hties as [H | H]; [left; exact H | right].
    rewrite Forall_forall in H. auto. }
  assert (R : renderComments Date_time wd
              = inr (set_arrays (write (fst (alloc (arrays wd) (held wd)))
                                   (length (arrays wd)) (held wd)) wd,
                     map shown_of (held wd))).
  { unfold renderComments, Array_sort.
    pose proof (read_alloc_new (arrays wd) (held wd)) as Hnew.
    unfold alloc in *. simpl in *. rewrite Hnew, E. simpl.
    rewrite read_write_same by (rewrite length_app; simpl; lia).
    rewrite (show_objects Hobj). reflexivity. }
  eexists. split; [exact R|].
  exact (proj1 (renderComments_keeps_state Date_time wd Hwf R)).
Qed.
End MoreRendering.

Lemma renderComments_keeps_order_witness :
  comments two_added < length (arrays two_added)
  /\ Forall is_object (held two_added)
  /\ Forall (fun c => created Date_of_millis c = None) (held two_added)
  /\ exists wd',
      renderComments Date_of_millis two_added
      = inr (wd', map shown_of (held two_added)).
Proof.
  assert (Hwf : comments two_added < length (arrays two_added))
    by (simpl; lia).
  assert (Hobj : Forall is_object (held two_added))
    by (repeat constructor; eexists; reflexivity).
  assert (Hnone : Forall (fun c => created Date_of_millis c = None)
                    (held two_added))
    by (repeat constructor).
  split; [exact Hwf|]. split; [exact Hobj|]. split; [exact Hnone|].
  destruct (@renderComments_keeps_order Date_of_millis two_added Hwf Hobj
              (or_intror Hnone)) as (wd' & R & _).
  exists wd'. exact R.
Defined.

(** X22.  [handleAddComment] always ends with an empty input and [loading]
    false, [fetchComments] with [loading] false.  Without a token neither
    sends a request nor changes the comments, and each alerts once; with a
    token and an input of white space only, [handleAddComment] sends no
    request, keeps the comments and alerts that the comment is empty. *)
Theorem form_guards (postId : string) (auth : AuthUser) (server : World)
  (wd : Widget) :
  let added := handleAddComment postId auth server wd in
  let fetched := fetchComments postId auth server wd in
  (newComment (fst added) = "" /\ loading (fst added) = false
   /\ loading (fst fetched) = false)
  /\ (truthy (token auth) = false ->
      snd added = server /\ snd fetched = server
      /\ held (fst added) = held wd /\ held (fst fetched) = held wd
      /\ alerts (fst added)
         = (alerts wd ++ ["Authentication token not found. Please log in."])%list
      /\ alerts (fst fetched)
         = (alerts wd ++ ["Authentication token not found. Please log in."])%list)
  /\ (truthy (token auth) = true -> blank (newComment wd) = true ->
      snd added = server
      /\ held (fst added) = held wd
      /\ alerts (fst added) = (alerts wd ++ ["Comment cannot be empty."])%list).
Proof.
  intros added fetched. subst added fetched.
  unfold handleAddComment, fetchComments.
  destruct (truthy (token auth)) eqn:T; simpl.
  - destruct (blank (newComment wd)) eqn:B; simpl.
    + destruct (GET_comments postId auth server) as [[r|] server'];
        [destruct (negb (ok r)); [|destruct (commentsArray (body r))]|];
        simpl; repeat split; intros; try discriminate; reflexivity.
    + destruct (POST_comment postId auth (newComment wd) server)
        as [[r|] server1];
        [destruct (negb (ok r))|];
        (destruct (GET_comments postId auth server) as [[r'|] server'];
         [destruct (negb (ok r')); [|destruct (commentsArray (body r'))]|]);
        simpl; repeat split; intros; try discriminate; reflexivity.
  - destruct (blank (newComment wd));
      simpl; repeat split; intros; try discriminate; reflexivity.
Qed.

(** X23.  When no database call fails, [handleAddComment] with a token and an
    input that is not blank, on a post that exists, has the comment stored by
    the service and puts at the head of the comments of the widget the whole
    answer, the object with [message] and [comment].  The row of that entry
    has no key and no text, and the date in it is [moment(undefined)]: the
    time of rendering, not the time the comment was created. *)
Theorem handleAddComment_adds (postId : string) (auth : AuthUser)
  (server : World) (wd : Widget) (p : Post) :
  calm_plan server ->
  findById p_id postId (Posts (db server)) = Some p ->
  truthy (token auth) = true ->
  blank (newComment wd) = false ->
  let user := match auth_id auth with Some i => i | None => "" end in
  let c := mkComment (oidgen server (fresh server)) (Some (newComment wd)) user
             postId in
  let added := handleAddComment postId auth server wd in
  held (fst added) = created_answer c :: held wd
  /\ (exists row,
         show (created_answer c) = inr row
         /\ key row = None /\ text row = None /\ shown_time row = Now)
  /\ alerts (fst added) = alerts wd
  /\ newComment (fst added) = ""
  /\ Comments (db (snd added)) = (Comments (db server) ++ [c])%list.
Proof.
  intros Hcalm Hp Htoken Hblank user c added. subst added.
  destruct (@createComment_run
              (mkRequest postId user None (Some (newComment wd)) None None)
              server p Hcalm Hp) as (posts' & _ & Hrun).
  unfold handleAddComment, POST_comment. fold user.
  change (newComment (setLoading true wd)) with (newComment wd).
  rewrite Htoken, Hblank. simpl negb. cbv iota.
  unfold response. rewrite Hrun. simpl.
  split; [|split; [eexists; repeat split|repeat split]].
  unfold held. simpl.
  apply (read_alloc_new (arrays wd)
           (created_answer c :: read (arrays wd) (comments wd))).
Qed.

Lemma handleAddComment_adds_witness :
  calm_plan (world0 calm)
  /\ blank (newComment (typing "Well said")) = false
  /\ held (fst (handleAddComment "p1" logged_in (world0 calm)
                  (typing "Well said")))
     = [created_answer (mkComment "oid0" (Some "Well said") alice "p1")]
  /\ exists row,
      show (created_answer (mkComment "oid0" (Some "Well said") alice "p1"))
      = inr row
      /\ key row = None /\ text row = None /\ shown_time row = Now.
Proof.
  assert (Hcalm : calm_plan (world0 calm)) by apply calm_is_calm.
  split; [exact Hcalm|]. split; [reflexivity|].
  destruct (@handleAddComment_adds "p1" logged_in (world0 calm)
              (typing "Well said") post1 Hcalm eq_refl eq_refl eq_refl)
    as (Hheld & Hrow & _).
  split; [exact Hheld | exact Hrow].
Defined.

(** ** The two orders *)

Lemma StronglySorted_snoc (A : Type) (R : A -> A -> Prop) (l : list A)
  (a : A) :
  StronglySorted R l -> Forall (fun x => R x a) l ->
  StronglySorted R (l ++ [a]).
Proof.
  induction l as [|x rest IH]; simpl; intros Hs Hall.
  - repeat constructor.
  - inversion Hs as [|? ? Hs' Hx]; subst.
    inversion Hall as [|? ? Hxa Hrest]; subst.
    constructor; [apply IH; assumption|].
    apply Forall_app. split; [exact Hx | repeat constructor; exact Hxa].
Qed.

Lemma StronglySorted_reversed (A : Type) (R : A -> A -> Prop) (l : list A) :
  StronglySorted R l -> StronglySorted (fun x y => R y x) (rev l).
Proof.
  induction l as [|x rest IH]; simpl; intro Hs.
  - constructor.
  - inversion Hs as [|? ? Hs' Hx]; subst.
    apply StronglySorted_snoc.
    + apply IH, Hs'.
    + apply Forall_rev. exact Hx.
Qed.

(** Two sorted arrangements of the same elements are one, when no two
    elements tie. *)
Lemma sorted_arrangement_unique (A : Type) (R : A -> A -> Prop) :
  forall l1 l2 : list A,
    (forall a b, In a l1 -> In b l1 -> R a b -> R b a -> a = b) ->
    StronglySorted R l1 -> StronglySorted R l2 -> Permutation l1 l2 ->
    l1 = l2.
Proof.
  induction l1 as [|a rest IH]; intros l2 Hanti Hs1 Hs2 Hperm.
  - apply Permutation_nil in Hperm. subst. reflexivity.
  - destruct l2 as [|b rest2].
    + apply Permutation_sym, Permutation_nil in Hperm. discriminate.
    + inversion Hs1 as [|? ? Hs1' Ha]; subst.
      inversion Hs2 as [|? ? Hs2' Hb]; subst.
      assert (a = b).
      { assert (Hb1 : In b (a :: rest))
          by (eapply Permutation_in;
              [apply Permutation_sym, Hperm | left; reflexivity]).
        assert (Ha2 : In a (b :: rest2))
          by (eapply Permutation_in; [exact Hperm | left; reflexivity]).
        destruct Hb1 as [-> | Hb1]; [reflexivity|].
        destruct Ha2 as [-> | Ha2]; [reflexivity|].
        rewrite Forall_forall in Ha, Hb.
        apply Hanti; [left; reflexivity | right; exact Hb1 | auto | auto]. }
      subst b. f_equal. apply IH.
      * intros x y Hx Hy. apply Hanti; right; assumption.
      * exact Hs1'.
      * exact Hs2'.
      * eapply Permutation_cons_inv. exact Hperm.
Qed.

Section TwoOrders.
Variable Date_time : option json -> option Z.

Lemma ranks_opposite (l : list json) :
  StronglySorted (ranked (rank Date_time "oldest")) l ->
  StronglySorted (ranked (rank Date_time "newest")) (rev l).
Proof.
  intro Hs. apply StronglySorted_reversed in Hs.
  eapply StronglySorted_ind
    with (P := StronglySorted (ranked (rank Date_time "newest")));
    [constructor | | exact Hs].
  intros a l' _ IH Hall. constructor; [exact IH|].
  eapply Forall_impl; [|exact Hall].
  unfold ranked, rank. simpl. intros b Hb. lia.
Qed.

(** X24.  When all comments of the state carry a valid [createdAt] and no two
    carry the same, the page [renderComments] shows under "oldest" is the
    page it shows under "newest" read backwards, and both have one entry for
    each comment. *)
Theorem oldest_is_newest_reversed (wd : Widget) :
  comments wd < length (arrays wd) ->
  Forall (dated Date_time) (held wd) ->
  (forall a b, In a (held wd) -> In b (held wd) ->
               time_of Date_time a = time_of Date_time b -> a = b) ->
  exists page wdn wdo,
    renderComments Date_time (setSortOption "newest" wd) = inr (wdn, page)
    /\ renderComments Date_time (setSortOption "oldest" wd)
       = inr (wdo, rev page)
    /\ length page = length (held wd).
Proof.
  intros Hwf Hdated Hdistinct.
  destruct (@sorted_with_good (compareFn Date_time "newest")
              (rank Date_time "newest") (dated Date_time)
              (@compareFn_dated Date_time "newest") (held wd) Hdated)
    as (l1 & E1 & Hperm1 & Hsorted1).
  destruct (@sorted_with_good (compareFn Date_time "oldest")
              (rank Date_time "oldest") (dated Date_time)
              (@compareFn_dated Date_time "oldest") (held wd) Hdated)
    as (l2 & E2 & Hperm2 & Hsorted2).
  assert (Hl1 : Forall (dated Date_time) l1)
    by (eapply Permutation_Forall; [exact Hperm1 | exact Hdated]).
  assert (Hl2 : Forall (dated Date_time) l2)
    by (eapply Permutation_Forall; [exact Hperm2 | exact Hdated]).
  assert (Heq : l1 = rev l2).
  { apply sorted_arrangement_unique
      with (R := ranked (rank Date_time "newest")).
    - intros a b Ha Hb Hab Hba. apply Hdistinct.
      + eapply Permutation_in; [apply Permutation_sym, Hperm1 | exact Ha].
      + eapply Permutation_in; [apply Permutation_sym, Hperm1 | exact Hb].
      + unfold ranked, rank in Hab, Hba. simpl in Hab, Hba. lia.
    - exact Hsorted1.
    - apply ranks_opposite, Hsorted2.
    - eapply perm_trans; [apply Permutation_sym, Hperm1|].
      eapply perm_trans; [exact Hperm2 | apply Permutation_rev]. }
  assert (Hrender : forall order l,
             sorted_with (compareFn Date_time order) (held wd) = inr l ->
             Forall (dated Date_time) l ->
             exists wd',
               renderComments Date_time (setSortOption order wd)
               = inr (wd', map shown_of l)).
  { intros order l E Hl. eexists.
    unfold renderComments, Array_sort.
    change (held (setSortOption order wd)) with (held wd).
    change (arrays (setSortOption order wd)) with (arrays wd).
    change (sortOption (setSortOption order wd)) with order.
    pose proof (read_alloc_new (arrays wd) (held wd)) as Hnew.
    unfold alloc in *. simpl in *. rewrite Hnew, E. simpl.
    rewrite read_write_same by (rewrite length_app; simpl; lia).
    rewrite (@show_dated Date_time l Hl). reflexivity. }
  destruct (Hrender "newest" l1 E1 Hl1) as (wdn & Rn).
  destruct (Hrender "oldest" l2 E2 Hl2) as (wdo & Ro).
  exists (map shown_of l1), wdn, wdo.
  split; [exact Rn|]. split.
  - rewrite Ro, Heq, map_rev, rev_involutive. reflexivity.
  - rewrite length_map. symmetry. apply Permutation_length, Hperm1.
Qed.
End TwoOrders.

Lemma oldest_is_newest_reversed_witness :
  comments three_dated < length (arrays three_dated)
  /\ Forall (dated Date_of_millis) (held three_dated)
  /\ exists page wdn wdo,
      renderComments Date_of_millis (setSortOption "newest" three_dated)
      = inr (wdn, page)
      /\ renderComments Date_of_millis (setSortOption "oldest" three_dated)
         = inr (wdo, rev page).
Proof.
  assert (Hwf : comments three_dated < length (arrays three_dated))
    by (simpl; lia).
  assert (Hdated : Forall (dated Date_of_millis) (held three_dated)).
  { repeat constructor; eexists _, _; split; reflexivity. }
  assert (Hdistinct :
            forall a b, In a (held three_dated) -> In b (held three_dated) ->
                        time_of Date_of_millis a = time_of Date_of_millis b ->
                        a = b).
  { simpl. intros a b [<- | [<- | [<- | []]]] [<- | [<- | [<- | []]]] H;
      (reflexivity || discriminate H). }
  split; [exact Hwf|]. split; [exact Hdated|].
  destruct (@oldest_is_newest_reversed Date_of_millis three_dated Hwf Hdated
              Hdistinct) as (page & wdn & wdo & Rn & Ro & _).
  exists page, wdn, wdo. split; assumption.
Defined.
